(** * Robotic warehouse controller: planner, blocked cells, reservation
    ledger, battery and stuck monitor.

    A shallow embedding of
    - [shared_functions/shelf_helper.py]   (module [ShelfHelper]),
    - [astar_algorithm/shelf_movement.py]  (module [AStar]),
    - [baseline_algorithm/shelf_movement.py] (module [BFS]),
    - [shared_functions/metrics_tracker.py] (module [Metrics]),
    - [astar_algorithm/main.py]            (module [Controller]),
    - [baseline_algorithm/main.py]         (module [Baseline]),
    followed by the properties of the specification.

    Conventions.  Grid cells are pairs [(x, y)] of integers.  Python
    dictionaries are finite maps ([gmap]), Python sets are finite sets
    ([gset]), Python lists are lists.  A [while] loop is a function with a
    fuel argument; running out of fuel is the outcome [OutOfFuel], a Python
    exception is the outcome [Raise].  Objects of the simulator (agents,
    shelves) are compared by identity in the source; the world holds one
    object per id, so identity is modelled as equality of ids.  A battery
    level and the battery capacity are Python numbers: an [int] or a
    [float] (module [Num]); a percentage is computed in doubles, as the
    source computes it. *)

From Stdlib Require Import ZArith List Lia Bool Floats.
From stdpp Require Import base option list gmap sets sorting.

Open Scope Z_scope.

Abbreviation Pos := (Z * Z)%type.

(** ** Outcomes of fallible code *)

Inductive exn : Type :=
| KeyError | TypeError | ValueError | ZeroDivisionError | OverflowError
| UnboundLocalError | IndexError.

Inductive outcome (A : Type) : Type :=
| Ret (a : A)
| Raise (e : exn)
| OutOfFuel.
Arguments Ret {A} a.
Arguments Raise {A} e.
Arguments OutOfFuel {A}.

Definition outcome_bind {A B} (m : outcome A) (k : A → outcome B) : outcome B :=
  match m with
  | Ret a => k a
  | Raise e => Raise e
  | OutOfFuel => OutOfFuel
  end.

#[global] Instance outcome_ret : MRet outcome := λ A a, Ret a.
#[global] Instance outcome_mbind : MBind outcome := λ A B k m, outcome_bind m k.
#[global] Instance outcome_fmap : FMap outcome :=
  λ A B f m, outcome_bind m (λ a, Ret (f a)).

(** [d[k]] on a dictionary: [KeyError] when the key is missing. *)
Definition getitem `{Countable K} {V} (d : gmap K V) (k : K) : outcome V :=
  match d !! k with
  | Some v => Ret v
  | None => Raise KeyError
  end.

(** ** Python numbers

    A Python number is an [int], which is unbounded, or a [float], which
    is an IEEE 754 binary64 and is held as a primitive float.  The
    operations are the ones the controllers apply to battery levels:
    true division, product and the four order tests. *)

Module Num.

Inductive t : Type :=
| PyInt (z : Z)
| PyFloat (f : float).

(** An [int] as a binary number with exponent 0. *)
Definition int_to_SF (z : Z) : spec_float :=
  match z with
  | Z0 => S754_zero false
  | Zpos m => S754_finite false m 0
  | Zneg m => S754_finite true m 0
  end.

(** A double that is not finite is an [OverflowError] when the operands
    were [int]s. *)
Definition finite (f : float) : outcome float :=
  if is_infinity f then Raise OverflowError else Ret f.

(** The double nearest to an [int], ties to even: how the arithmetic
    converts an [int] operand that meets a [float]. *)
Definition of_int (z : Z) : outcome float :=
  finite (SF2Prim (binary_normalize prec emax z 0 false)).

Definition to_float (x : t) : outcome float :=
  match x with
  | PyInt z => of_int z
  | PyFloat f => Ret f
  end.

(** [a / b] *)
Definition truediv (a b : t) : outcome float :=
  match a, b with
  | PyInt x, PyInt y =>
      (* the double nearest to the exact quotient *)
      if y =? 0 then Raise ZeroDivisionError
      else finite (SF2Prim (SFdiv prec emax (int_to_SF x) (int_to_SF y)))
  | _, _ =>
      x ← to_float a;
      y ← to_float b;
      if (y =? 0)%float then Raise ZeroDivisionError else Ret (x / y)%float
  end.

(** [a * b] *)
Definition mul (a b : t) : outcome t :=
  match a, b with
  | PyInt x, PyInt y => Ret (PyInt (x * y))
  | _, _ =>
      x ← to_float a;
      y ← to_float b;
      Ret (PyFloat (x * y)%float)
  end.

(** The exact value of a number: [m * 2^e], an infinity, or no value for
    a nan. *)
Inductive value : Type :=
| NaN
| NegInf
| Dyadic (m e : Z)
| PosInf.

Definition value_of (x : t) : value :=
  match x with
  | PyInt z => Dyadic z 0
  | PyFloat f =>
      match Prim2SF f with
      | S754_nan => NaN
      | S754_infinity s => if s then NegInf else PosInf
      | S754_zero _ => Dyadic 0 0
      | S754_finite s m e => Dyadic (if s then Zneg m else Zpos m) e
      end
  end.

(** The comparisons of Python are exact, whatever the types of the two
    numbers; a nan is ordered with nothing. *)
Definition compare (a b : t) : option comparison :=
  match value_of a, value_of b with
  | NaN, _ | _, NaN => None
  | NegInf, NegInf | PosInf, PosInf => Some Eq
  | NegInf, _ | _, PosInf => Some Lt
  | _, NegInf | PosInf, _ => Some Gt
  | Dyadic m1 e1, Dyadic m2 e2 =>
      let e := Z.min e1 e2 in
      Some (m1 * 2 ^ (e1 - e) ?= m2 * 2 ^ (e2 - e))
  end.

(** [a < b], [a <= b], [a > b], [a >= b] *)
Definition lt (a b : t) : bool :=
  match compare a b with Some Lt => true | _ => false end.
Definition le (a b : t) : bool :=
  match compare a b with Some Lt | Some Eq => true | _ => false end.
Definition gt (a b : t) : bool :=
  match compare a b with Some Gt => true | _ => false end.
Definition ge (a b : t) : bool :=
  match compare a b with Some Gt | Some Eq => true | _ => false end.

End Num.

(** ** Enumerations of the simulator *)

Module Direction.
(** [rware.warehouse.Direction]; the values are those of
    [direction_map = {0: 'UP', 1: 'DOWN', 2: 'LEFT', 3: 'RIGHT'}]. *)
Inductive t : Type := UP | DOWN | LEFT | RIGHT.
Definition value (d : t) : Z :=
  match d with UP => 0 | DOWN => 1 | LEFT => 2 | RIGHT => 3 end.
#[global] Instance eq_dec : EqDecision t.
Proof. solve_decision. Defined.
End Direction.

Module Action.
(** Modelled from the spec: [shared_functions/enums.py] is not among the
    sources.  The action vocabulary of the specification is
    [NOOP=0, FORWARD=1, TURN_LEFT=2, TURN_RIGHT=3, TOGGLE_LOAD=4]; the code
    names the two turns [Action.LEFT] and [Action.RIGHT]. *)
Inductive t : Type := NOOP | FORWARD | LEFT | RIGHT | TOGGLE_LOAD.
Definition value (a : t) : Z :=
  match a with
  | NOOP => 0 | FORWARD => 1 | LEFT => 2 | RIGHT => 3 | TOGGLE_LOAD => 4
  end.
#[global] Instance eq_dec : EqDecision t.
Proof. solve_decision. Defined.
End Action.

(** The string-valued task state of the controller. *)
Inductive AgentState : Type :=
| seek_shelf | deliver | return_shelf | charging | no_shelf_to_carry.

#[global] Instance AgentState_eq_dec : EqDecision AgentState.
Proof. solve_decision. Defined.

(** ** The world as the controller reads it *)

Record Shelf : Type := mkShelf {
  shelf_id : Z;
  shelf_x : Z;
  shelf_y : Z;
  shelf_weight : Z;
}.

Record Agent : Type := mkAgent {
  agent_id : Z;
  agent_x : Z;
  agent_y : Z;
  agent_dir : Direction.t;
  battery_level : Num.t;
  max_carry_weight : Z;
  (** [agent.carrying_shelf], by the id of the carried shelf *)
  carrying_shelf : option Z;
  is_charging : bool;
  (** [getattr(agent, 'state', None)] *)
  attr_state : option AgentState;
}.

Record Env : Type := mkEnv {
  (** [env.grid_size = (rows, cols)] *)
  grid_rows : Z;
  grid_cols : Z;
  shelfs : list Shelf;
  request_queue : list Shelf;
  agents : list Agent;
  goals : list Pos;
  (** [env.obstacles[y, x]], a list of rows *)
  obstacles : list (list bool);
  battery_capacity : Num.t;
}.

Definition agent_pos (a : Agent) : Pos := (agent_x a, agent_y a).
Definition shelf_pos (s : Shelf) : Pos := (shelf_x s, shelf_y s).

(** [range(n)] *)
Definition range (n : Z) : list Z := seqZ 0 n.

(** [range(a, b, step)] for [step] in [{1, -1}] *)
Definition range_step (a b step : Z) : list Z :=
  if 0 <? step then seqZ a (b - a)
  else (λ i, a - i) <$> seqZ 0 (a - b).

(** [abs(p[0] - q[0]) + abs(p[1] - q[1])] *)
Definition manhattan (p q : Pos) : Z := Z.abs (p.1 - q.1) + Z.abs (p.2 - q.2).

(** [max(0, min(v, hi - 1))], the clamping used for every stored cell *)
Definition clamp (v hi : Z) : Z := Z.max 0 (Z.min v (hi - 1)).

(** ** shared_functions/shelf_helper.py *)

Module ShelfHelper.

Record t : Type := mk {
  rows : Z;
  cols : Z;
  (** original shelf positions, by shelf id *)
  shelf_memory : gmap Z Pos;
  shelf_locations : gset Pos;
}.

(** [_initialize_shelf_memory] *)
Definition _initialize_shelf_memory (env : Env) : gmap Z Pos :=
  foldl (λ m s, <[shelf_id s := shelf_pos s]> m) ∅ (shelfs env).

(** [_extract_shelf_locations] *)
Definition _extract_shelf_locations (env : Env) : gset Pos :=
  foldl (λ acc s,
           acc ∪ {[ (clamp (shelf_x s) (grid_cols env),
                     clamp (shelf_y s) (grid_rows env)) ]})
        ∅ (shelfs env).

(** [__init__]: both tables are computed once, from the world as it is
    when the helper is built. *)
Definition init (env : Env) : t :=
  {| rows := grid_rows env;
     cols := grid_cols env;
     shelf_memory := _initialize_shelf_memory env;
     shelf_locations := _extract_shelf_locations env |}.

(** The obstacle loop: every [(x, y)] with [obstacles[y, x]] true. *)
Definition obstacle_cells (obs : list (list bool)) : gset Pos :=
  list_to_set
    (concat
       (imap (λ y row,
                omap (λ xb : nat * bool,
                        if xb.2 then Some (Z.of_nat xb.1, Z.of_nat y) else None)
                     (imap pair row))
             obs)).

(** The loop over [env.agents] that skips the planning agent. *)
Definition other_agent_cells (env : Env) (agent : Agent) : gset Pos :=
  list_to_set
    (agent_pos <$> filter (λ o, agent_id o ≠ agent_id agent) (agents env)).

(** [getattr(agent, 'state', None) or
     (self.agent_states.get(agent.id) if self.agent_states else None)];
    an empty dictionary is falsy, and looking an id up in it gives [None]
    as well. *)
Definition current_state (agent_states : option (gmap Z AgentState))
    (agent : Agent) : option AgentState :=
  match attr_state agent with
  | Some s => Some s
  | None =>
      match agent_states with
      | Some d => d !! agent_id agent
      | None => None
      end
  end.

Definition blocks_shelves (s : option AgentState) : bool :=
  match s with
  | Some deliver | Some return_shelf | Some charging => true
  | _ => false
  end.

(** The shelf part of the blocked set. *)
Definition shelf_cells (h : t) (agent_states : option (gmap Z AgentState))
    (agent : Agent) : gset Pos :=
  if blocks_shelves (current_state agent_states agent) then
    match carrying_shelf agent with
    | Some sid =>
        let carried_shelf_pos := default (-1, -1) (shelf_memory h !! sid) in
        filter (λ pos, pos ≠ carried_shelf_pos) (shelf_locations h)
    | None => shelf_locations h
    end
  else ∅.

(** [get_blocked_positions] *)
Definition get_blocked_positions (h : t) (env : Env)
    (agent_states : option (gmap Z AgentState)) (agent : Agent) : gset Pos :=
  obstacle_cells (obstacles env)
    ∪ other_agent_cells env agent
    ∪ shelf_cells h agent_states agent.

End ShelfHelper.

(** ** The planner code shared by both shelf_movement.py files

    [_is_position_valid], [_validate_action_sequence], [_get_neighbors],
    [_convert_path_to_actions] and [_turn_to_face] are the same text in
    [astar_algorithm/shelf_movement.py] and
    [baseline_algorithm/shelf_movement.py]. *)

Module Movement.

Import Direction.

Section Grid.
(** [self.rows], [self.cols] *)
Variables rows cols : Z.

(** [_is_position_valid] *)
Definition _is_position_valid (pos : Pos) : bool :=
  (0 <=? pos.1) && (pos.1 <? cols) && (0 <=? pos.2) && (pos.2 <? rows).

(** The turn tables of [_validate_action_sequence]:
    [{0:2, 1:3, 2:1, 3:0}] and [{0:3, 1:2, 2:0, 3:1}]. *)
Definition turn_left (d : Direction.t) : Direction.t :=
  match d with UP => LEFT | DOWN => RIGHT | LEFT => DOWN | RIGHT => UP end.
Definition turn_right (d : Direction.t) : Direction.t :=
  match d with UP => RIGHT | DOWN => LEFT | LEFT => UP | RIGHT => DOWN end.

(** The cell a FORWARD leads to: UP is [y - 1], DOWN is [y + 1],
    LEFT is [x - 1], RIGHT is [x + 1]. *)
Definition ahead (p : Pos) (d : Direction.t) : Pos :=
  match d with
  | UP => (p.1, p.2 - 1)
  | DOWN => (p.1, p.2 + 1)
  | LEFT => (p.1 - 1, p.2)
  | RIGHT => (p.1 + 1, p.2)
  end.

(** The loop of [_validate_action_sequence], from a pose. *)
Fixpoint validate_from (p : Pos) (d : Direction.t) (actions : list Action.t)
    (blocked : gset Pos) : bool :=
  match actions with
  | [] => true
  | Action.FORWARD :: rest =>
      let np := ahead p d in
      if negb (_is_position_valid np) || bool_decide (np ∈ blocked)
      then false
      else validate_from np d rest blocked
  | Action.LEFT :: rest => validate_from p (turn_left d) rest blocked
  | Action.RIGHT :: rest => validate_from p (turn_right d) rest blocked
  | _ :: rest => validate_from p d rest blocked
  end.

(** [_validate_action_sequence] *)
Definition _validate_action_sequence (agent : Agent) (actions : list Action.t)
    (blocked : gset Pos) : bool :=
  validate_from (agent_pos agent) (agent_dir agent) actions blocked.

(** [_get_neighbors]: offsets [(0, 1), (1, 0), (0, -1), (-1, 0)], kept
    when inside the grid. *)
Definition _get_neighbors (pos : Pos) : list Pos :=
  filter (λ q : Pos, (0 ≤ q.1 < cols) ∧ (0 ≤ q.2 < rows))
    ((λ d : Pos, (pos.1 + d.1, pos.2 + d.2)) <$> [(0, 1); (1, 0); (0, -1); (-1, 0)]).

(** [_turn_to_face] *)
Definition _turn_to_face (current desired : Direction.t) : list Action.t :=
  match current, desired with
  | UP, DOWN => [Action.LEFT; Action.LEFT]
  | UP, LEFT => [Action.LEFT]
  | UP, RIGHT => [Action.RIGHT]
  | DOWN, UP => [Action.LEFT; Action.LEFT]
  | DOWN, LEFT => [Action.RIGHT]
  | DOWN, RIGHT => [Action.LEFT]
  | LEFT, UP => [Action.RIGHT]
  | LEFT, DOWN => [Action.LEFT]
  | LEFT, RIGHT => [Action.LEFT; Action.LEFT]
  | RIGHT, UP => [Action.LEFT]
  | RIGHT, DOWN => [Action.RIGHT]
  | RIGHT, LEFT => [Action.LEFT; Action.LEFT]
  | _, _ => []
  end.

(** The direction chosen for one step of a path, [None] for the
    [continue] branch. *)
Definition step_dir (current_pos next_pos : Pos) : option Direction.t :=
  let dx := next_pos.1 - current_pos.1 in
  let dy := next_pos.2 - current_pos.2 in
  if decide (dx = 1) then Some RIGHT
  else if decide (dx = -1) then Some LEFT
  else if decide (dy = 1) then Some DOWN
  else if decide (dy = -1) then Some UP
  else None.

(** The loop of [_convert_path_to_actions]. *)
Fixpoint convert_from (current_dir : Direction.t) (current_pos : Pos)
    (path : list Pos) : list Action.t :=
  match path with
  | [] => []
  | next_pos :: rest =>
      match step_dir current_pos next_pos with
      | None => convert_from current_dir current_pos rest
      | Some desired_dir =>
          (if decide (current_dir ≠ desired_dir)
           then _turn_to_face current_dir desired_dir else [])
            ++ Action.FORWARD :: convert_from desired_dir next_pos rest
      end
  end.

(** [_convert_path_to_actions] *)
Definition _convert_path_to_actions (agent : Agent) (path : list Pos)
    : list Action.t :=
  convert_from (agent_dir agent) (agent_pos agent) path.

(** Replaying a sequence of actions: FORWARD advances one cell in the
    current facing, the turns rotate the facing.  [replay_cells] lists
    the cells entered, [replay_end] is the final pose. *)
Fixpoint replay_cells (p : Pos) (d : Direction.t) (actions : list Action.t)
    : list Pos :=
  match actions with
  | [] => []
  | Action.FORWARD :: rest => ahead p d :: replay_cells (ahead p d) d rest
  | Action.LEFT :: rest => replay_cells p (turn_left d) rest
  | Action.RIGHT :: rest => replay_cells p (turn_right d) rest
  | _ :: rest => replay_cells p d rest
  end.

Fixpoint replay_end (p : Pos) (d : Direction.t) (actions : list Action.t)
    : Pos * Direction.t :=
  match actions with
  | [] => (p, d)
  | Action.FORWARD :: rest => replay_end (ahead p d) d rest
  | Action.LEFT :: rest => replay_end p (turn_left d) rest
  | Action.RIGHT :: rest => replay_end p (turn_right d) rest
  | _ :: rest => replay_end p d rest
  end.

End Grid.

End Movement.

(** The two kinds of cell that are blocked for every agent. *)
Definition is_obstacle (env : Env) (p : Pos) : Prop :=
  ∃ (i j : nat) (row : list bool),
    obstacles env !! j = Some row ∧ row !! i = Some true
    ∧ p = (Z.of_nat i, Z.of_nat j).

Definition other_agent_at (env : Env) (agent : Agent) (p : Pos) : Prop :=
  ∃ o, o ∈ agents env ∧ agent_id o ≠ agent_id agent ∧ agent_pos o = p.

(** The cell on which a shelf is now, by shelf id. *)
Definition shelf_cell_now (env : Env) (sid : Z) : option Pos :=
  shelf_pos <$> find (λ s, bool_decide (shelf_id s = sid)) (shelfs env).

(** Every cell of a [rows] by [cols] grid, in the order of
    [[(x, y) for x in range(cols) for y in range(rows)]]. *)
Definition all_positions (rows cols : Z) : list Pos :=
  list_prod (range cols) (range rows).

(** Fuel that is enough for the loops of either planner on a [rows] by
    [cols] grid: one step for every cell, the start and one to spare. *)
Definition planner_fuel (rows cols : Z) : nat :=
  S (S (Z.to_nat cols * Z.to_nat rows)).

(** The state of a [ShelfCarryingMovement] object that the planner reads:
    the grid size taken at construction and its [ShelfHelper]. *)
Record Mover : Type := mkMover {
  mover_rows : Z;
  mover_cols : Z;
  shelf_helper : ShelfHelper.t;
}.

(** [ShelfCarryingMovement.__init__] (the same in both files) *)
Definition Mover_init (env : Env) : Mover :=
  {| mover_rows := grid_rows env;
     mover_cols := grid_cols env;
     shelf_helper := ShelfHelper.init env |}.

(** [min(l, key=...)] on a non-empty list: the first element whose key is
    least.  A key is [None] for [float('inf')]. *)
Definition key_lt (a b : option Z) : bool :=
  match a, b with
  | Some x, Some y => x <? y
  | Some _, None => true
  | None, _ => false
  end.

Fixpoint min_by {A} (key : A → option Z) (best : A) (l : list A) : A :=
  match l with
  | [] => best
  | x :: l' => if key_lt (key x) (key best) then min_by key x l' else min_by key best l'
  end.

(** [l.remove(x)]: the first occurrence goes. *)
Fixpoint remove_first `{EqDecision A} (x : A) (l : list A) : list A :=
  match l with
  | [] => []
  | y :: l' => if decide (y = x) then l' else y :: remove_first x l'
  end.

(** ** astar_algorithm/shelf_movement.py *)

Module AStar.

Import Direction Movement.

Section Planner.
Variables rows cols : Z.

(** [_is_direct_path_clear] *)
Definition _is_direct_path_clear (start finish : Pos) (blocked : gset Pos) : bool :=
  let '(x1, y1) := start in
  let '(x2, y2) := finish in
  (if decide (x1 ≠ x2) then
     forallb (λ x, negb (bool_decide ((x, y1) ∈ blocked)))
             (range_step x1 x2 (if x1 <? x2 then 1 else -1))
   else true)
  &&
  (if decide (y1 ≠ y2) then
     forallb (λ y, negb (bool_decide ((x2, y) ∈ blocked)))
             (range_step y1 y2 (if y1 <? y2 then 1 else -1))
   else true).

(** One leg of [_direct_movement]: turn to the desired direction if it
    is not the current one, then [n] times FORWARD. *)
Definition leg (current_dir desired_dir : Direction.t) (n : Z) : list Action.t :=
  (if decide (current_dir ≠ desired_dir)
   then _turn_to_face current_dir desired_dir else [])
    ++ replicate (Z.to_nat n) Action.FORWARD.

(** [_direct_movement] *)
Definition _direct_movement (agent : Agent) (goal_pos : Pos) : list Action.t :=
  let dx := goal_pos.1 - agent_x agent in
  let dy := goal_pos.2 - agent_y agent in
  let current_dir := agent_dir agent in
  let x_dir := if 0 <? dx then RIGHT else LEFT in
  let y_dir := if 0 <? dy then DOWN else UP in
  if Z.abs dy <? Z.abs dx then
    (* primary axis 'x' *)
    let '(a1, d1) :=
      if decide (dx ≠ 0) then (leg current_dir x_dir (Z.abs dx), x_dir)
      else ([], current_dir) in
    let a2 := if decide (dy ≠ 0) then leg d1 y_dir (Z.abs dy) else [] in
    a1 ++ a2
  else
    let '(a1, d1) :=
      if decide (dy ≠ 0) then (leg current_dir y_dir (Z.abs dy), y_dir)
      else ([], current_dir) in
    let a2 := if decide (dx ≠ 0) then leg d1 x_dir (Z.abs dx) else [] in
    a1 ++ a2.

(** [_heuristic] *)
Definition _heuristic (pos goal : Pos) : Z :=
  Z.abs (pos.1 - goal.1) + Z.abs (pos.2 - goal.2).

(** The variables of the search loop of [_pathfind_movement]. *)
Record search : Type := mkSearch {
  open_set : list Pos;
  closed_set : gset Pos;
  came_from : gmap Pos Pos;
  g_score : gmap Pos Z;
  f_score : gmap Pos Z;
}.

(** [came_from[n] = current; g_score[n] = g; f_score[n] = g + h(n)] *)
Definition record_neighbor (goal_pos current n : Pos) (g : Z) (s : search)
    (opened : list Pos) : search :=
  {| open_set := opened;
     closed_set := closed_set s;
     came_from := <[n := current]> (came_from s);
     g_score := <[n := g]> (g_score s);
     f_score := <[n := g + _heuristic n goal_pos]> (f_score s) |}.

(** The [for neighbor in self._get_neighbors(current)] loop. *)
Fixpoint relax (goal_pos current : Pos) (blocked : gset Pos)
    (ns : list Pos) (s : search) : outcome search :=
  match ns with
  | [] => Ret s
  | n :: ns' =>
      if bool_decide (n ∈ closed_set s) || bool_decide (n ∈ blocked) then
        relax goal_pos current blocked ns' s
      else
        match g_score s !! current with
        | None => Raise KeyError
        | Some gc =>
            let tentative_g_score := gc + 1 in
            if bool_decide (n ∉ open_set s) then
              relax goal_pos current blocked ns'
                (record_neighbor goal_pos current n tentative_g_score s
                   (open_set s ++ [n]))
            else
              match g_score s !! n with
              | Some gn =>
                  if gn <=? tentative_g_score then
                    relax goal_pos current blocked ns' s
                  else
                    relax goal_pos current blocked ns'
                      (record_neighbor goal_pos current n tentative_g_score s
                         (open_set s))
              | None =>
                  relax goal_pos current blocked ns'
                    (record_neighbor goal_pos current n tentative_g_score s
                       (open_set s))
              end
        end
  end.

(** [while current in came_from: current = came_from[current];
    path.append(current)] *)
Fixpoint reconstruct (fuel : nat) (cf : gmap Pos Pos) (current : Pos)
    (path : list Pos) : outcome (list Pos) :=
  match cf !! current with
  | None => Ret path
  | Some prev =>
      match fuel with
      | O => OutOfFuel
      | S fuel' => reconstruct fuel' cf prev (path ++ [prev])
      end
  end.

(** The [while open_set] loop.  [rfuel] bounds the reconstruction loop. *)
Fixpoint search_loop (fuel rfuel : nat) (agent : Agent) (goal_pos : Pos)
    (blocked : gset Pos) (s : search) : outcome (list Action.t) :=
  match open_set s with
  | [] => Ret []
  | o :: os =>
      match fuel with
      | O => OutOfFuel
      | S fuel' =>
          let current := min_by (λ pos, f_score s !! pos) o os in
          if decide (current = goal_pos) then
            path ← reconstruct rfuel (came_from s) current [];
            let path := reverse path in
            match path with
            | [] => Ret []
            | _ => Ret (_convert_path_to_actions agent path)
            end
          else
            s' ← relax goal_pos current blocked (_get_neighbors rows cols current)
                 {| open_set := remove_first current (open_set s);
                    closed_set := closed_set s ∪ {[current]};
                    came_from := came_from s;
                    g_score := g_score s;
                    f_score := f_score s |};
            search_loop fuel' rfuel agent goal_pos blocked s'
      end
  end.

(** [_pathfind_movement] *)
Definition _pathfind_movement (fuel : nat) (agent : Agent) (goal_pos : Pos)
    (blocked : gset Pos) : outcome (list Action.t) :=
  let start_pos := agent_pos agent in
  search_loop fuel fuel agent goal_pos blocked
    {| open_set := [start_pos];
       closed_set := ∅;
       came_from := ∅;
       g_score := {[start_pos := 0]};
       f_score := {[start_pos := _heuristic start_pos goal_pos]} |}.

(** [calculate_movement], after the blocked set has been computed. *)
Definition plan (fuel : nat) (agent : Agent) (goal_pos : Pos)
    (blocked : gset Pos) : outcome (list Action.t) :=
  if negb (_is_position_valid rows cols goal_pos) then Ret []
  else if bool_decide (goal_pos ∈ blocked) then Ret []
  else
    let direct_clear := _is_direct_path_clear (agent_pos agent) goal_pos blocked in
    if direct_clear
       && _validate_action_sequence rows cols agent
            (_direct_movement agent goal_pos) blocked
    then Ret (_direct_movement agent goal_pos)
    else
      actions ← _pathfind_movement fuel agent goal_pos blocked;
      match actions with
      | [] => Ret []
      | _ =>
          if _validate_action_sequence rows cols agent actions blocked
          then Ret actions else Ret []
      end.

End Planner.

(** [calculate_movement] *)
Definition calculate_movement (fuel : nat) (m : Mover) (env : Env)
    (agent_states : option (gmap Z AgentState)) (agent : Agent) (goal_pos : Pos)
    : outcome (list Action.t) :=
  let blocked :=
    ShelfHelper.get_blocked_positions (shelf_helper m) env agent_states agent in
  plan (mover_rows m) (mover_cols m) fuel agent goal_pos blocked.

End AStar.

(** ** baseline_algorithm/shelf_movement.py *)

Module BFS.

Import Direction Movement.

Section Planner.
Variables rows cols : Z.

(** The [for neighbor in self._get_neighbors(current)] loop, with its
    [break]; the boolean is [found]. *)
Fixpoint expand (goal_pos current : Pos) (blocked : gset Pos) (ns : list Pos)
    (visited : gmap Pos (option Pos)) (queue : list Pos)
    : gmap Pos (option Pos) * list Pos * bool :=
  match ns with
  | [] => (visited, queue, false)
  | n :: ns' =>
      if decide (n = goal_pos) then (<[n := Some current]> visited, queue, true)
      else if bool_decide (n ∉ dom visited) && bool_decide (n ∉ blocked) then
        expand goal_pos current blocked ns'
          (<[n := Some current]> visited) (queue ++ [n])
      else expand goal_pos current blocked ns' visited queue
  end.

(** The [while queue and not found] loop; returns [visited] and [found]. *)
Fixpoint search_loop (fuel : nat) (goal_pos : Pos) (blocked : gset Pos)
    (visited : gmap Pos (option Pos)) (queue : list Pos) (found : bool)
    : outcome (gmap Pos (option Pos) * bool) :=
  match queue with
  | [] => Ret (visited, found)
  | current :: queue' =>
      if found then Ret (visited, found)
      else
        match fuel with
        | O => OutOfFuel
        | S fuel' =>
            let '(visited', queue'', found') :=
              expand goal_pos current blocked (_get_neighbors rows cols current)
                visited queue' in
            search_loop fuel' goal_pos blocked visited' queue'' found'
        end
  end.

(** [while current != start_pos: path.append(current);
    current = visited[current]] *)
Fixpoint reconstruct (fuel : nat) (visited : gmap Pos (option Pos))
    (start_pos current : Pos) (path : list Pos) : outcome (list Pos) :=
  if decide (current = start_pos) then Ret path
  else
    match fuel with
    | O => OutOfFuel
    | S fuel' =>
        match visited !! current with
        | Some (Some prev) =>
            reconstruct fuel' visited start_pos prev (path ++ [current])
        | _ => Raise KeyError
        end
    end.

(** [_pathfind_movement] *)
Definition _pathfind_movement (fuel : nat) (agent : Agent) (goal_pos : Pos)
    (blocked : gset Pos) : outcome (list Action.t) :=
  let start_pos := agent_pos agent in
  if decide (start_pos = goal_pos) then Ret []
  else
    '(visited, found) ←
      search_loop fuel goal_pos blocked {[start_pos := None]} [start_pos] false;
    if negb found then Ret []
    else
      path ← reconstruct fuel visited start_pos goal_pos [];
      Ret (_convert_path_to_actions agent (reverse path)).

(** [calculate_movement], after the blocked set has been computed. *)
Definition plan (fuel : nat) (agent : Agent) (goal_pos : Pos)
    (blocked : gset Pos) : outcome (list Action.t) :=
  if negb (_is_position_valid rows cols goal_pos) then Ret []
  else if bool_decide (goal_pos ∈ blocked) then Ret []
  else
    actions ← _pathfind_movement fuel agent goal_pos blocked;
    match actions with
    | [] => Ret []
    | _ =>
        if _validate_action_sequence rows cols agent actions blocked
        then Ret actions else Ret []
    end.

End Planner.

(** [calculate_movement] *)
Definition calculate_movement (fuel : nat) (m : Mover) (env : Env)
    (agent_states : option (gmap Z AgentState)) (agent : Agent) (goal_pos : Pos)
    : outcome (list Action.t) :=
  let blocked :=
    ShelfHelper.get_blocked_positions (shelf_helper m) env agent_states agent in
  plan (mover_rows m) (mover_cols m) fuel agent goal_pos blocked.

End BFS.

(** The cells the A* search can ever hold: the grid and the start. *)
Definition universe (rows cols : Z) (agent : Agent) : gset Pos :=
  {[agent_pos agent]} ∪ list_to_set (all_positions rows cols).

(** The invariant of the A* search loop: the open list has no duplicates
    and is disjoint from the closed set, both stay inside [universe], every
    open cell has a cost, costs are bounded by the number of closed cells,
    and every [came_from] link leads to a closed cell of smaller cost. *)
Record astar_inv (rows cols : Z) (agent : Agent) (s : AStar.search) : Prop := {
  inv_nodup : NoDup (AStar.open_set s);
  inv_disj : ∀ p, p ∈ AStar.open_set s → p ∉ AStar.closed_set s;
  inv_open : ∀ p, p ∈ AStar.open_set s → p ∈ universe rows cols agent;
  inv_closed : AStar.closed_set s ⊆ universe rows cols agent;
  inv_g : ∀ p, p ∈ AStar.open_set s → is_Some (AStar.g_score s !! p);
  inv_gb : ∀ p g, AStar.g_score s !! p = Some g →
                  0 ≤ g ≤ Z.of_nat (size (AStar.closed_set s));
  inv_link : ∀ c p, AStar.came_from s !! c = Some p →
               p ∈ AStar.closed_set s ∧
               ∃ gc gp, AStar.g_score s !! c = Some gc ∧
                        AStar.g_score s !! p = Some gp ∧ gp < gc;
}.


(** ** shared_functions/metrics_tracker.py

    The counters, sets and dictionaries of [MetricsTracker].  The fields
    that hold wall-clock readings ([time.time()]: start times, durations,
    idle times) are left out; [charging_time] and [task_start_times] are
    kept as their key sets, which is all the control flow reads. *)

Module Metrics.

Record t : Type := mk {
  total_deliveries : Z;
  successful_deliveries : Z;
  failed_deliveries : Z;
  completed_shelves : gset Z;
  task_start_times : gset (Z * Z);
  task_step_counts : list Z;
  current_task_steps : gmap Z Z;
  total_steps : Z;
  collision_count : Z;
  recovery_steps : gmap Z Z;
  recovery_steps_count : list Z;
  in_recovery : gmap Z bool;
  overcapacity_attempts : Z;
  overcapacity_agents : gset Z;
  low_battery_events : Z;
  critical_battery_events : Z;
  battery_failures : Z;
  charging_time : gset Z;
  charging_step_counts : list Z;
  charging_steps : gmap Z Z;
  discharged_agents : gset Z;
}.

(** [__init__] *)
Definition init : t :=
  mk 0 0 0 ∅ ∅ [] ∅ 0 0 ∅ [] ∅ 0 ∅ 0 0 0 ∅ [] ∅ ∅.

(** [d[k]] on a [defaultdict(int)] *)
Definition count (d : gmap Z Z) (k : Z) : Z := default 0 (d !! k).

(** [record_task_start] *)
Definition record_task_start (agent_id shelf_id : Z) (m : t) : t :=
  mk (total_deliveries m) (successful_deliveries m) (failed_deliveries m)
     (completed_shelves m) ({[ (agent_id, shelf_id) ]} ∪ task_start_times m)
     (task_step_counts m) (<[agent_id := 0]> (current_task_steps m))
     (total_steps m) (collision_count m) (recovery_steps m)
     (recovery_steps_count m) (in_recovery m) (overcapacity_attempts m)
     (overcapacity_agents m) (low_battery_events m) (critical_battery_events m)
     (battery_failures m) (charging_time m) (charging_step_counts m)
     (charging_steps m) (discharged_agents m).

(** [record_movement] *)
Definition record_movement (agent_id : Z) (m : t) : t :=
  mk (total_deliveries m) (successful_deliveries m) (failed_deliveries m)
     (completed_shelves m) (task_start_times m) (task_step_counts m)
     (<[agent_id := count (current_task_steps m) agent_id + 1]> (current_task_steps m))
     (total_steps m) (collision_count m) (recovery_steps m)
     (recovery_steps_count m) (in_recovery m) (overcapacity_attempts m)
     (overcapacity_agents m) (low_battery_events m) (critical_battery_events m)
     (battery_failures m) (charging_time m) (charging_step_counts m)
     (if bool_decide (agent_id ∈ charging_time m)
      then <[agent_id := count (charging_steps m) agent_id + 1]> (charging_steps m)
      else charging_steps m)
     (discharged_agents m).

(** [record_total_steps] *)
Definition record_total_steps (m : t) : t :=
  mk (total_deliveries m) (successful_deliveries m) (failed_deliveries m)
     (completed_shelves m) (task_start_times m) (task_step_counts m)
     (current_task_steps m) (total_steps m + 1) (collision_count m)
     (recovery_steps m) (recovery_steps_count m) (in_recovery m)
     (overcapacity_attempts m) (overcapacity_agents m) (low_battery_events m)
     (critical_battery_events m) (battery_failures m) (charging_time m)
     (charging_step_counts m) (charging_steps m) (discharged_agents m).

(** [record_task_completion]; [current_task_steps] is a [defaultdict], so
    reading it creates the entry that the final [del] removes. *)
Definition record_task_completion (agent_id shelf_id : Z) (m : t) : t :=
  if bool_decide ((agent_id, shelf_id) ∉ task_start_times m) then m
  else
    mk (total_deliveries m + 1) (successful_deliveries m + 1) (failed_deliveries m)
       ({[ shelf_id ]} ∪ completed_shelves m)
       (task_start_times m ∖ {[ (agent_id, shelf_id) ]})
       (task_step_counts m ++ [count (current_task_steps m) agent_id])
       (delete agent_id (current_task_steps m))
       (total_steps m) (collision_count m) (recovery_steps m)
       (recovery_steps_count m) (in_recovery m) (overcapacity_attempts m)
       (overcapacity_agents m) (low_battery_events m) (critical_battery_events m)
       (battery_failures m) (charging_time m) (charging_step_counts m)
       (charging_steps m) (discharged_agents m).

(** [record_collision] *)
Definition record_collision (agent_id : Z) (m : t) : t :=
  mk (total_deliveries m) (successful_deliveries m) (failed_deliveries m)
     (completed_shelves m) (task_start_times m) (task_step_counts m)
     (current_task_steps m) (total_steps m) (collision_count m + 1)
     (recovery_steps m) (recovery_steps_count m)
     (<[agent_id := true]> (in_recovery m))
     (overcapacity_attempts m) (overcapacity_agents m) (low_battery_events m)
     (critical_battery_events m) (battery_failures m) (charging_time m)
     (charging_step_counts m) (charging_steps m) (discharged_agents m).

(** [record_recovery_step] *)
Definition record_recovery_step (agent_id : Z) (m : t) : t :=
  if default false (in_recovery m !! agent_id) then
    mk (total_deliveries m) (successful_deliveries m) (failed_deliveries m)
       (completed_shelves m) (task_start_times m) (task_step_counts m)
       (current_task_steps m) (total_steps m) (collision_count m)
       (<[agent_id := count (recovery_steps m) agent_id + 1]> (recovery_steps m))
       (recovery_steps_count m) (in_recovery m)
       (overcapacity_attempts m) (overcapacity_agents m) (low_battery_events m)
       (critical_battery_events m) (battery_failures m) (charging_time m)
       (charging_step_counts m) (charging_steps m) (discharged_agents m)
  else m.

(** [record_recovery_complete] *)
Definition record_recovery_complete (agent_id : Z) (m : t) : t :=
  if bool_decide (agent_id ∈ dom (in_recovery m)) then
    mk (total_deliveries m) (successful_deliveries m) (failed_deliveries m)
       (completed_shelves m) (task_start_times m) (task_step_counts m)
       (current_task_steps m) (total_steps m) (collision_count m)
       (delete agent_id (recovery_steps m))
       (recovery_steps_count m ++ [count (recovery_steps m) agent_id])
       (delete agent_id (in_recovery m))
       (overcapacity_attempts m) (overcapacity_agents m) (low_battery_events m)
       (critical_battery_events m) (battery_failures m) (charging_time m)
       (charging_step_counts m) (charging_steps m) (discharged_agents m)
  else m.

(** [record_overcapacity_attempt] *)
Definition record_overcapacity_attempt (agent_id : Z) (m : t) : t :=
  mk (total_deliveries m + 1) (successful_deliveries m) (failed_deliveries m + 1)
     (completed_shelves m) (task_start_times m) (task_step_counts m)
     (current_task_steps m) (total_steps m) (collision_count m)
     (recovery_steps m) (recovery_steps_count m) (in_recovery m)
     (overcapacity_attempts m + 1) ({[ agent_id ]} ∪ overcapacity_agents m)
     (low_battery_events m) (critical_battery_events m) (battery_failures m)
     (charging_time m) (charging_step_counts m) (charging_steps m)
     (discharged_agents m).

(** [record_low_battery] *)
Definition record_low_battery (m : t) : t :=
  mk (total_deliveries m) (successful_deliveries m) (failed_deliveries m)
     (completed_shelves m) (task_start_times m) (task_step_counts m)
     (current_task_steps m) (total_steps m) (collision_count m)
     (recovery_steps m) (recovery_steps_count m) (in_recovery m)
     (overcapacity_attempts m) (overcapacity_agents m) (low_battery_events m + 1)
     (critical_battery_events m) (battery_failures m) (charging_time m)
     (charging_step_counts m) (charging_steps m) (discharged_agents m).

(** [record_critical_battery] *)
Definition record_critical_battery (m : t) : t :=
  mk (total_deliveries m) (successful_deliveries m) (failed_deliveries m)
     (completed_shelves m) (task_start_times m) (task_step_counts m)
     (current_task_steps m) (total_steps m) (collision_count m)
     (recovery_steps m) (recovery_steps_count m) (in_recovery m)
     (overcapacity_attempts m) (overcapacity_agents m) (low_battery_events m)
     (critical_battery_events m + 1) (battery_failures m) (charging_time m)
     (charging_step_counts m) (charging_steps m) (discharged_agents m).

(** [record_battery_failure] *)
Definition record_battery_failure (agent_id : Z) (m : t) : t :=
  mk (total_deliveries m + 1) (successful_deliveries m) (failed_deliveries m + 1)
     (completed_shelves m) (task_start_times m) (task_step_counts m)
     (current_task_steps m) (total_steps m) (collision_count m)
     (recovery_steps m) (recovery_steps_count m) (in_recovery m)
     (overcapacity_attempts m) (overcapacity_agents m) (low_battery_events m)
     (critical_battery_events m) (battery_failures m + 1) (charging_time m)
     (charging_step_counts m) (charging_steps m)
     ({[ agent_id ]} ∪ discharged_agents m).

(** [record_charging_start] *)
Definition record_charging_start (agent_id : Z) (m : t) : t :=
  mk (total_deliveries m) (successful_deliveries m) (failed_deliveries m)
     (completed_shelves m) (task_start_times m) (task_step_counts m)
     (current_task_steps m) (total_steps m) (collision_count m)
     (recovery_steps m) (recovery_steps_count m) (in_recovery m)
     (overcapacity_attempts m) (overcapacity_agents m) (low_battery_events m)
     (critical_battery_events m) (battery_failures m)
     ({[ agent_id ]} ∪ charging_time m) (charging_step_counts m)
     (<[agent_id := 0]> (charging_steps m)) (discharged_agents m).

(** [record_charging_end] *)
Definition record_charging_end (agent_id : Z) (m : t) : t :=
  if bool_decide (agent_id ∈ charging_time m) then
    mk (total_deliveries m) (successful_deliveries m) (failed_deliveries m)
       (completed_shelves m) (task_start_times m) (task_step_counts m)
       (current_task_steps m) (total_steps m) (collision_count m)
       (recovery_steps m) (recovery_steps_count m) (in_recovery m)
       (overcapacity_attempts m) (overcapacity_agents m) (low_battery_events m)
       (critical_battery_events m) (battery_failures m)
       (charging_time m ∖ {[ agent_id ]})
       (charging_step_counts m ++ [count (charging_steps m) agent_id])
       (<[agent_id := count (charging_steps m) agent_id]> (charging_steps m))
       (discharged_agents m)
  else m.

(** [record_battery_levels] *)
Definition record_battery_levels (agents : list Agent) (m : t) : t :=
  foldl (λ m agent,
           if Num.le (battery_level agent) (Num.PyInt 0) then
             mk (total_deliveries m) (successful_deliveries m) (failed_deliveries m)
                (completed_shelves m) (task_start_times m) (task_step_counts m)
                (current_task_steps m) (total_steps m) (collision_count m)
                (recovery_steps m) (recovery_steps_count m) (in_recovery m)
                (overcapacity_attempts m) (overcapacity_agents m)
                (low_battery_events m) (critical_battery_events m)
                (battery_failures m + 1) (charging_time m) (charging_step_counts m)
                (charging_steps m) (discharged_agents m)
           else m)
        m agents.

End Metrics.

(** ** astar_algorithm/main.py *)

(** [sorted(l, key=...)]: a stable sort. *)
Fixpoint insert_by {A} (key : A → Z) (x : A) (l : list A) : list A :=
  match l with
  | [] => [x]
  | y :: l' => if key x <=? key y then x :: l else y :: insert_by key x l'
  end.

Definition sort_by_key {A} (key : A → Z) (l : list A) : list A :=
  foldr (insert_by key) [] l.

(** [(agent.battery_level / self.env.battery_capacity) * 100] *)
Definition battery_pct (env : Env) (agent : Agent) : outcome Num.t :=
  ratio ← Num.truediv (battery_level agent) (battery_capacity env);
  Num.mul (Num.PyFloat ratio) (Num.PyInt 100).

(** [any(a.carrying_shelf == shelf for a in self.env.agents)] *)
Definition is_carried (env : Env) (shelf : Shelf) : bool :=
  existsb (λ a, bool_decide (carrying_shelf a = Some (shelf_id shelf))) (agents env).

Module Controller.

(** A value of [agent_targets]: [{'id': ..., 'position': ...}] or
    [{'position': ...}]. *)
Record Target : Type := mkTarget {
  target_id : option Z;
  target_position : Pos;
}.

(** The ['targets'] entry of a pre-charging record, one shape per state. *)
Inductive SavedTargets : Type :=
| SeekTargets (shelf_location : Pos) (shelf_id : option Z)
| DeliverTargets (goal_location : Pos) (shelf_id : Z)
| ReturnTargets (shelf_origin : Pos) (shelf_id : Z).

(** A value of [pre_charging_data]. *)
Record PreCharging : Type := mkPreCharging {
  pre_state : AgentState;
  pre_targets : option SavedTargets;
  pre_shelf_id : option Z;
  pre_shelf_origin : option Pos;
}.

(** What [__init__] and [initialize_and_verify] fix for the run.
    [goal_locations] is a Python set; it is held as the list of its
    elements in iteration order, which is the order [min] scans. *)
Record Config : Type := mkConfig {
  rows : Z;
  cols : Z;
  goal_locations : list Pos;
  shelf_memory : gmap Z Pos;
  charging_stations : list Pos;
  waiting_areas : list Pos;
  shelf_mover : Mover;
}.

Definition low_battery_threshold : Num.t := Num.PyInt 20.
Definition critical_battery_threshold : Num.t := Num.PyInt 10.

Record St : Type := mkSt {
  agent_states : gmap Z AgentState;
  agent_targets : gmap Z (option Target);
  last_positions : gmap Z Pos;
  stuck_count : gmap Z Z;
  last_actions : gmap Z (list Action.t);
  (** shelf id to reserving agent id *)
  reserved_shelves : gmap Z Z;
  (** shelf id to the step at which it was reserved *)
  shelf_reservation_time : gmap Z Z;
  current_step : Z;
  pre_charging_data : gmap Z PreCharging;
  assigned_waiting_areas : gmap Z Pos;
  in_recovery : gmap Z bool;
  metrics : Metrics.t;
  (** the local variable [closest_shelf] of [get_actions], which lives
      across the iterations of the agent loop; [None] while unbound *)
  closest_shelf : option (option Shelf);
}.

Definition set_agent_states (v : gmap Z AgentState) (st : St) : St :=
  mkSt v (agent_targets st) (last_positions st) (stuck_count st)
    (last_actions st) (reserved_shelves st) (shelf_reservation_time st)
    (current_step st) (pre_charging_data st) (assigned_waiting_areas st)
    (in_recovery st) (metrics st) (closest_shelf st).
Definition set_agent_targets (v : gmap Z (option Target)) (st : St) : St :=
  mkSt (agent_states st) v (last_positions st) (stuck_count st)
    (last_actions st) (reserved_shelves st) (shelf_reservation_time st)
    (current_step st) (pre_charging_data st) (assigned_waiting_areas st)
    (in_recovery st) (metrics st) (closest_shelf st).
Definition set_last_positions (v : gmap Z Pos) (st : St) : St :=
  mkSt (agent_states st) (agent_targets st) v (stuck_count st)
    (last_actions st) (reserved_shelves st) (shelf_reservation_time st)
    (current_step st) (pre_charging_data st) (assigned_waiting_areas st)
    (in_recovery st) (metrics st) (closest_shelf st).
Definition set_stuck_count (v : gmap Z Z) (st : St) : St :=
  mkSt (agent_states st) (agent_targets st) (last_positions st) v
    (last_actions st) (reserved_shelves st) (shelf_reservation_time st)
    (current_step st) (pre_charging_data st) (assigned_waiting_areas st)
    (in_recovery st) (metrics st) (closest_shelf st).
Definition set_last_actions (v : gmap Z (list Action.t)) (st : St) : St :=
  mkSt (agent_states st) (agent_targets st) (last_positions st)
    (stuck_count st) v (reserved_shelves st) (shelf_reservation_time st)
    (current_step st) (pre_charging_data st) (assigned_waiting_areas st)
    (in_recovery st) (metrics st) (closest_shelf st).
Definition set_reserved_shelves (v : gmap Z Z) (st : St) : St :=
  mkSt (agent_states st) (agent_targets st) (last_positions st)
    (stuck_count st) (last_actions st) v (shelf_reservation_time st)
    (current_step st) (pre_charging_data st) (assigned_waiting_areas st)
    (in_recovery st) (metrics st) (closest_shelf st).
Definition set_shelf_reservation_time (v : gmap Z Z) (st : St) : St :=
  mkSt (agent_states st) (agent_targets st) (last_positions st)
    (stuck_count st) (last_actions st) (reserved_shelves st) v
    (current_step st) (pre_charging_data st) (assigned_waiting_areas st)
    (in_recovery st) (metrics st) (closest_shelf st).
Definition set_current_step (v : Z) (st : St) : St :=
  mkSt (agent_states st) (agent_targets st) (last_positions st)
    (stuck_count st) (last_actions st) (reserved_shelves st)
    (shelf_reservation_time st) v (pre_charging_data st)
    (assigned_waiting_areas st) (in_recovery st) (metrics st)
    (closest_shelf st).
Definition set_pre_charging_data (v : gmap Z PreCharging) (st : St) : St :=
  mkSt (agent_states st) (agent_targets st) (last_positions st)
    (stuck_count st) (last_actions st) (reserved_shelves st)
    (shelf_reservation_time st) (current_step st) v
    (assigned_waiting_areas st) (in_recovery st) (metrics st)
    (closest_shelf st).
Definition set_assigned_waiting_areas (v : gmap Z Pos) (st : St) : St :=
  mkSt (agent_states st) (agent_targets st) (last_positions st)
    (stuck_count st) (last_actions st) (reserved_shelves st)
    (shelf_reservation_time st) (current_step st) (pre_charging_data st) v
    (in_recovery st) (metrics st) (closest_shelf st).
Definition set_in_recovery (v : gmap Z bool) (st : St) : St :=
  mkSt (agent_states st) (agent_targets st) (last_positions st)
    (stuck_count st) (last_actions st) (reserved_shelves st)
    (shelf_reservation_time st) (current_step st) (pre_charging_data st)
    (assigned_waiting_areas st) v (metrics st) (closest_shelf st).
Definition set_metrics (v : Metrics.t) (st : St) : St :=
  mkSt (agent_states st) (agent_targets st) (last_positions st)
    (stuck_count st) (last_actions st) (reserved_shelves st)
    (shelf_reservation_time st) (current_step st) (pre_charging_data st)
    (assigned_waiting_areas st) (in_recovery st) v (closest_shelf st).
Definition set_closest_shelf (v : option (option Shelf)) (st : St) : St :=
  mkSt (agent_states st) (agent_targets st) (last_positions st)
    (stuck_count st) (last_actions st) (reserved_shelves st)
    (shelf_reservation_time st) (current_step st) (pre_charging_data st)
    (assigned_waiting_areas st) (in_recovery st) (metrics st) v.


(** [_identify_charging_stations]: the four corners. *)
Definition _identify_charging_stations (env : Env) : list Pos :=
  [ (0, 0);
    (grid_cols env - 1, 0);
    (0, grid_rows env - 1);
    (grid_cols env - 1, grid_rows env - 1) ].

(** [is_adjacent_to_shelf] of [_identify_waiting_areas] *)
Definition is_adjacent_to_shelf (shelf_positions : gset Pos) (pos : Pos) : bool :=
  existsb (λ d : Pos, bool_decide ((pos.1 + d.1, pos.2 + d.2) ∈ shelf_positions))
    [(-1, 0); (1, 0); (0, -1); (0, 1); (-1, -1); (1, -1); (-1, 1); (1, 1)].

(** [_identify_waiting_areas] *)
Definition _identify_waiting_areas (env : Env) (goal_locations : list Pos)
    (charging_stations : list Pos) : list Pos :=
  let rows := grid_rows env in
  let cols := grid_cols env in
  let all_positions := all_positions rows cols in
  let shelf_positions : gset Pos := list_to_set (shelf_pos <$> shelfs env) in
  let occupied : gset Pos :=
    shelf_positions ∪ list_to_set goal_locations ∪ list_to_set charging_stations in
  let available :=
    filter (λ pos, (pos ∉ occupied) ∧ (is_adjacent_to_shelf shelf_positions pos = false))
      all_positions in
  match available with
  | _ :: _ => available
  | [] =>
      let corners :=
        [(0, 0); (cols - 1, 0); (0, rows - 1); (cols - 1, rows - 1)] in
      match filter (λ pos, is_adjacent_to_shelf shelf_positions pos = false) corners with
      | [] => corners
      | available => available
      end
  end.

(** The part of [WarehouseInitializer] that [initialize_and_verify] copies:
    goals and shelf homes, clamped into the grid.  The goals are a Python
    set of pairs; the order in which [min] scans it is the order of the
    hash table, which this list does not reproduce: it gives the elements
    of the set in the order of [elements].  The order decides only which
    of several goals at the same distance [min] returns; the properties
    of [nearest_goal] are stated for every [Config], hence for every
    order, and the worlds of the examples have one goal. *)
Definition initial_goal_locations (env : Env) : list Pos :=
  elements (list_to_set
    ((λ g : Pos, (clamp g.1 (grid_cols env), clamp g.2 (grid_rows env))) <$> goals env)
    : gset Pos).

Definition initial_shelf_memory (env : Env) : gmap Z Pos :=
  foldl (λ m s, <[shelf_id s := (clamp (shelf_x s) (grid_cols env),
                                 clamp (shelf_y s) (grid_rows env))]> m)
    ∅ (shelfs env).

(** [__init__] followed by [initialize_and_verify]: the fixed part. *)
Definition initialize_and_verify (env : Env) : Config :=
  let stations := _identify_charging_stations env in
  let goal_locs := initial_goal_locations env in
  {| rows := grid_rows env;
     cols := grid_cols env;
     goal_locations := goal_locs;
     shelf_memory := initial_shelf_memory env;
     charging_stations := stations;
     waiting_areas := _identify_waiting_areas env goal_locs stations;
     shelf_mover := Mover_init env |}.

(** [__init__] followed by [initialize_and_verify]: the per-agent
    dictionaries. *)
Definition initial_state (env : Env) : St :=
  {| agent_states := list_to_map ((λ a, (agent_id a, seek_shelf)) <$> agents env);
     agent_targets := list_to_map ((λ a, (agent_id a, None)) <$> agents env);
     last_positions :=
       list_to_map ((λ a, (agent_id a,
                            (clamp (agent_x a) (grid_cols env),
                             clamp (agent_y a) (grid_rows env)))) <$> agents env);
     stuck_count := list_to_map ((λ a, (agent_id a, 0)) <$> agents env);
     last_actions := list_to_map ((λ a, (agent_id a, [])) <$> agents env);
     reserved_shelves := ∅;
     shelf_reservation_time := ∅;
     current_step := 0;
     pre_charging_data := ∅;
     assigned_waiting_areas := ∅;
     in_recovery := ∅;
     metrics := Metrics.init;
     closest_shelf := None |}.

Section Step.
(** [fuel] bounds the loops of the planner. *)
Variable fuel : nat.
Variable cfg : Config.
Variable env : Env.

(** [_get_aligned_position] *)
Definition _get_aligned_position (pos : Pos) : Pos :=
  (clamp pos.1 (cols cfg), clamp pos.2 (rows cfg)).

(** [_needs_charging] *)
Definition _needs_charging (agent : Agent) : outcome bool :=
  battery_pct ← battery_pct env agent;
  Ret (Num.lt battery_pct low_battery_threshold).

(** The loop over the agents found on a station: whether one of them is
    above 90%. *)
Fixpoint any_vacating (charging_agents : list Agent) : outcome bool :=
  match charging_agents with
  | [] => Ret false
  | charging_agent :: rest =>
      battery_pct ← battery_pct env charging_agent;
      if Num.gt battery_pct (Num.PyInt 90) then Ret true else any_vacating rest
  end.

(** Whether the station loop of [_get_closest_charging_station] returns
    at [station]: nobody stands on it, or somebody who does is above
    90%. *)
Definition station_free_or_vacating (station : Pos) : outcome bool :=
  match filter (λ o, agent_pos o = station) (agents env) with
  | [] => Ret true
  | charging_agents => any_vacating charging_agents
  end.

(** The station loop of [_get_closest_charging_station]: the first
    station, other than the agent's cell, at which it returns. *)
Fixpoint first_station (current_pos : Pos) (stations : list Pos)
    : outcome (option Pos) :=
  match stations with
  | [] => Ret None
  | station :: rest =>
      if bool_decide (current_pos = station) then first_station current_pos rest
      else
        found ← station_free_or_vacating station;
        if found : bool then Ret (Some station) else first_station current_pos rest
  end.

(** [_get_closest_charging_station] *)
Definition _get_closest_charging_station (agent : Agent) : outcome (option Pos) :=
  let current_pos := agent_pos agent in
  if bool_decide (current_pos ∈ charging_stations cfg) then Ret None
  else
    let stations_sorted :=
      sort_by_key (λ station, manhattan station current_pos)
        (charging_stations cfg) in
    found ← first_station current_pos stations_sorted;
    match found with
    | Some station => Ret (Some station)
    | None => Ret (head stations_sorted)
    end.

(** The reservation test shared by [_can_carry_any_shelf] and the shelf
    selection: reserved by another agent less than 20 steps ago. *)
Definition reserved_by_other (st : St) (agent : Agent) (shelf : Shelf) : bool :=
  match reserved_shelves st !! shelf_id shelf with
  | Some reserving_agent =>
      let reservation_time :=
        default 0 (shelf_reservation_time st !! shelf_id shelf) in
      bool_decide (reserving_agent ≠ agent_id agent)
      && (current_step st - reservation_time <? 20)
  | None => false
  end.

(** [_can_carry_any_shelf] *)
Definition _can_carry_any_shelf (st : St) (agent : Agent) : bool :=
  existsb (λ shelf,
             negb (is_carried env shelf)
             && negb (reserved_by_other st agent shelf)
             && (shelf_weight shelf <=? max_carry_weight agent))
          (request_queue env).

(** [_get_waiting_area] *)
Definition _get_waiting_area (agent : Agent) (st : St) : outcome (Pos * St) :=
  match assigned_waiting_areas st !! agent_id agent with
  | Some area => Ret (area, st)
  | None =>
      let occupied_areas : gset Pos := map_img (assigned_waiting_areas st) in
      let assign area :=
        set_assigned_waiting_areas
          (<[agent_id agent := area]> (assigned_waiting_areas st)) st in
      match filter (λ area, area ∉ occupied_areas) (waiting_areas cfg) with
      | area :: rest =>
          let current_pos := agent_pos agent in
          let closest_area :=
            min_by (λ pos, Some (manhattan pos current_pos)) area rest in
          Ret (closest_area, assign closest_area)
      | [] =>
          let n := Z.of_nat (length (waiting_areas cfg)) in
          if decide (n = 0) then Raise ZeroDivisionError
          else
            match waiting_areas cfg !! Z.to_nat (agent_id agent `mod` n) with
            | Some area => Ret (area, assign area)
            | None => Raise IndexError
            end
      end
  end.

(** [self.shelf_mover.calculate_movement(agent, goal)]; the mover holds
    a reference to the controller's [agent_states]. *)
Definition plan_to (st : St) (agent : Agent) (goal : Pos)
    : outcome (list Action.t) :=
  AStar.calculate_movement fuel (shelf_mover cfg) env
    (Some (agent_states st)) agent goal.

(** [min(self.goal_locations, key=distance to the agent)] *)
Definition nearest_goal (agent : Agent) : outcome Pos :=
  match goal_locations cfg with
  | [] => Raise ValueError
  | g :: gs => Ret (min_by (λ g, Some (manhattan g (agent_pos agent))) g gs)
  end.

(** [_store_pre_charging_state] *)
Definition _store_pre_charging_state (agent : Agent) (st : St) : outcome St :=
  let id := agent_id agent in
  let save data := set_pre_charging_data (<[id := data]> (pre_charging_data st)) st in
  match agent_targets st !! id with
  | Some (Some target) =>
      state ← getitem (agent_states st) id;
      match state with
      | seek_shelf =>
          Ret (save (mkPreCharging state
                       (Some (SeekTargets (target_position target) (target_id target)))
                       (carrying_shelf agent) None))
      | deliver =>
          match carrying_shelf agent with
          | Some sid =>
              goal ← nearest_goal agent;
              Ret (save (mkPreCharging state (Some (DeliverTargets goal sid))
                           (carrying_shelf agent) None))
          | None => Ret (save (mkPreCharging state None (carrying_shelf agent) None))
          end
      | return_shelf =>
          match carrying_shelf agent with
          | Some sid =>
              match shelf_memory cfg !! sid with
              | Some origin =>
                  Ret (save (mkPreCharging state (Some (ReturnTargets origin sid))
                               (carrying_shelf agent) (Some origin)))
              | None =>
                  Ret (save (mkPreCharging state None (carrying_shelf agent) None))
              end
          | None => Ret (save (mkPreCharging state None (carrying_shelf agent) None))
          end
      | _ => Ret (save (mkPreCharging state None (carrying_shelf agent) None))
      end
  | _ =>
      state ← getitem (agent_states st) id;
      Ret (save (mkPreCharging state None (carrying_shelf agent) None))
  end.

(** [if movement_sequence: self.last_actions[agent.id] = movement_sequence[1:]] *)
Definition keep_tail (id : Z) (movement_sequence : list Action.t) (st : St) : St :=
  match movement_sequence with
  | [] => st
  | _ :: rest => set_last_actions (<[id := rest]> (last_actions st)) st
  end.

(** [movement_sequence[0]] if there is one, else the given action *)
Definition first_or (a : Action.t) (movement_sequence : list Action.t) : Action.t :=
  match movement_sequence with
  | [] => a
  | b :: _ => b
  end.

(** [next((s for s in shelves if s.id == shelf_id), None)] *)
Definition find_shelf (shelves : list Shelf) (sid : option Z) : option Shelf :=
  find (λ s, bool_decide (Some (shelf_id s) = sid)) shelves.

(** [any(a.carrying_shelf == shelf for a in self.env.agents if a.id == agent.id)] *)
Definition carried_by (agent : Agent) (shelf : Shelf) : bool :=
  existsb (λ a, bool_decide (agent_id a = agent_id agent)
                && bool_decide (carrying_shelf a = Some (shelf_id shelf)))
          (agents env).

(** The common tail of the three branches of
    [_restore_pre_charging_state]: set the target, plan, keep the tail. *)
Definition resume (agent : Agent) (target : Target) (st : St) : outcome St :=
  let st := set_agent_targets (<[agent_id agent := Some target]> (agent_targets st)) st in
  movement_sequence ← plan_to st agent (target_position target);
  Ret (keep_tail (agent_id agent) movement_sequence st).

(** Reading a pre-charging ['targets'] dictionary: ['shelf_id'] is in
    every shape, the location keys in one each. *)
Definition saved_shelf_id (targets : SavedTargets) : option Z :=
  match targets with
  | SeekTargets _ sid => sid
  | DeliverTargets _ sid => Some sid
  | ReturnTargets _ sid => Some sid
  end.
Definition saved_shelf_location (targets : SavedTargets) : outcome Pos :=
  match targets with SeekTargets p _ => Ret p | _ => Raise KeyError end.
Definition saved_goal_location (targets : SavedTargets) : outcome Pos :=
  match targets with DeliverTargets p _ => Ret p | _ => Raise KeyError end.
Definition saved_shelf_origin (targets : SavedTargets) : outcome Pos :=
  match targets with ReturnTargets p _ => Ret p | _ => Raise KeyError end.

(** [_restore_pre_charging_state] *)
Definition _restore_pre_charging_state (agent : Agent) (st : St) : outcome St :=
  let id := agent_id agent in
  match pre_charging_data st !! id with
  | None => Ret (set_agent_states (<[id := seek_shelf]> (agent_states st)) st)
  | Some data =>
      let st := set_agent_states (<[id := pre_state data]> (agent_states st)) st in
      let st := set_last_actions (<[id := []]> (last_actions st)) st in
      st ←
        match pre_state data, pre_targets data with
        | seek_shelf, Some targets =>
            let sid := saved_shelf_id targets in
            match find_shelf (request_queue env) sid with
            | Some shelf =>
                if negb (is_carried env shelf) then
                  target_pos ← saved_shelf_location targets;
                  resume agent (mkTarget sid target_pos) st
                else Ret st
            | None => Ret st
            end
        | deliver, Some targets =>
            match find_shelf (shelfs env) (saved_shelf_id targets) with
            | Some shelf =>
                if carried_by agent shelf then
                  target_pos ← saved_goal_location targets;
                  resume agent (mkTarget None target_pos) st
                else Ret st
            | None => Ret st
            end
        | return_shelf, Some targets =>
            match find_shelf (shelfs env) (saved_shelf_id targets) with
            | Some shelf =>
                if carried_by agent shelf then
                  target_pos ← saved_shelf_origin targets;
                  resume agent (mkTarget None target_pos) st
                else Ret st
            | None => Ret st
            end
        | _, _ => Ret st
        end;
      Ret (set_pre_charging_data (delete id (pre_charging_data st)) st)
  end.

(** [if sid in self.reserved_shelves: del self.reserved_shelves[sid];
    del self.shelf_reservation_time[sid]] *)
Definition release (sid : Z) (st : St) : outcome St :=
  match reserved_shelves st !! sid with
  | Some _ =>
      match shelf_reservation_time st !! sid with
      | Some _ =>
          Ret (set_shelf_reservation_time (delete sid (shelf_reservation_time st))
                 (set_reserved_shelves (delete sid (reserved_shelves st)) st))
      | None => Raise KeyError
      end
  | None => Ret st
  end.

(** *** The body of the agent loop of [get_actions], block by block.
    A block that ends the iteration ([continue]) returns the action it
    appended; [None] passes on to the next block. *)

(** Lines 320-351: the agent with no shelf to carry. *)
Definition no_task_block (agent : Agent) (st : St)
    : outcome (option Action.t * St) :=
  let id := agent_id agent in
  state ← getitem (agent_states st) id;
  let st :=
    if negb (bool_decide (state ∈ [deliver; return_shelf; charging]))
       && negb (_can_carry_any_shelf st agent)
    then
      set_last_actions (<[id := []]> (last_actions st))
        (set_agent_targets (<[id := None]> (agent_targets st))
           (set_agent_states (<[id := no_shelf_to_carry]> (agent_states st)) st))
    else st in
  state ← getitem (agent_states st) id;
  if decide (state = no_shelf_to_carry) then
    if _can_carry_any_shelf st agent then
      Ret (None, set_agent_states (<[id := seek_shelf]> (agent_states st)) st)
    else
      '(waiting_area, st) ← _get_waiting_area agent st;
      if decide (agent_pos agent = waiting_area) then Ret (Some Action.NOOP, st)
      else
        let st :=
          match agent_targets st !! id with
          | Some (Some _) => st
          | _ =>
              set_agent_targets
                (<[id := Some (mkTarget None waiting_area)]> (agent_targets st)) st
          end in
        movement_sequence ← plan_to st agent waiting_area;
        Ret (Some (first_or Action.NOOP movement_sequence),
             keep_tail id movement_sequence st)
  else Ret (None, st).

(** The assignments made when a station was found (lines 371-374 and
    384-387). *)
Definition go_charge (id : Z) (station : Pos) (st : St) : St :=
  set_last_actions (<[id := []]> (last_actions st))
    (set_agent_targets (<[id := Some (mkTarget None station)]> (agent_targets st))
       (set_agent_states (<[id := charging]> (agent_states st))
          (set_metrics (Metrics.record_charging_start id (metrics st)) st))).

(** Lines 361-374: emergency charging; [battery_pct] is the percentage
    computed at line 352. *)
Definition critical_block (agent : Agent) (battery_pct : Num.t) (st : St)
    : outcome St :=
  let id := agent_id agent in
  if Num.lt battery_pct critical_battery_threshold
     && negb (is_charging agent)
  then
    let st := set_metrics (Metrics.record_critical_battery (metrics st)) st in
    state ← getitem (agent_states st) id;
    st ←
      (if decide (state ≠ charging) then
         match agent_targets st !! id with
         | Some (Some _) => _store_pre_charging_state agent st
         | _ => Ret st
         end
       else Ret st);
    closest_station ← _get_closest_charging_station agent;
    match closest_station with
    | Some closest_station => Ret (go_charge id closest_station st)
    | None => Ret st
    end
  else Ret st.

(** Lines 376-387: charging when low. *)
Definition low_block (agent : Agent) (st : St) : outcome St :=
  let id := agent_id agent in
  needs_charging ← _needs_charging agent;
  if needs_charging && negb (is_charging agent) then
    state ← getitem (agent_states st) id;
    if decide (state ≠ charging) then
      let st := set_metrics (Metrics.record_low_battery (metrics st)) st in
      st ← _store_pre_charging_state agent st;
      closest_station ← _get_closest_charging_station agent;
      match closest_station with
      | Some closest_station => Ret (go_charge id closest_station st)
      | None => Ret st
      end
    else Ret st
  else Ret st.

(** Lines 352-387: the battery checks. *)
Definition battery_block (agent : Agent) (st : St)
    : outcome (option Action.t * St) :=
  battery_pct ← battery_pct env agent;
  if Num.le (battery_level agent) (Num.PyInt 0) then
    Ret (Some Action.NOOP,
         set_metrics (Metrics.record_battery_failure (agent_id agent) (metrics st)) st)
  else
    st ← critical_block agent battery_pct st;
    st ← low_block agent st;
    Ret (None, st).

(** [self.last_actions.get(agent.id) and
     self.last_actions[agent.id][0] == Action.FORWARD.value] *)
Definition forward_is_next (id : Z) (st : St) : bool :=
  match last_actions st !! id with
  | Some (a :: _) => bool_decide (a = Action.FORWARD)
  | _ => false
  end.

(** Lines 389-421: the stuck and recovery monitor. *)
Definition stuck_monitor (agent : Agent) (st : St) : outcome St :=
  let id := agent_id agent in
  let current_pos := agent_pos agent in
  let same_pos := bool_decide (last_positions st !! id = Some current_pos) in
  (* the stuck counter *)
  st ←
    (if forward_is_next id st && same_pos then
       n ← getitem (stuck_count st) id;
       Ret (set_stuck_count (<[id := n + 1]> (stuck_count st)) st)
     else Ret (set_stuck_count (<[id := 0]> (stuck_count st)) st));
  (* entering recovery *)
  st ←
    (if (1 <? default 0 (stuck_count st !! id)) && negb (is_charging agent) then
       state ← getitem (agent_states st) id;
       if negb (bool_decide (state = no_shelf_to_carry))
          && negb (default false (in_recovery st !! id))
       then
         Ret (set_in_recovery (<[id := true]> (in_recovery st))
                (set_metrics (Metrics.record_collision id (metrics st))
                   (set_last_actions (<[id := []]> (last_actions st)) st)))
       else Ret st
     else Ret st);
  let st :=
    if bool_decide (in_recovery st !! id = Some true)
    then set_metrics (Metrics.record_recovery_step id (metrics st)) st
    else st in
  (* leaving recovery *)
  let st :=
    if negb same_pos && forward_is_next id st
       && bool_decide (in_recovery st !! id = Some true)
    then
      set_metrics (Metrics.record_recovery_complete id (metrics st))
        (set_in_recovery (<[id := false]> (in_recovery st))
           (set_stuck_count (<[id := 0]> (stuck_count st)) st))
    else st in
  Ret (set_last_positions (<[id := current_pos]> (last_positions st)) st).

(** Lines 423-428: one queued action is taken off the queue. *)
Definition drain_queue (agent : Agent) (st : St) : option Action.t * St :=
  match last_actions st !! agent_id agent with
  | Some (action :: rest) =>
      (Some action,
       set_last_actions (<[agent_id agent := rest]> (last_actions st)) st)
  | _ => (None, st)
  end.

(** The loop of lines 451-458: some other agent charges on the station
    below 90%. *)
Fixpoint station_taken (agent : Agent) (station_pos : Pos)
    (others : list Agent) : outcome bool :=
  match others with
  | [] => Ret false
  | other_agent :: rest =>
      if bool_decide (agent_id other_agent ≠ agent_id agent)
         && bool_decide (agent_pos other_agent = station_pos)
         && is_charging other_agent
      then
        battery_pct ← battery_pct env other_agent;
        if Num.lt battery_pct (Num.PyInt 90) then Ret true
        else station_taken agent station_pos rest
      else station_taken agent station_pos rest
  end.

(** Lines 433-480: the charging state. *)
Definition charging_block (agent : Agent) (st : St)
    : outcome (option Action.t * St) :=
  let id := agent_id agent in
  state ← getitem (agent_states st) id;
  if decide (state = charging) then
    if is_charging agent then
      if Num.ge (battery_level agent) (battery_capacity env) then
        st ← _restore_pre_charging_state agent st;
        Ret (None, set_metrics (Metrics.record_charging_end id (metrics st)) st)
      else Ret (Some Action.NOOP, st)
    else
      target ← getitem (agent_targets st) id;
      match target with
      | None => Raise TypeError
      | Some target =>
          let station_pos := target_position target in
          if decide (agent_pos agent = station_pos) then
            taken ← station_taken agent station_pos (agents env);
            if negb taken then Ret (Some Action.NOOP, st)
            else
              let st :=
                if (Z.of_nat (length (default [] (last_actions st !! id))) <? 2)
                then set_last_actions
                       (<[id := [Action.LEFT; Action.RIGHT]]> (last_actions st)) st
                else st in
              queue ← getitem (last_actions st) id;
              match queue with
              | [] => Raise IndexError
              | action :: rest =>
                  Ret (Some action,
                       set_last_actions (<[id := rest]> (last_actions st)) st)
              end
          else
            movement_sequence ← plan_to st agent station_pos;
            Ret (Some (first_or Action.NOOP movement_sequence),
                 keep_tail id movement_sequence st)
      end
  else Ret (None, st).

(** One step of the shelf selection loop (lines 495-521); the
    accumulator is [(closest_shelf, min_dist)], [None] for infinity. *)
Definition consider (st : St) (agent : Agent)
    (acc : option Shelf * option Z) (shelf : Shelf) : option Shelf * option Z :=
  if is_carried env shelf then acc
  else if reserved_by_other st agent shelf then acc
  else if max_carry_weight agent <? shelf_weight shelf then acc
  else
    let shelf_pos := _get_aligned_position (shelf_pos shelf) in
    let dist := manhattan shelf_pos (agent_pos agent) in
    if key_lt (Some dist) acc.2 then (Some shelf, Some dist) else acc.

Definition select_shelf (st : St) (agent : Agent) : option Shelf :=
  (foldl (consider st agent) (None, None) (request_queue env)).1.

(** Lines 483-568: seeking a shelf. *)
Definition seek_shelf_block (agent : Agent) (st : St) : outcome (Action.t * St) :=
  let id := agent_id agent in
  let st :=
    set_assigned_waiting_areas (delete id (assigned_waiting_areas st)) st in
  replan ←
    match last_actions st !! id with
    | Some (_ :: _) =>
        target ← getitem (agent_targets st) id;
        match target with
        | None => Raise TypeError
        | Some target => Ret (bool_decide (agent_pos agent ≠ target_position target))
        end
    | _ => Ret true
    end;
  '(action, st) ←
    (if replan : bool then
       let found := select_shelf st agent in
       let st := set_closest_shelf (Some found) st in
       match found with
       | Some shelf =>
           let st :=
             set_shelf_reservation_time
               (<[shelf_id shelf := current_step st]> (shelf_reservation_time st))
               (set_reserved_shelves
                  (<[shelf_id shelf := id]> (reserved_shelves st)) st) in
           let target_pos := _get_aligned_position (shelf_pos shelf) in
           let st :=
             set_agent_targets
               (<[id := Some (mkTarget (Some (shelf_id shelf)) target_pos)]>
                  (agent_targets st)) st in
           let st :=
             if negb (bool_decide (agent_pos agent = shelf_pos shelf))
             then set_metrics
                    (Metrics.record_task_start id (shelf_id shelf) (metrics st)) st
             else st in
           movement_sequence ← plan_to st agent target_pos;
           Ret (first_or Action.NOOP movement_sequence,
                keep_tail id movement_sequence st)
       | None => Ret (Action.NOOP, st)
       end
     else Ret (Action.NOOP, st));
  match closest_shelf st with
  | None => Raise UnboundLocalError
  | Some None => Ret (action, st)
  | Some (Some shelf) =>
      if bool_decide (agent_pos agent = shelf_pos shelf) then
        if shelf_weight shelf <=? max_carry_weight agent then
          let st :=
            set_last_actions (<[id := []]> (last_actions st))
              (set_agent_states (<[id := deliver]> (agent_states st)) st) in
          st ← release (shelf_id shelf) st;
          Ret (Action.TOGGLE_LOAD, st)
        else
          let st :=
            set_metrics (Metrics.record_overcapacity_attempt id (metrics st)) st in
          st ← release (shelf_id shelf) st;
          Ret (action, st)
      else Ret (action, st)
  end.

(** [if agent.id in self.agent_targets:
     self.agent_targets[agent.id]['position'] = pos] *)
Definition retarget (id : Z) (pos : Pos) (st : St) : outcome St :=
  match agent_targets st !! id with
  | None => Ret st
  | Some None => Raise TypeError
  | Some (Some target) =>
      Ret (set_agent_targets
             (<[id := Some (mkTarget (target_id target) pos)]> (agent_targets st)) st)
  end.

(** Lines 571-588: delivering. *)
Definition deliver_block (agent : Agent) (st : St) : outcome (Action.t * St) :=
  let id := agent_id agent in
  closest_goal ← nearest_goal agent;
  st ← retarget id closest_goal st;
  movement_sequence ← plan_to st agent closest_goal;
  let action := first_or Action.NOOP movement_sequence in
  let st := keep_tail id movement_sequence st in
  if decide (agent_pos agent = closest_goal) then
    Ret (Action.TOGGLE_LOAD,
         set_last_actions (<[id := []]> (last_actions st))
           (set_agent_states (<[id := return_shelf]> (agent_states st)) st))
  else Ret (action, st).

(** The three assignments that send the agent back to seeking. *)
Definition back_to_seek (id : Z) (st : St) : St :=
  set_last_actions (<[id := []]> (last_actions st))
    (set_agent_targets (<[id := None]> (agent_targets st))
       (set_agent_states (<[id := seek_shelf]> (agent_states st)) st)).

(** Lines 593-617: returning the shelf. *)
Definition return_shelf_block (agent : Agent) (st : St) : outcome (Action.t * St) :=
  let id := agent_id agent in
  match carrying_shelf agent with
  | Some sid =>
      match shelf_memory cfg !! sid with
      | Some original_pos =>
          st ← retarget id original_pos st;
          movement_sequence ← plan_to st agent original_pos;
          let action := first_or Action.NOOP movement_sequence in
          let st := keep_tail id movement_sequence st in
          if decide (agent_pos agent = original_pos) then
            Ret (Action.TOGGLE_LOAD,
                 set_metrics (Metrics.record_task_completion id sid (metrics st))
                   (back_to_seek id st))
          else Ret (action, st)
      | None => Ret (Action.NOOP, back_to_seek id st)
      end
  | None => Ret (Action.NOOP, back_to_seek id st)
  end.

(** Lines 483-621: the task states. *)
Definition task_block (agent : Agent) (st : St) : outcome (Action.t * St) :=
  state ← getitem (agent_states st) (agent_id agent);
  match state with
  | seek_shelf => seek_shelf_block agent st
  | deliver =>
      match carrying_shelf agent with
      | Some _ => deliver_block agent st
      | None => Ret (Action.NOOP, st)
      end
  | return_shelf => return_shelf_block agent st
  | _ => Ret (Action.NOOP, st)
  end.

(** Lines 389-621: what an iteration does once the battery checks are
    passed. *)
Definition monitor_and_act (agent : Agent) (st : St) : outcome (Action.t * St) :=
  st ← stuck_monitor agent st;
  let '(done, st) := drain_queue agent st in
  match done with
  | Some action => Ret (action, st)
  | None =>
      '(done, st) ← charging_block agent st;
      match done with
      | Some action => Ret (action, st)
      | None => task_block agent st
      end
  end.

(** Lines 352-621: what an iteration does once the no-task branch is
    passed. *)
Definition check_battery_and_act (agent : Agent) (st : St)
    : outcome (Action.t * St) :=
  '(done, st) ← battery_block agent st;
  match done with
  | Some action => Ret (action, st)
  | None => monitor_and_act agent st
  end.

(** One iteration of [for agent in self.env.agents]: the action appended
    for the agent, and the controller afterwards. *)
Definition process_agent (agent : Agent) (st : St) : outcome (Action.t * St) :=
  let st := set_metrics (Metrics.record_movement (agent_id agent) (metrics st)) st in
  '(done, st) ← no_task_block agent st;
  match done with
  | Some action => Ret (action, st)
  | None => check_battery_and_act agent st
  end.

(** Lines 307-312: the expired reservations are deleted from both
    dictionaries. *)
Definition expired (st : St) : list Z :=
  (filter (λ entry : Z * Z, 20 ≤ current_step st - entry.2)
     (map_to_list (shelf_reservation_time st))).*1.

Definition purge_one (st : outcome St) (shelf_id : Z) : outcome St :=
  st ← st;
  match reserved_shelves st !! shelf_id, shelf_reservation_time st !! shelf_id with
  | Some _, Some _ =>
      Ret (set_shelf_reservation_time (delete shelf_id (shelf_reservation_time st))
             (set_reserved_shelves (delete shelf_id (reserved_shelves st)) st))
  | _, _ => Raise KeyError
  end.

Definition purge_expired (st : St) : outcome St :=
  foldl purge_one (Ret st) (expired st).

(** The agent loop. *)
Fixpoint agent_loop (todo : list Agent) (st : St) : outcome (list Action.t * St) :=
  match todo with
  | [] => Ret ([], st)
  | agent :: todo' =>
      '(action, st) ← process_agent agent st;
      '(actions, st) ← agent_loop todo' st;
      Ret (action :: actions, st)
  end.

(** [get_actions] *)
Definition get_actions (st : St) : outcome (list Action.t * St) :=
  st ← purge_expired st;
  let st := set_metrics (Metrics.record_total_steps (metrics st)) st in
  agent_loop (agents env) (set_closest_shelf None st).

End Step.

End Controller.


(** The state in which an agent that is not parked leaves the no-task
    branch of the agent loop. *)
Definition unparked (state : AgentState) : AgentState :=
  if decide (state = no_shelf_to_carry) then seek_shelf else state.

(** [data] is the saved context of an agent with task state [state]: the
    state, the carried shelf, and the target: for seek_shelf the position
    and shelf id of the current target, for deliver the nearest goal, for
    return_shelf the home cell of the carried shelf. *)
Definition snapshot_of (cfg : Controller.Config) (agent : Agent)
    (st : Controller.St) (state : AgentState) (data : Controller.PreCharging)
    : Prop :=
  Controller.pre_state data = state
  ∧ Controller.pre_shelf_id data = carrying_shelf agent
  ∧ (∀ tgt, Controller.agent_targets st !! agent_id agent = Some (Some tgt) →
            state = seek_shelf →
            Controller.pre_targets data
            = Some (Controller.SeekTargets (Controller.target_position tgt)
                      (Controller.target_id tgt)))
  ∧ (∀ tgt sid, Controller.agent_targets st !! agent_id agent = Some (Some tgt) →
                state = deliver → carrying_shelf agent = Some sid →
                ∃ g, Controller.nearest_goal cfg agent = Ret g
                     ∧ Controller.pre_targets data
                       = Some (Controller.DeliverTargets g sid))
  ∧ (∀ tgt sid origin,
       Controller.agent_targets st !! agent_id agent = Some (Some tgt) →
       state = return_shelf → carrying_shelf agent = Some sid →
       Controller.shelf_memory cfg !! sid = Some origin →
       Controller.pre_targets data = Some (Controller.ReturnTargets origin sid)
       ∧ Controller.pre_shelf_origin data = Some origin).

(** Two states of the A* controller with the same reservation ledger
    and the same step counter. *)
Definition same_ledger (st st' : Controller.St) : Prop :=
  Controller.reserved_shelves st' = Controller.reserved_shelves st
  ∧ Controller.shelf_reservation_time st' = Controller.shelf_reservation_time st
  ∧ Controller.current_step st' = Controller.current_step st.

(** What iterations of the agent loop do to the ledger, shelf by shelf:
    the entry is as it was, or it is in neither dictionary, or it is in
    both and carries the current step; the step counter is not written. *)
Definition ledger_step (st st' : Controller.St) : Prop :=
  Controller.current_step st' = Controller.current_step st
  ∧ ∀ sid,
      (Controller.reserved_shelves st' !! sid = Controller.reserved_shelves st !! sid
       ∧ Controller.shelf_reservation_time st' !! sid
         = Controller.shelf_reservation_time st !! sid)
      ∨ (Controller.reserved_shelves st' !! sid = None
         ∧ Controller.shelf_reservation_time st' !! sid = None)
      ∨ (is_Some (Controller.reserved_shelves st' !! sid)
         ∧ Controller.shelf_reservation_time st' !! sid
           = Some (Controller.current_step st)).

(** Every battery percentage of the world can be computed: the capacity
    is not zero and no quotient is too large for a double. *)
Definition batteries_readable (env : Env) : Prop :=
  ∀ o, o ∈ agents env → ∃ pct, battery_pct env o = Ret pct.

(** The nearest eligible station: [station] is the nearest of the stations
    that are empty or hold an agent above 90%, or, when no station is,
    the nearest station. *)
Definition nearest_eligible_station (cfg : Controller.Config) (env : Env)
    (agent : Agent) (station : Pos) : Prop :=
  station ∈ Controller.charging_stations cfg
  ∧ ((Controller.station_free_or_vacating env station = Ret true
      ∧ ∀ t, t ∈ Controller.charging_stations cfg →
             Controller.station_free_or_vacating env t = Ret true →
             manhattan station (agent_pos agent) ≤ manhattan t (agent_pos agent))
     ∨ (∀ t, t ∈ Controller.charging_stations cfg →
             Controller.station_free_or_vacating env t = Ret false
             ∧ manhattan station (agent_pos agent) ≤ manhattan t (agent_pos agent))).

(** What both battery blocks establish when they send [agent] to
    [station]: it is charging, targeted at the station, its queue is empty,
    and the ledger is as before. *)
Definition sent_to_station (agent : Agent) (station : Pos)
    (st st' : Controller.St) : Prop :=
  Controller.agent_states st' !! agent_id agent = Some charging
  ∧ Controller.agent_targets st' !! agent_id agent
    = Some (Some (Controller.mkTarget None station))
  ∧ Controller.last_actions st' !! agent_id agent = Some []
  ∧ Controller.reserved_shelves st' = Controller.reserved_shelves st
  ∧ Controller.shelf_reservation_time st' = Controller.shelf_reservation_time st.

(** What the shelf selection of the A* controller filters on. *)
Definition selectable (env : Env) (agent : Agent) (st : Controller.St)
    (shelf : Shelf) : Prop :=
  shelf ∈ request_queue env
  ∧ is_carried env shelf = false
  ∧ Controller.reserved_by_other st agent shelf = false
  ∧ shelf_weight shelf ≤ max_carry_weight agent.

(** ** baseline_algorithm/main.py *)

Module Baseline.

Record St : Type := mkSt {
  agent_states : gmap Z AgentState;
  agent_targets : gmap Z (option Controller.Target);
  last_positions : gmap Z Pos;
  stuck_count : gmap Z Z;
  last_actions : gmap Z (list Action.t);
  in_recovery : gmap Z bool;
  metrics : Metrics.t;
  (** [agent.unreachable_shelves], by agent id *)
  unreachable_shelves : gmap Z (gset Z);
  no_movement_steps : Z;
  all_stuck_counter : Z;
  (** the local variable [closest_shelf] of [get_actions]; [None] while
      unbound *)
  closest_shelf : option (option Shelf);
}.

Definition set_agent_states (v : gmap Z AgentState) (st : St) : St :=
  mkSt v (agent_targets st) (last_positions st) (stuck_count st)
    (last_actions st) (in_recovery st) (metrics st) (unreachable_shelves st)
    (no_movement_steps st) (all_stuck_counter st) (closest_shelf st).
Definition set_agent_targets (v : gmap Z (option Controller.Target)) (st : St) : St :=
  mkSt (agent_states st) v (last_positions st) (stuck_count st)
    (last_actions st) (in_recovery st) (metrics st) (unreachable_shelves st)
    (no_movement_steps st) (all_stuck_counter st) (closest_shelf st).
Definition set_last_positions (v : gmap Z Pos) (st : St) : St :=
  mkSt (agent_states st) (agent_targets st) v (stuck_count st) (last_actions
    st) (in_recovery st) (metrics st) (unreachable_shelves st)
    (no_movement_steps st) (all_stuck_counter st) (closest_shelf st).
Definition set_stuck_count (v : gmap Z Z) (st : St) : St :=
  mkSt (agent_states st) (agent_targets st) (last_positions st) v
    (last_actions st) (in_recovery st) (metrics st) (unreachable_shelves st)
    (no_movement_steps st) (all_stuck_counter st) (closest_shelf st).
Definition set_last_actions (v : gmap Z (list Action.t)) (st : St) : St :=
  mkSt (agent_states st) (agent_targets st) (last_positions st) (stuck_count
    st) v (in_recovery st) (metrics st) (unreachable_shelves st)
    (no_movement_steps st) (all_stuck_counter st) (closest_shelf st).
Definition set_in_recovery (v : gmap Z bool) (st : St) : St :=
  mkSt (agent_states st) (agent_targets st) (last_positions st) (stuck_count
    st) (last_actions st) v (metrics st) (unreachable_shelves st)
    (no_movement_steps st) (all_stuck_counter st) (closest_shelf st).
Definition set_metrics (v : Metrics.t) (st : St) : St :=
  mkSt (agent_states st) (agent_targets st) (last_positions st) (stuck_count
    st) (last_actions st) (in_recovery st) v (unreachable_shelves st)
    (no_movement_steps st) (all_stuck_counter st) (closest_shelf st).
Definition set_unreachable_shelves (v : gmap Z (gset Z)) (st : St) : St :=
  mkSt (agent_states st) (agent_targets st) (last_positions st) (stuck_count
    st) (last_actions st) (in_recovery st) (metrics st) v (no_movement_steps
    st) (all_stuck_counter st) (closest_shelf st).
Definition set_no_movement_steps (v : Z) (st : St) : St :=
  mkSt (agent_states st) (agent_targets st) (last_positions st) (stuck_count
    st) (last_actions st) (in_recovery st) (metrics st) (unreachable_shelves
    st) v (all_stuck_counter st) (closest_shelf st).
Definition set_all_stuck_counter (v : Z) (st : St) : St :=
  mkSt (agent_states st) (agent_targets st) (last_positions st) (stuck_count
    st) (last_actions st) (in_recovery st) (metrics st) (unreachable_shelves
    st) (no_movement_steps st) v (closest_shelf st).
Definition set_closest_shelf (v : option (option Shelf)) (st : St) : St :=
  mkSt (agent_states st) (agent_targets st) (last_positions st) (stuck_count
    st) (last_actions st) (in_recovery st) (metrics st) (unreachable_shelves
    st) (no_movement_steps st) (all_stuck_counter st) v.

(** [__init__] followed by [initialize_and_verify]: the per-agent
    dictionaries. *)
Definition initial_state (env : Env) : St :=
  {| agent_states := list_to_map ((λ a, (agent_id a, seek_shelf)) <$> agents env);
     agent_targets := list_to_map ((λ a, (agent_id a, None)) <$> agents env);
     last_positions :=
       list_to_map ((λ a, (agent_id a,
                            (clamp (agent_x a) (grid_cols env),
                             clamp (agent_y a) (grid_rows env)))) <$> agents env);
     stuck_count := list_to_map ((λ a, (agent_id a, 0)) <$> agents env);
     last_actions := list_to_map ((λ a, (agent_id a, [])) <$> agents env);
     in_recovery := ∅;
     metrics := Metrics.init;
     unreachable_shelves := list_to_map ((λ a, (agent_id a, ∅)) <$> agents env);
     no_movement_steps := 0;
     all_stuck_counter := 0;
     closest_shelf := None |}.

Section Step.
(** [fuel] bounds the loops of the planner. *)
Variable fuel : nat.
Variable cfg : Controller.Config.
Variable env : Env.

(** [_get_aligned_position] *)
Definition _get_aligned_position (pos : Pos) : Pos :=
  (clamp pos.1 (Controller.cols cfg), clamp pos.2 (Controller.rows cfg)).

(** [agent.unreachable_shelves], created empty when the attribute is
    missing *)
Definition unreachable (st : St) (agent : Agent) : gset Z :=
  default ∅ (unreachable_shelves st !! agent_id agent).

(** [_can_carry_any_shelf] *)
Definition _can_carry_any_shelf (st : St) (agent : Agent) : bool :=
  existsb (λ shelf,
             negb (is_carried env shelf)
             && bool_decide (shelf_id shelf ∉ unreachable st agent))
          (request_queue env).

(** [_all_agents_stuck] *)
Definition _all_agents_stuck (st : St) : bool :=
  forallb (λ agent, 1 <? default 0 (stuck_count st !! agent_id agent)) (agents env).

(** The [any(...)] of lines 127-131. *)
Fixpoint any_movement (todo : list Agent) (st : St) : outcome bool :=
  match todo with
  | [] => Ret false
  | agent :: todo' =>
      if Num.gt (battery_level agent) (Num.PyInt 0) && negb (is_charging agent) then
        state ← getitem (agent_states st) (agent_id agent);
        if decide (state ≠ no_shelf_to_carry) then
          if bool_decide (agent_pos agent
                          ≠ default (-1, -1) (last_positions st !! agent_id agent))
          then Ret true
          else any_movement todo' st
        else any_movement todo' st
      else any_movement todo' st
  end.

(** [self.shelf_mover.calculate_movement(agent, goal)] *)
Definition plan_to (st : St) (agent : Agent) (goal : Pos)
    : outcome (list Action.t) :=
  BFS.calculate_movement fuel (Controller.shelf_mover cfg) env
    (Some (agent_states st)) agent goal.

(** [if movement_sequence: self.last_actions[agent.id] = movement_sequence[1:]] *)
Definition keep_tail (id : Z) (movement_sequence : list Action.t) (st : St) : St :=
  match movement_sequence with
  | [] => st
  | _ :: rest => set_last_actions (<[id := rest]> (last_actions st)) st
  end.

(** Lines 149-161: the agent with no shelf to carry. *)
Definition no_task_block (agent : Agent) (st : St)
    : outcome (option Action.t * St) :=
  let id := agent_id agent in
  state ← getitem (agent_states st) id;
  let st :=
    if negb (bool_decide (state ∈ [deliver; return_shelf]))
       && negb (_can_carry_any_shelf st agent)
    then
      set_last_actions (<[id := []]> (last_actions st))
        (set_agent_targets (<[id := None]> (agent_targets st))
           (set_agent_states (<[id := no_shelf_to_carry]> (agent_states st)) st))
    else st in
  state ← getitem (agent_states st) id;
  if decide (state = no_shelf_to_carry) then
    if _can_carry_any_shelf st agent then
      Ret (None, set_agent_states (<[id := seek_shelf]> (agent_states st)) st)
    else Ret (Some Action.NOOP, st)
  else Ret (None, st).

(** [self.last_actions.get(agent.id) and
     self.last_actions[agent.id][0] == Action.FORWARD.value] *)
Definition forward_is_next (id : Z) (st : St) : bool :=
  match last_actions st !! id with
  | Some (a :: _) => bool_decide (a = Action.FORWARD)
  | _ => false
  end.

(** Lines 163-192: the stuck and recovery monitor. *)
Definition stuck_monitor (agent : Agent) (st : St) : outcome St :=
  let id := agent_id agent in
  let current_pos := agent_pos agent in
  let same_pos := bool_decide (last_positions st !! id = Some current_pos) in
  (* the stuck counter *)
  st ←
    (if forward_is_next id st && same_pos then
       n ← getitem (stuck_count st) id;
       Ret (set_stuck_count (<[id := n + 1]> (stuck_count st)) st)
     else Ret (set_stuck_count (<[id := 0]> (stuck_count st)) st));
  (* entering recovery *)
  st ←
    (if 1 <? default 0 (stuck_count st !! id) then
       state ← getitem (agent_states st) id;
       if negb (bool_decide (state = no_shelf_to_carry))
          && negb (default false (in_recovery st !! id))
       then
         Ret (set_in_recovery (<[id := true]> (in_recovery st))
                (set_metrics (Metrics.record_collision id (metrics st)) st))
       else Ret st
     else Ret st);
  let st :=
    if bool_decide (in_recovery st !! id = Some true)
    then set_metrics (Metrics.record_recovery_step id (metrics st)) st
    else st in
  (* leaving recovery *)
  let st :=
    if negb same_pos && forward_is_next id st
       && bool_decide (in_recovery st !! id = Some true)
    then
      set_metrics (Metrics.record_recovery_complete id (metrics st))
        (set_in_recovery (<[id := false]> (in_recovery st))
           (set_stuck_count (<[id := 0]> (stuck_count st)) st))
    else st in
  Ret (set_last_positions (<[id := current_pos]> (last_positions st)) st).

(** Lines 194-199: one queued action is taken off the queue. *)
Definition drain_queue (agent : Agent) (st : St) : option Action.t * St :=
  match last_actions st !! agent_id agent with
  | Some (action :: rest) =>
      (Some action,
       set_last_actions (<[agent_id agent := rest]> (last_actions st)) st)
  | _ => (None, st)
  end.

(** One step of the shelf selection loop (lines 213-223). *)
Definition consider (st : St) (agent : Agent)
    (acc : option Shelf * option Z) (shelf : Shelf) : option Shelf * option Z :=
  if is_carried env shelf || bool_decide (shelf_id shelf ∈ unreachable st agent)
  then acc
  else
    let shelf_pos := _get_aligned_position (shelf_pos shelf) in
    let dist := manhattan shelf_pos (agent_pos agent) in
    if key_lt (Some dist) acc.2 then (Some shelf, Some dist) else acc.

Definition select_shelf (st : St) (agent : Agent) : option Shelf :=
  (foldl (consider st agent) (None, None) (request_queue env)).1.

(** Lines 205-258: seeking a shelf. *)
Definition seek_shelf_block (agent : Agent) (st : St) : outcome (Action.t * St) :=
  let id := agent_id agent in
  replan ←
    match last_actions st !! id with
    | Some (_ :: _) =>
        target ← getitem (agent_targets st) id;
        match target with
        | None => Raise TypeError
        | Some target =>
            Ret (bool_decide (agent_pos agent ≠ Controller.target_position target))
        end
    | _ => Ret true
    end;
  '(action, st) ←
    (if replan : bool then
       let found := select_shelf st agent in
       let st := set_closest_shelf (Some found) st in
       match found with
       | Some shelf =>
           let target_pos := _get_aligned_position (shelf_pos shelf) in
           let st :=
             set_agent_targets
               (<[id := Some (Controller.mkTarget (Some (shelf_id shelf)) target_pos)]>
                  (agent_targets st)) st in
           let st :=
             if negb (bool_decide (agent_pos agent = shelf_pos shelf))
             then set_metrics
                    (Metrics.record_task_start id (shelf_id shelf) (metrics st)) st
             else st in
           movement_sequence ← plan_to st agent target_pos;
           Ret (Controller.first_or Action.NOOP movement_sequence,
                keep_tail id movement_sequence st)
       | None => Ret (Action.NOOP, st)
       end
     else Ret (Action.NOOP, st));
  match closest_shelf st with
  | None => Raise UnboundLocalError
  | Some None => Ret (action, st)
  | Some (Some shelf) =>
      if bool_decide (agent_pos agent = shelf_pos shelf) then
        if shelf_weight shelf <=? max_carry_weight agent then
          Ret (Action.TOGGLE_LOAD,
               set_unreachable_shelves
                 (<[id := unreachable st agent ∖ {[shelf_id shelf]}]>
                    (unreachable_shelves st))
                 (set_last_actions (<[id := []]> (last_actions st))
                    (set_agent_states (<[id := deliver]> (agent_states st)) st)))
        else
          Ret (Action.NOOP,
               set_metrics (Metrics.record_overcapacity_attempt id (metrics st))
                 (set_last_actions (<[id := []]> (last_actions st))
                    (set_agent_targets (<[id := None]> (agent_targets st))
                       (set_unreachable_shelves
                          (<[id := {[shelf_id shelf]} ∪ unreachable st agent]>
                             (unreachable_shelves st)) st))))
      else Ret (action, st)
  end.

(** [if agent.id in self.agent_targets:
     self.agent_targets[agent.id]['position'] = pos] *)
Definition retarget (id : Z) (pos : Pos) (st : St) : outcome St :=
  match agent_targets st !! id with
  | None => Ret st
  | Some None => Raise TypeError
  | Some (Some target) =>
      Ret (set_agent_targets
             (<[id := Some (Controller.mkTarget (Controller.target_id target) pos)]>
                (agent_targets st)) st)
  end.

(** [min(self.goal_locations, key=distance to the agent)] *)
Definition nearest_goal (agent : Agent) : outcome Pos :=
  match Controller.goal_locations cfg with
  | [] => Raise ValueError
  | g :: gs => Ret (min_by (λ g, Some (manhattan g (agent_pos agent))) g gs)
  end.

(** Lines 261-277: delivering. *)
Definition deliver_block (agent : Agent) (st : St) : outcome (Action.t * St) :=
  let id := agent_id agent in
  closest_goal ← nearest_goal agent;
  st ← retarget id closest_goal st;
  movement_sequence ← plan_to st agent closest_goal;
  let action := Controller.first_or Action.NOOP movement_sequence in
  let st := keep_tail id movement_sequence st in
  if decide (agent_pos agent = closest_goal) then
    Ret (Action.TOGGLE_LOAD,
         set_last_actions (<[id := []]> (last_actions st))
           (set_agent_states (<[id := return_shelf]> (agent_states st)) st))
  else Ret (action, st).

(** The three assignments that send the agent back to seeking. *)
Definition back_to_seek (id : Z) (st : St) : St :=
  set_last_actions (<[id := []]> (last_actions st))
    (set_agent_targets (<[id := None]> (agent_targets st))
       (set_agent_states (<[id := seek_shelf]> (agent_states st)) st)).

(** Lines 280-302: returning the shelf. *)
Definition return_shelf_block (agent : Agent) (st : St) : outcome (Action.t * St) :=
  let id := agent_id agent in
  match carrying_shelf agent with
  | Some sid =>
      match Controller.shelf_memory cfg !! sid with
      | Some original_pos =>
          st ← retarget id original_pos st;
          movement_sequence ← plan_to st agent original_pos;
          let action := Controller.first_or Action.NOOP movement_sequence in
          let st := keep_tail id movement_sequence st in
          if decide (agent_pos agent = original_pos) then
            Ret (Action.TOGGLE_LOAD,
                 set_metrics (Metrics.record_task_completion id sid (metrics st))
                   (back_to_seek id st))
          else Ret (action, st)
      | None => Ret (Action.NOOP, back_to_seek id st)
      end
  | None => Ret (Action.NOOP, back_to_seek id st)
  end.

(** Lines 205-303: the task states. *)
Definition task_block (agent : Agent) (st : St) : outcome (Action.t * St) :=
  state ← getitem (agent_states st) (agent_id agent);
  match state with
  | seek_shelf => seek_shelf_block agent st
  | deliver =>
      match carrying_shelf agent with
      | Some _ => deliver_block agent st
      | None => Ret (Action.NOOP, st)
      end
  | return_shelf => return_shelf_block agent st
  | _ => Ret (Action.NOOP, st)
  end.

(** One iteration of [for agent in self.env.agents]. *)
Definition process_agent (agent : Agent) (st : St) : outcome (Action.t * St) :=
  let st := set_metrics (Metrics.record_movement (agent_id agent) (metrics st)) st in
  '(done, st) ← no_task_block agent st;
  match done with
  | Some action => Ret (action, st)
  | None =>
      st ← stuck_monitor agent st;
      let '(done, st) := drain_queue agent st in
      match done with
      | Some action => Ret (action, st)
      | None => task_block agent st
      end
  end.

(** The agent loop. *)
Fixpoint agent_loop (todo : list Agent) (st : St) : outcome (list Action.t * St) :=
  match todo with
  | [] => Ret ([], st)
  | agent :: todo' =>
      '(action, st) ← process_agent agent st;
      '(actions, st) ← agent_loop todo' st;
      Ret (action :: actions, st)
  end.

(** [get_actions] *)
Definition get_actions (st : St) : outcome (list Action.t * St) :=
  moved ← any_movement (agents env) st;
  let st :=
    set_no_movement_steps (if moved : bool then 0 else no_movement_steps st + 1) st in
  let st := set_metrics (Metrics.record_total_steps (metrics st)) st in
  let st :=
    set_all_stuck_counter
      (if _all_agents_stuck st then all_stuck_counter st + 1 else 0) st in
  agent_loop (agents env) (set_closest_shelf None st).

End Step.

End Baseline.

(** ** Concrete worlds used by the examples *)

Module Worlds.

(** A 3 by 3 grid; agent 0 at (0,0) facing RIGHT, agent 1 on (1,0). *)
Definition walker : Agent :=
  mkAgent 0 0 0 Direction.RIGHT (Num.PyFloat 100) 10 None false None.
Definition bystander : Agent :=
  mkAgent 1 1 0 Direction.UP (Num.PyFloat 100) 10 None false None.
Definition detour_env : Env :=
  mkEnv 3 3 [] [] [walker; bystander] [(2, 2)] [] (Num.PyInt 100).
Definition detour_states : gmap Z AgentState :=
  {[ 0 := seek_shelf; 1 := seek_shelf ]}.

(** A 3 by 3 grid; agent 0 stands on the cell of shelf 7 and is on its
    way to a charger, carrying nothing. *)
Definition low_agent : Agent :=
  mkAgent 0 0 0 Direction.RIGHT (Num.PyFloat 15) 10 None false None.
Definition under_env : Env :=
  mkEnv 3 3 [mkShelf 7 0 0 1] [mkShelf 7 0 0 1] [low_agent] [(2, 2)] [] (Num.PyInt 100).
Definition under_states : gmap Z AgentState := {[ 0 := charging ]}.

(** A 3 by 3 grid with the column [x = 1] walled off by shelves, for an
    agent that carries shelf 9. *)
Definition loaded : Agent :=
  mkAgent 0 0 0 Direction.RIGHT (Num.PyFloat 100) 10 (Some 9) false None.
Definition walled_env : Env :=
  mkEnv 3 3 [mkShelf 1 1 0 1; mkShelf 2 1 1 1; mkShelf 3 1 2 1; mkShelf 9 0 0 1] []
    [loaded] [(2, 2)] [] (Num.PyInt 100).
Definition walled_states : gmap Z AgentState := {[ 0 := deliver ]}.

(** Shelves 1 and 2 start on (1,1) and (0,0).  Later agent 0 carries
    shelf 1 over the home cell of shelf 2, which agent 1 has carried to
    (2,2). *)
Definition shelves_at_home : Env :=
  mkEnv 3 3 [mkShelf 1 1 1 1; mkShelf 2 0 0 1] []
    [mkAgent 0 1 1 Direction.UP (Num.PyFloat 100) 10 None false None;
     mkAgent 1 0 0 Direction.UP (Num.PyFloat 100) 10 None false None]
    [(2, 0)] [] (Num.PyInt 100).
Definition carrier : Agent :=
  mkAgent 0 0 0 Direction.UP (Num.PyFloat 100) 10 (Some 1) false None.
Definition shelves_moved : Env :=
  mkEnv 3 3 [mkShelf 1 0 0 1; mkShelf 2 2 2 1] []
    [carrier; mkAgent 1 2 2 Direction.UP (Num.PyFloat 100) 10 (Some 2) false None]
    [(2, 0)] [] (Num.PyInt 100).
Definition carrier_states : gmap Z AgentState :=
  {[ 0 := deliver; 1 := deliver ]}.

(** A ledger at step 20: shelf 5 was reserved by agent 0 at step 0, shelf 6
    by agent 1 at step 7. *)
Definition ledger_st : Controller.St :=
  Controller.set_current_step 20
    (Controller.set_shelf_reservation_time {[ 5 := 0; 6 := 7 ]}
       (Controller.set_reserved_shelves {[ 5 := 0; 6 := 1 ]}
          (Controller.initial_state detour_env))).

(** Agent 0 has FORWARD next in its queue and stands where it stood at the
    last step; the stuck counter holds [n]. *)
Definition stuck_st (n : Z) : Controller.St :=
  Controller.set_stuck_count {[ 0 := n ]}
    (Controller.set_last_actions {[ 0 := [Action.FORWARD; Action.LEFT] ]}
       (Controller.initial_state detour_env)).
Definition stuck_baseline_st (n : Z) : Baseline.St :=
  Baseline.set_stuck_count {[ 0 := n ]}
    (Baseline.set_last_actions {[ 0 := [Action.FORWARD; Action.LEFT] ]}
       (Baseline.initial_state detour_env)).

(** A 5 by 5 grid whose only requested shelf (on (3,3), weight 50) is too
    heavy for agent 0, which stands on (0,0) facing DOWN with an empty
    battery. *)
Definition depleted : Agent :=
  mkAgent 0 0 0 Direction.DOWN (Num.PyFloat 0) 10 None false None.
Definition idle_env : Env :=
  mkEnv 5 5 [mkShelf 7 3 3 50] [mkShelf 7 3 3 50] [depleted] [(2, 0)] [] (Num.PyInt 100).

(** The same grid and shelf with agent 0 on (1,1), its battery at 5 of
    100. *)
Definition weary : Agent :=
  mkAgent 0 1 1 Direction.DOWN (Num.PyFloat 5) 10 None false None.
Definition parked_env : Env :=
  mkEnv 5 5 [mkShelf 7 3 3 50] [mkShelf 7 3 3 50] [weary] [(2, 0)] [] (Num.PyInt 100).

(** The same grid with a shelf of weight 5.  Agent 0 stands on (1,1) and
    holds the reservation of shelf 7, made at step 0; its battery is at 15
    of 100 ([tired]), at 9 of 100 ([drained]) or empty ([flat]). *)
Definition tired : Agent :=
  mkAgent 0 1 1 Direction.DOWN (Num.PyFloat 15) 10 None false None.
Definition drained : Agent :=
  mkAgent 0 1 1 Direction.DOWN (Num.PyFloat 9) 10 None false None.
Definition flat : Agent :=
  mkAgent 0 1 1 Direction.DOWN (Num.PyFloat 0) 10 None false None.
Definition busy_env (agent : Agent) : Env :=
  mkEnv 5 5 [mkShelf 7 3 3 5] [mkShelf 7 3 3 5] [agent] [(2, 0)] [] (Num.PyInt 100).
Definition busy_st (agent : Agent) : Controller.St :=
  Controller.set_agent_targets {[ 0 := Some (Controller.mkTarget (Some 7) (3, 3)) ]}
    (Controller.set_shelf_reservation_time {[ 7 := 0 ]}
       (Controller.set_reserved_shelves {[ 7 := 0 ]}
          (Controller.initial_state (busy_env agent)))).

(** Two agents and shelf 7 at step 20; agent 0 reserved the shelf at step
    0. *)
Definition pair_env : Env :=
  mkEnv 5 5 [mkShelf 7 3 3 5] [mkShelf 7 3 3 5] [walker; bystander] [(2, 0)] []
    (Num.PyInt 100).
Definition renewal_st : Controller.St :=
  Controller.set_current_step 20
    (Controller.set_shelf_reservation_time {[ 7 := 0 ]}
       (Controller.set_reserved_shelves {[ 7 := 0 ]}
          (Controller.initial_state pair_env))).

(** Agent 0 of [busy_env], with a full battery on (0,0), has the queue
    LEFT, FORWARD, FORWARD; [turned] is the agent after the turn, on the
    same cell. *)
Definition turning_st : Controller.St :=
  Controller.set_last_actions
    {[ 0 := [Action.LEFT; Action.FORWARD; Action.FORWARD] ]} (busy_st walker).
Definition turned : Agent :=
  mkAgent 0 0 0 Direction.UP (Num.PyFloat 100) 10 None false None.

End Worlds.

(** ** Vocabulary of the further properties *)

(** A path that goes one cell at a time: every cell is at Manhattan
    distance 1 from the one before it, the first one from [p]. *)
Fixpoint stepwise (p : Pos) (path : list Pos) : Prop :=
  match path with
  | [] => True
  | q :: rest => manhattan p q = 1 ∧ stepwise q rest
  end.

(** [n] is linked to [start] by [k] parent links of the table [visited]
    of the BFS search. *)
Inductive bfs_reaches (visited : gmap Pos (option Pos)) (start : Pos)
    : Pos → nat → Prop :=
| bfs_reaches_start : bfs_reaches visited start start 0
| bfs_reaches_step n p k :
    visited !! n = Some (Some p) →
    bfs_reaches visited start p k →
    bfs_reaches visited start n (S k).

(** The invariant of the BFS search loop: the table stays inside
    [universe], holds every queued cell, holds the goal exactly when the
    goal was found, links every cell it holds to the start, and every
    link joins two cells that are one step apart. *)
Record bfs_inv (rows cols : Z) (agent : Agent) (goal : Pos)
    (visited : gmap Pos (option Pos)) (queue : list Pos) (found : bool) : Prop := {
  bfs_dom : dom visited ⊆ universe rows cols agent;
  bfs_queue : ∀ n, n ∈ queue → n ∈ dom visited;
  bfs_goal : goal ∈ dom visited ↔ found = true;
  bfs_links : ∀ n, n ∈ dom visited →
                ∃ k, bfs_reaches visited (agent_pos agent) n k
                     ∧ (k < size (dom visited))%nat;
  bfs_adjacent : ∀ n p, visited !! n = Some (Some p) → manhattan p n = 1;
}.

(** A call of one of the recording methods of [MetricsTracker], and the
    tracker after a list of such calls. *)
Inductive recording : Type :=
| TaskStart (a s : Z)
| Movement_ (a : Z)
| TotalSteps
| TaskCompletion (a s : Z)
| Collision (a : Z)
| RecoveryStep (a : Z)
| RecoveryComplete (a : Z)
| OvercapacityAttempt (a : Z)
| LowBattery
| CriticalBattery
| BatteryFailure (a : Z)
| ChargingStart (a : Z)
| ChargingEnd (a : Z)
| BatteryLevels (agents : list Agent).

Definition record (m : Metrics.t) (c : recording) : Metrics.t :=
  match c with
  | TaskStart a s => Metrics.record_task_start a s m
  | Movement_ a => Metrics.record_movement a m
  | TotalSteps => Metrics.record_total_steps m
  | TaskCompletion a s => Metrics.record_task_completion a s m
  | Collision a => Metrics.record_collision a m
  | RecoveryStep a => Metrics.record_recovery_step a m
  | RecoveryComplete a => Metrics.record_recovery_complete a m
  | OvercapacityAttempt a => Metrics.record_overcapacity_attempt a m
  | LowBattery => Metrics.record_low_battery m
  | CriticalBattery => Metrics.record_critical_battery m
  | BatteryFailure a => Metrics.record_battery_failure a m
  | ChargingStart a => Metrics.record_charging_start a m
  | ChargingEnd a => Metrics.record_charging_end a m
  | BatteryLevels agents => Metrics.record_battery_levels agents m
  end.

(** What the counters of a tracker satisfy after any calls. *)
Record tally (m : Metrics.t) : Prop := {
  tally_total :
    Metrics.total_deliveries m
    = Metrics.successful_deliveries m + Metrics.failed_deliveries m;
  tally_successful :
    Metrics.successful_deliveries m
    = Z.of_nat (length (Metrics.task_step_counts m));
  tally_failed :
    Metrics.overcapacity_attempts m ≤ Metrics.failed_deliveries m
    ≤ Metrics.overcapacity_attempts m + Metrics.battery_failures m;
  tally_recoveries :
    Z.of_nat (length (Metrics.recovery_steps_count m))
    + Z.of_nat (size (dom (Metrics.in_recovery m)))
    ≤ Metrics.collision_count m;
  tally_completed :
    Z.of_nat (size (Metrics.completed_shelves m))
    ≤ Metrics.successful_deliveries m;
  tally_discharged :
    Z.of_nat (size (Metrics.discharged_agents m)) ≤ Metrics.battery_failures m;
}.

(** The distance by which the shelf selection compares shelves. *)
Definition shelf_distance (cfg : Controller.Config) (agent : Agent)
    (shelf : Shelf) : Z :=
  manhattan (Controller._get_aligned_position cfg (shelf_pos shelf)) (agent_pos agent).

(** [st1] is the controller [st] as the task blocks of the agent loop see
    it: the monitor that runs before them has touched nothing but the
    stuck counters, the last positions, the recovery flags and the step,
    recovery and charging counters of the metrics. *)
Definition same_tasks (st st1 : Controller.St) : Prop :=
  Controller.agent_states st1 = Controller.agent_states st
  ∧ Controller.agent_targets st1 = Controller.agent_targets st
  ∧ Controller.last_actions st1 = Controller.last_actions st
  ∧ Controller.reserved_shelves st1 = Controller.reserved_shelves st
  ∧ Controller.shelf_reservation_time st1 = Controller.shelf_reservation_time st
  ∧ Controller.pre_charging_data st1 = Controller.pre_charging_data st
  ∧ Metrics.task_start_times (Controller.metrics st1)
    = Metrics.task_start_times (Controller.metrics st)
  ∧ Metrics.successful_deliveries (Controller.metrics st1)
    = Metrics.successful_deliveries (Controller.metrics st)
  ∧ Metrics.completed_shelves (Controller.metrics st1)
    = Metrics.completed_shelves (Controller.metrics st)
  ∧ Controller.current_step st1 = Controller.current_step st.

(** The unreachable sets of the baseline controller only grow from [st]
    to [st']. *)
Definition unreachable_kept (st st' : Baseline.St) : Prop :=
  ∀ id sid, sid ∈ default ∅ (Baseline.unreachable_shelves st !! id) →
            sid ∈ default ∅ (Baseline.unreachable_shelves st' !! id).

(** [st2] comes after [st] in a run of the baseline controller: it is
    reached by iterations of the agent loop, each on the world of its
    step, and by writes that leave the unreachable sets alone (the
    bookkeeping at the start of [get_actions], the metrics the driver
    records between two calls). *)
Inductive baseline_later (fuel : nat) (cfg : Controller.Config)
    : Baseline.St → Baseline.St → Prop :=
| later_now st : baseline_later fuel cfg st st
| later_iteration st env agent a st1 st2 :
    Baseline.process_agent fuel cfg env agent st = Ret (a, st1) →
    baseline_later fuel cfg st1 st2 →
    baseline_later fuel cfg st st2
| later_write st st1 st2 :
    Baseline.unreachable_shelves st1 = Baseline.unreachable_shelves st →
    baseline_later fuel cfg st1 st2 →
    baseline_later fuel cfg st st2.

(** Worlds of the delivery cycle: the 5 by 5 grid with shelf 7 (weight 5,
    home (3,3)) and the goal (2,0).  Agent 0 carries shelf 7 with a full
    battery: [porter] stands on the goal and is delivering, [returner]
    stands on the home cell of the shelf and is returning a task that was
    started. *)
Module Deliveries.

Definition porter : Agent :=
  mkAgent 0 2 0 Direction.DOWN (Num.PyFloat 100) 10 (Some 7) false None.
Definition returner : Agent :=
  mkAgent 0 3 3 Direction.DOWN (Num.PyFloat 100) 10 (Some 7) false None.
Definition env_of (agent : Agent) : Env :=
  mkEnv 5 5 [mkShelf 7 3 3 5] [mkShelf 7 3 3 5] [agent] [(2, 0)] [] (Num.PyInt 100).
Definition st_of (agent : Agent) (state : AgentState) : Controller.St :=
  Controller.set_metrics (Metrics.record_task_start 0 7 Metrics.init)
    (Controller.set_agent_targets
       {[ 0 := Some (Controller.mkTarget (Some 7) (3, 3)) ]}
       (Controller.set_agent_states {[ 0 := state ]}
          (Controller.initial_state (env_of agent)))).

End Deliveries.

(** A world of the baseline controller: agent 0 (capacity 10) stands on
    shelf 7, which weighs 50. *)
Module Heavy.

Definition weak : Agent :=
  mkAgent 0 3 3 Direction.DOWN (Num.PyFloat 100) 10 None false None.
Definition env : Env :=
  mkEnv 5 5 [mkShelf 7 3 3 50] [mkShelf 7 3 3 50] [weak] [(2, 0)] [] (Num.PyInt 100).

End Heavy.

(** What the [came_from] table of the A* search keeps: every link joins
    two cells one step apart, every parent is the start or has a parent
    of its own, the start has none, every open cell is the start or has a
    parent, and the start is closed as soon as a link exists. *)
Record astar_links (agent : Agent) (s : AStar.search) : Prop := {
  link_adjacent :
    ∀ c p, AStar.came_from s !! c = Some p → manhattan p c = 1;
  link_rooted :
    ∀ c p, AStar.came_from s !! c = Some p →
           p = agent_pos agent ∨ is_Some (AStar.came_from s !! p);
  link_start : AStar.came_from s !! agent_pos agent = None;
  link_open :
    ∀ p, p ∈ AStar.open_set s →
         p = agent_pos agent ∨ is_Some (AStar.came_from s !! p);
  link_closed :
    agent_pos agent ∈ AStar.closed_set s ∨ AStar.came_from s = ∅;
}.

(** * Properties *)

Ltac unfold_bind :=
  unfold mbind, mret, outcome_mbind, outcome_ret, outcome_bind in *.

(** ** The planner: fuel *)

Section PlannerFuel.
Import Movement.
Variables rows cols : Z.

(** More fuel does not change a result of the A* reconstruction loop. *)
Lemma astar_reconstruct_mono fuel k cf current path r :
  AStar.reconstruct fuel cf current path = Ret r →
  AStar.reconstruct (fuel + k) cf current path = Ret r.
Proof.
  revert current path.
  induction fuel as [|fuel IH]; intros current path; simpl.
  - destruct (cf !! current) eqn:E; [discriminate|].
    intros [= <-]. destruct k; simpl; by rewrite E.
  - destruct (cf !! current) eqn:E; [apply IH | done].
Qed.

(** More fuel does not change a result of the A* search loop. *)
Lemma astar_search_loop_mono fuel rfuel k1 k2 agent goal blocked s r :
  AStar.search_loop rows cols fuel rfuel agent goal blocked s = Ret r →
  AStar.search_loop rows cols (fuel + k1) (rfuel + k2) agent goal blocked s = Ret r.
Proof.
  revert s.
  induction fuel as [|fuel IH]; intros s; simpl.
  - destruct (AStar.open_set s) eqn:E; [|discriminate].
    intros [= <-]. destruct k1; simpl; by rewrite E.
  - destruct (AStar.open_set s) as [|o os] eqn:E; [done|].
    case_decide.
    + unfold_bind.
      destruct (AStar.reconstruct rfuel _ _ _) as [p| |] eqn:R; try discriminate.
      by rewrite (astar_reconstruct_mono _ k2 _ _ _ _ R).
    + unfold_bind.
      destruct (AStar.relax _ _ _ _ _) as [s'| |]; try discriminate.
      apply IH.
Qed.

Lemma astar_plan_mono fuel k agent goal blocked r :
  AStar.plan rows cols fuel agent goal blocked = Ret r →
  AStar.plan rows cols (fuel + k) agent goal blocked = Ret r.
Proof.
  unfold AStar.plan.
  destruct (negb _); [done|].
  case_bool_decide; [done|].
  destruct (_ && _); [done|].
  unfold_bind. unfold AStar._pathfind_movement.
  destruct (AStar.search_loop _ _ fuel _ _ _ _ _) as [l| |] eqn:E; try discriminate.
  by rewrite (astar_search_loop_mono _ _ k k _ _ _ _ _ E).
Qed.

Lemma bfs_search_loop_mono fuel k goal blocked visited queue found r :
  BFS.search_loop rows cols fuel goal blocked visited queue found = Ret r →
  BFS.search_loop rows cols (fuel + k) goal blocked visited queue found = Ret r.
Proof.
  revert visited queue found.
  induction fuel as [|fuel IH]; intros visited queue found; simpl.
  - destruct queue; [intros [= <-]; by destruct k|].
    destruct found; [intros [= <-]; by destruct k | discriminate].
  - destruct queue; [done|]. destruct found; [done|].
    destruct (BFS.expand _ _ _ _ _ _) as [[v q] f]. apply IH.
Qed.

Lemma bfs_reconstruct_mono fuel k visited start current path r :
  BFS.reconstruct fuel visited start current path = Ret r →
  BFS.reconstruct (fuel + k) visited start current path = Ret r.
Proof.
  revert current path.
  induction fuel as [|fuel IH]; intros current path; simpl.
  - case_decide; [|discriminate]. intros [= <-].
    destruct k; simpl; by case_decide.
  - case_decide; [done|].
    destruct (visited !! current) as [[prev|]|]; try discriminate. apply IH.
Qed.

Lemma bfs_plan_mono fuel k agent goal blocked r :
  BFS.plan rows cols fuel agent goal blocked = Ret r →
  BFS.plan rows cols (fuel + k) agent goal blocked = Ret r.
Proof.
  unfold BFS.plan.
  destruct (negb _); [done|].
  case_bool_decide; [done|].
  unfold_bind. unfold BFS._pathfind_movement.
  case_decide; [done|]. unfold_bind.
  destruct (BFS.search_loop _ _ fuel _ _ _ _ _) as [[v f]| |] eqn:E; try discriminate.
  rewrite (bfs_search_loop_mono _ k _ _ _ _ _ _ E).
  destruct (negb f); [done|].
  destruct (BFS.reconstruct fuel _ _ _ _) as [p| |] eqn:R; try discriminate.
  by rewrite (bfs_reconstruct_mono _ k _ _ _ _ _ R).
Qed.

End PlannerFuel.

(** ** The planner: the A* search always returns *)

Lemma min_by_elem_of {A} (key : A → option Z) (best : A) (l : list A) :
  min_by key best l ∈ best :: l.
Proof.
  revert best. induction l as [|x l IH]; intros best; simpl; [set_solver|].
  destruct (key_lt _ _); [specialize (IH x) | specialize (IH best)]; set_solver.
Qed.

Lemma remove_first_elem_of `{EqDecision A} (x y : A) (l : list A) :
  x ∈ remove_first y l → x ∈ l.
Proof.
  induction l as [|z l IH]; simpl; [done|].
  case_decide; set_solver.
Qed.

Lemma remove_first_NoDup `{EqDecision A} (y : A) (l : list A) :
  NoDup l → NoDup (remove_first y l) ∧ y ∉ remove_first y l.
Proof.
  induction l as [|z l IH]; simpl; intros Hnd.
  - split; [constructor | set_solver].
  - apply NoDup_cons in Hnd as [Hz Hl].
    case_decide as Hzy.
    + subst. done.
    + destruct (IH Hl) as [IH1 IH2]. split.
      * apply NoDup_cons. split; [|done].
        intros Hin. by apply remove_first_elem_of in Hin.
      * set_solver.
Qed.

Lemma size_list_to_set_le (l : list Pos) :
  (size (list_to_set l : gset Pos) ≤ length l)%nat.
Proof.
  induction l as [|x l IH].
  - rewrite list_to_set_nil, size_empty. simpl. lia.
  - rewrite list_to_set_cons, size_union_alt, size_singleton.
    assert (Hle : (size (list_to_set l ∖ {[x]} : gset Pos)
                   ≤ size (list_to_set l : gset Pos))%nat)
      by (apply subseteq_size; set_solver).
    simpl. lia.
Qed.

Lemma elem_of_all_positions (rows cols : Z) (p : Pos) :
  p ∈ all_positions rows cols ↔ (0 ≤ p.1 < cols) ∧ (0 ≤ p.2 < rows).
Proof.
  unfold all_positions, range. destruct p as [x y]. simpl.
  rewrite list_elem_of_In, in_prod_iff, <- !list_elem_of_In, !elem_of_seqZ. lia.
Qed.

Lemma elem_of_get_neighbors (rows cols : Z) (p n : Pos) :
  n ∈ Movement._get_neighbors rows cols p → n ∈ all_positions rows cols.
Proof.
  unfold Movement._get_neighbors. rewrite list_elem_of_filter.
  intros [H _]. by apply elem_of_all_positions.
Qed.

Section AStarTotal.
Import Movement.
Variables rows cols : Z.
Variables (agent : Agent) (goal : Pos) (blocked : gset Pos).

Lemma size_universe : (size (universe rows cols agent) < planner_fuel rows cols)%nat.
Proof.
  unfold universe, planner_fuel.
  rewrite size_union_alt, size_singleton.
  pose proof (size_list_to_set_le (all_positions rows cols)) as Hl.
  assert (Hle : (size (list_to_set (all_positions rows cols) ∖ {[agent_pos agent]}
                         : gset Pos)
                 ≤ size (list_to_set (all_positions rows cols) : gset Pos))%nat)
    by (apply subseteq_size; set_solver).
  assert (Hlen : length (all_positions rows cols)
                 = (Z.to_nat cols * Z.to_nat rows)%nat).
  { unfold all_positions, range. by rewrite length_prod, !length_seqZ. }
  lia.
Qed.

Lemma record_neighbor_inv current n gc s opened :
  astar_inv rows cols agent s →
  current ∈ AStar.closed_set s →
  AStar.g_score s !! current = Some gc →
  gc < Z.of_nat (size (AStar.closed_set s)) →
  n ∉ AStar.closed_set s → n ∈ (universe rows cols agent) →
  (opened = AStar.open_set s ++ [n] ∧ n ∉ AStar.open_set s
   ∨ opened = AStar.open_set s ∧ n ∈ AStar.open_set s) →
  astar_inv rows cols agent (AStar.record_neighbor goal current n (gc + 1) s opened).
Proof.
  intros [Hnd Hdisj Hopen Hclosed Hg Hgb Hlink] Hcur Hgc Hlt Hn HnU Hop.
  assert (Hne : n ≠ current) by (intros ->; done).
  assert (Hmem : ∀ p, p ∈ opened ↔ p ∈ AStar.open_set s ∨ p = n).
  { intros p. destruct Hop as [[-> _]|[-> Hin]]; set_solver. }
  constructor; simpl.
  - destruct Hop as [[-> Hnin]|[-> _]]; [|done].
    apply NoDup_app. repeat split; [done| |apply NoDup_singleton]. set_solver.
  - intros p [Hp| ->]%Hmem; auto.
  - intros p [Hp| ->]%Hmem; auto.
  - done.
  - intros p [Hp| ->]%Hmem.
    + destruct (decide (n = p)) as [->|]; [by rewrite lookup_insert_eq|].
      rewrite lookup_insert_ne by done. auto.
    + by rewrite lookup_insert_eq.
  - intros p g. destruct (decide (n = p)) as [->|].
    + rewrite lookup_insert_eq. intros [= <-].
      specialize (Hgb _ _ Hgc). lia.
    + rewrite lookup_insert_ne by done. apply Hgb.
  - intros c p. destruct (decide (n = c)) as [->|].
    + rewrite lookup_insert_eq. intros [= <-]. split; [done|].
      exists (gc + 1), gc. rewrite lookup_insert_eq, lookup_insert_ne by done.
      repeat split; [done|lia].
    + rewrite lookup_insert_ne by done. intros Hl.
      destruct (Hlink _ _ Hl) as [Hp (g1 & g2 & H1 & H2 & H3)].
      split; [done|]. exists g1, g2.
      rewrite !lookup_insert_ne; [done|set_solver|done].
Qed.

Lemma relax_total current gc ns s :
  astar_inv rows cols agent s →
  current ∈ AStar.closed_set s →
  AStar.g_score s !! current = Some gc →
  gc < Z.of_nat (size (AStar.closed_set s)) →
  (∀ n, n ∈ ns → n ∈ (universe rows cols agent)) →
  ∃ s', AStar.relax goal current blocked ns s = Ret s'
        ∧ astar_inv rows cols agent s' ∧ AStar.closed_set s' = AStar.closed_set s.
Proof.
  revert s. induction ns as [|n ns IH]; intros s Hinv Hcur Hgc Hlt Hns; simpl.
  - by exists s.
  - assert (Hns' : ∀ n, n ∈ ns → n ∈ (universe rows cols agent)) by set_solver.
    assert (HnU : n ∈ (universe rows cols agent)) by set_solver.
    destruct (bool_decide (n ∈ AStar.closed_set s)) eqn:Hc; simpl;
      [by apply IH|].
    apply bool_decide_eq_false in Hc.
    destruct (bool_decide (n ∈ blocked)); simpl; [by apply IH|].
    rewrite Hgc.
    assert (Hne : n ≠ current) by (intros ->; done).
    assert (Hstep : ∀ opened,
      (opened = AStar.open_set s ++ [n] ∧ n ∉ AStar.open_set s
       ∨ opened = AStar.open_set s ∧ n ∈ AStar.open_set s) →
      ∃ s', AStar.relax goal current blocked ns
              (AStar.record_neighbor goal current n (gc + 1) s opened) = Ret s'
            ∧ astar_inv rows cols agent s' ∧ AStar.closed_set s' = AStar.closed_set s).
    { intros opened Hop.
      destruct (IH (AStar.record_neighbor goal current n (gc + 1) s opened))
        as (s' & Hs' & Hinv' & Hcl'); simpl; auto.
      - by apply record_neighbor_inv.
      - by rewrite lookup_insert_ne.
      - by exists s'. }
    case_bool_decide as Hin.
    + apply Hstep. by left.
    + destruct (AStar.g_score s !! n) as [gn|] eqn:Hgn.
      * destruct (gn <=? gc + 1); [by apply IH|].
        apply Hstep. by right.
      * apply Hstep. by right.
Qed.

Lemma astar_reconstruct_total s fuel current path :
  astar_inv rows cols agent s →
  (∀ gc, AStar.g_score s !! current = Some gc → gc < Z.of_nat fuel) →
  ∃ r, AStar.reconstruct fuel (AStar.came_from s) current path = Ret r.
Proof.
  intros Hinv. revert current path.
  induction fuel as [|fuel IH]; intros current path Hg; simpl.
  - destruct (AStar.came_from s !! current) as [prev|] eqn:E; [|by eexists].
    destruct (inv_link _ _ _ _ Hinv _ _ E) as [_ (g1 & g2 & H1 & H2 & H3)].
    specialize (Hg _ H1). pose proof (inv_gb _ _ _ _ Hinv _ _ H2). lia.
  - destruct (AStar.came_from s !! current) as [prev|] eqn:E; [|by eexists].
    apply IH. intros gp Hgp.
    destruct (inv_link _ _ _ _ Hinv _ _ E) as [_ (g1 & g2 & H1 & H2 & H3)].
    specialize (Hg _ H1). simplify_eq. lia.
Qed.

Lemma astar_search_loop_total fuel rfuel s :
  astar_inv rows cols agent s →
  (size ((universe rows cols agent) ∖ AStar.closed_set s) < fuel)%nat →
  (size (universe rows cols agent) < rfuel)%nat →
  ∃ l, AStar.search_loop rows cols fuel rfuel agent goal blocked s = Ret l.
Proof.
  revert s. induction fuel as [|fuel IH]; intros s Hinv Hsz Hr; [lia|].
  simpl. destruct (AStar.open_set s) as [|o os] eqn:Hopen; [by eexists|].
  set (current := min_by _ o os).
  assert (Hcur : current ∈ AStar.open_set s).
  { rewrite Hopen. apply min_by_elem_of. }
  clearbody current.
  case_decide as Hgoal.
  - unfold_bind.
    destruct (astar_reconstruct_total s rfuel current [] Hinv) as [r ->].
    + intros gc Hgc. pose proof (inv_gb _ _ _ _ Hinv _ _ Hgc) as Hb.
      pose proof (subseteq_size _ _ (inv_closed _ _ _ _ Hinv)). lia.
    + destruct (reverse r); by eexists.
  - unfold_bind.
    destruct (inv_g _ _ _ _ Hinv _ Hcur) as [gc Hgc].
    pose proof (inv_disj _ _ _ _ Hinv _ Hcur) as Hnc.
    pose proof (inv_open _ _ _ _ Hinv _ Hcur) as HcU.
    assert (Hsize : size (AStar.closed_set s ∪ {[current]})
                    = S (size (AStar.closed_set s))).
    { rewrite size_union, size_singleton by set_solver. lia. }
    destruct (remove_first_NoDup current _ (inv_nodup _ _ _ _ Hinv)) as [Hnd' Hnin'].
    rewrite <- Hopen.
    edestruct (relax_total current gc (_get_neighbors rows cols current))
      as (s' & -> & Hinv' & Hcl'); simpl.
    + destruct Hinv as [Hnd Hdisj Ho Hc Hg Hgb Hlink].
      constructor; simpl.
      * done.
      * intros p Hp. pose proof (remove_first_elem_of _ _ _ Hp) as Hp'.
        specialize (Hdisj _ Hp'). set_solver.
      * intros p Hp. apply Ho. by eapply remove_first_elem_of.
      * set_solver.
      * intros p Hp. apply Hg. by eapply remove_first_elem_of.
      * intros p g Hp. rewrite Hsize. specialize (Hgb _ _ Hp). lia.
      * intros c p Hl. destruct (Hlink _ _ Hl) as [? ?]. split; [set_solver|done].
    + set_solver.
    + done.
    + rewrite Hsize. pose proof (inv_gb _ _ _ _ Hinv _ _ Hgc). lia.
    + intros n Hn%elem_of_get_neighbors. unfold universe. set_solver.
    + apply IH; [done| |done].
      rewrite Hcl'. simpl in *.
      assert (size ((universe rows cols agent) ∖ (AStar.closed_set s ∪ {[current]}))
              < size ((universe rows cols agent) ∖ AStar.closed_set s))%nat; [|lia].
      apply subset_size. set_solver.
Qed.

(** With [planner_fuel] the A* planner returns: it neither runs out of
    fuel nor raises. *)
Lemma astar_plan_total fuel :
  (planner_fuel rows cols ≤ fuel)%nat →
  ∃ l, AStar.plan rows cols fuel agent goal blocked = Ret l.
Proof.
  intros Hfuel. unfold AStar.plan.
  destruct (negb _); [by eexists|].
  case_bool_decide; [by eexists|].
  destruct (_ && _); [by eexists|].
  unfold_bind. unfold AStar._pathfind_movement.
  pose proof size_universe as Hsz.
  edestruct (astar_search_loop_total fuel fuel) as [l ->]; simpl.
  - constructor; simpl.
    + apply NoDup_singleton.
    + set_solver.
    + unfold universe. set_solver.
    + set_solver.
    + intros p ->%list_elem_of_singleton. by rewrite lookup_singleton_eq.
    + intros p g [_ <-]%lookup_singleton_Some. lia.
    + intros c p. by rewrite lookup_empty.
  - assert (size ((universe rows cols agent) ∖ ∅) ≤ size (universe rows cols agent))%nat
      by (apply subseteq_size; set_solver).
    lia.
  - lia.
  - destruct l; [by eexists|]. destruct (_validate_action_sequence _ _ _ _ _); by eexists.
Qed.

End AStarTotal.

(** ** The planner: the goal checks *)

Section GoalChecks.
Import Movement.

Lemma astar_search_needs_fuel rows cols agent goal blocked :
  AStar._pathfind_movement rows cols 0 agent goal blocked = OutOfFuel.
Proof. reflexivity. Qed.

Lemma direct_movement_at_goal agent :
  AStar._direct_movement agent (agent_pos agent) = [].
Proof.
  unfold AStar._direct_movement, agent_pos. simpl.
  rewrite !Z.sub_diag. reflexivity.
Qed.

Lemma direct_path_clear_at_goal p blocked :
  AStar._is_direct_path_clear p p blocked = true.
Proof.
  destruct p as [x y]. unfold AStar._is_direct_path_clear.
  repeat case_decide; done.
Qed.

End GoalChecks.

(** C8.  In both strategies, [calculate_movement] returns the empty
    sequence when the goal cell is outside the grid or in the blocked set.
    It does so whatever the fuel, also with fuel 0, with which no iteration
    of a search loop can run: no search is attempted. *)
Theorem goal_invalid_or_blocked_returns_empty
    (fuel : nat) (m : Mover) (env : Env) (states : option (gmap Z AgentState))
    (agent : Agent) (goal : Pos) :
  Movement._is_position_valid (mover_rows m) (mover_cols m) goal = false
  ∨ goal ∈ ShelfHelper.get_blocked_positions (shelf_helper m) env states agent →
  AStar.calculate_movement fuel m env states agent goal = Ret []
  ∧ BFS.calculate_movement fuel m env states agent goal = Ret []
  ∧ AStar.calculate_movement 0 m env states agent goal = Ret []
  ∧ BFS.calculate_movement 0 m env states agent goal = Ret [].
Proof.
  intros H.
  unfold AStar.calculate_movement, BFS.calculate_movement, AStar.plan, BFS.plan.
  destruct H as [-> | H]; simpl; [done|].
  destruct (Movement._is_position_valid _ _ _); simpl; [|done].
  by rewrite bool_decide_eq_true_2.
Qed.

Lemma goal_invalid_or_blocked_returns_empty_witness :
  AStar.calculate_movement 5 (Mover_init Worlds.detour_env) Worlds.detour_env
    (Some Worlds.detour_states) Worlds.walker (1, 0) = Ret []
  ∧ BFS.calculate_movement 5 (Mover_init Worlds.detour_env) Worlds.detour_env
      (Some Worlds.detour_states) Worlds.walker (1, 0) = Ret []
  ∧ AStar.calculate_movement 0 (Mover_init Worlds.detour_env) Worlds.detour_env
      (Some Worlds.detour_states) Worlds.walker (1, 0) = Ret []
  ∧ BFS.calculate_movement 0 (Mover_init Worlds.detour_env) Worlds.detour_env
      (Some Worlds.detour_states) Worlds.walker (1, 0) = Ret [].
Proof.
  apply (goal_invalid_or_blocked_returns_empty 5 (Mover_init Worlds.detour_env)
           Worlds.detour_env (Some Worlds.detour_states) Worlds.walker (1, 0)).
  right. vm_compute. reflexivity.
Defined.

(** C10.  In both strategies, when the goal cell is inside the grid, not
    blocked, and is the cell the agent stands on, [calculate_movement]
    returns the empty sequence, the value that also stands for "no path". *)
Theorem at_goal_returns_empty
    (fuel : nat) (m : Mover) (env : Env) (states : option (gmap Z AgentState))
    (agent : Agent) (goal : Pos) :
  Movement._is_position_valid (mover_rows m) (mover_cols m) goal = true →
  goal ∉ ShelfHelper.get_blocked_positions (shelf_helper m) env states agent →
  goal = agent_pos agent →
  AStar.calculate_movement fuel m env states agent goal = Ret []
  ∧ BFS.calculate_movement fuel m env states agent goal = Ret [].
Proof.
  intros Hvalid Hfree ->.
  unfold AStar.calculate_movement, BFS.calculate_movement, AStar.plan, BFS.plan.
  rewrite Hvalid, bool_decide_eq_false_2 by done.
  rewrite direct_path_clear_at_goal, direct_movement_at_goal.
  unfold BFS._pathfind_movement. rewrite decide_True by done.
  split; reflexivity.
Qed.

Lemma at_goal_returns_empty_witness :
  AStar.calculate_movement 0 (Mover_init Worlds.detour_env) Worlds.detour_env
    (Some Worlds.detour_states) Worlds.walker (0, 0) = Ret []
  ∧ BFS.calculate_movement 0 (Mover_init Worlds.detour_env) Worlds.detour_env
      (Some Worlds.detour_states) Worlds.walker (0, 0) = Ret [].
Proof.
  apply (at_goal_returns_empty 0 (Mover_init Worlds.detour_env)
           Worlds.detour_env (Some Worlds.detour_states) Worlds.walker (0, 0)).
  - reflexivity.
  - vm_compute. intros H. discriminate H.
  - reflexivity.
Defined.

(** The value for "no path": a goal behind a wall of shelves gives the
    empty sequence in both strategies, with any fuel from [planner_fuel]. *)
Example unreachable_goal_returns_empty (k : nat) :
  AStar.calculate_movement (planner_fuel 3 3 + k) (Mover_init Worlds.walled_env)
    Worlds.walled_env (Some Worlds.walled_states) Worlds.loaded (2, 2) = Ret []
  ∧ BFS.calculate_movement (planner_fuel 3 3 + k) (Mover_init Worlds.walled_env)
      Worlds.walled_env (Some Worlds.walled_states) Worlds.loaded (2, 2) = Ret [].
Proof.
  split.
  - apply astar_plan_mono. vm_compute. reflexivity.
  - apply bfs_plan_mono. vm_compute. reflexivity.
Qed.

(** ** The planner: what a returned sequence does *)

Section Replay.
Import Movement.
Variables rows cols : Z.

(** The validation accepts a sequence exactly when every cell its replay
    enters is inside the grid and not blocked. *)
Lemma validate_from_replay p d actions blocked :
  validate_from rows cols p d actions blocked = true ↔
  ∀ c, c ∈ replay_cells p d actions →
       _is_position_valid rows cols c = true ∧ c ∉ blocked.
Proof.
  revert p d. induction actions as [|a actions IH]; intros p d; simpl.
  - split; [|done]. intros _ c Hc. by apply elem_of_nil in Hc.
  - destruct a; simpl; try apply IH.
    destruct (_is_position_valid rows cols (ahead p d)) eqn:Hv; simpl.
    + case_bool_decide as Hb.
      * split; [done|]. intros H.
        destruct (H (ahead p d)) as [_ Hn]; [left|]. done.
      * rewrite IH. split.
        -- intros H c [->|Hc]%elem_of_cons; auto.
        -- intros H c Hc. apply H. by right.
    + split; [done|]. intros H.
      destruct (H (ahead p d)) as [Hn _]; [left|]. congruence.
Qed.

(** Whatever the A* strategy returns replays inside the grid and off the
    blocked cells. *)
Lemma astar_plan_safe fuel agent goal blocked actions :
  AStar.plan rows cols fuel agent goal blocked = Ret actions →
  ∀ c, c ∈ replay_cells (agent_pos agent) (agent_dir agent) actions →
       _is_position_valid rows cols c = true ∧ c ∉ blocked.
Proof.
  unfold AStar.plan.
  assert (Hnil : ∀ c : Pos, c ∈ replay_cells (agent_pos agent) (agent_dir agent) [] →
            _is_position_valid rows cols c = true ∧ c ∉ blocked).
  { intros c Hc. by apply elem_of_nil in Hc. }
  destruct (negb _); [by intros [= <-]|].
  case_bool_decide; [by intros [= <-]|].
  destruct (AStar._is_direct_path_clear _ _ _); simpl.
  - destruct (_validate_action_sequence _ _ _ _ _) eqn:Hv.
    + intros [= <-]. by apply validate_from_replay.
    + unfold_bind. destruct (AStar._pathfind_movement _ _ _ _ _ _) as [l| |];
        try discriminate.
      destruct l as [|a l]; [by intros [= <-]|].
      destruct (_validate_action_sequence _ _ _ (a :: l) _) eqn:Hv';
        intros [= <-]; [by apply validate_from_replay | done].
  - unfold_bind. destruct (AStar._pathfind_movement _ _ _ _ _ _) as [l| |];
      try discriminate.
    destruct l as [|a l]; [by intros [= <-]|].
    destruct (_validate_action_sequence _ _ _ (a :: l) _) eqn:Hv';
      intros [= <-]; [by apply validate_from_replay | done].
Qed.

(** Whatever the BFS strategy returns replays inside the grid and off the
    blocked cells. *)
Lemma bfs_plan_safe fuel agent goal blocked actions :
  BFS.plan rows cols fuel agent goal blocked = Ret actions →
  ∀ c, c ∈ replay_cells (agent_pos agent) (agent_dir agent) actions →
       _is_position_valid rows cols c = true ∧ c ∉ blocked.
Proof.
  unfold BFS.plan.
  assert (Hnil : ∀ c : Pos, c ∈ replay_cells (agent_pos agent) (agent_dir agent) [] →
            _is_position_valid rows cols c = true ∧ c ∉ blocked).
  { intros c Hc. by apply elem_of_nil in Hc. }
  destruct (negb _); [by intros [= <-]|].
  case_bool_decide; [by intros [= <-]|].
  unfold_bind. destruct (BFS._pathfind_movement _ _ _ _ _ _) as [l| |];
    try discriminate.
  destruct l as [|a l]; [by intros [= <-]|].
  destruct (_validate_action_sequence _ _ _ (a :: l) _) eqn:Hv';
    intros [= <-]; [by apply validate_from_replay | done].
Qed.

End Replay.

(** C1 (the code at the failing input).  Agent 0 at (0,0) facing RIGHT,
    another agent on (1,0), goal (2,1) on a 3 by 3 grid.  The direct path is
    not clear, so the A* strategy searches; the path it rebuilds runs from
    the start to the cell before the goal, and the returned sequence,
    non-empty and accepted by the validation, ends on (1,1).  The BFS
    strategy returns a sequence that ends on the goal (2,1). *)
Theorem astar_search_stops_one_cell_short (k : nat) :
  let fuel := (planner_fuel 3 3 + k)%nat in
  let m := Mover_init Worlds.detour_env in
  let short := [Action.RIGHT; Action.FORWARD; Action.LEFT; Action.FORWARD] in
  let full := [Action.RIGHT; Action.FORWARD; Action.LEFT; Action.FORWARD;
               Action.FORWARD] in
  AStar.calculate_movement fuel m Worlds.detour_env (Some Worlds.detour_states)
    Worlds.walker (2, 1) = Ret short
  ∧ Movement.replay_end (0, 0) Direction.RIGHT short = ((1, 1), Direction.RIGHT)
  ∧ BFS.calculate_movement fuel m Worlds.detour_env (Some Worlds.detour_states)
      Worlds.walker (2, 1) = Ret full
  ∧ Movement.replay_end (0, 0) Direction.RIGHT full = ((2, 1), Direction.RIGHT).
Proof.
  intros fuel m short full. split; [|split; [|split]].
  - apply astar_plan_mono. vm_compute. reflexivity.
  - reflexivity.
  - apply bfs_plan_mono. vm_compute. reflexivity.
  - reflexivity.
Qed.

(** C2 (the code at the failing input).  Agent 0 stands on (0,0), the cell
    of shelf 7, in state charging and carrying nothing, so its own cell is
    in its blocked set; the goal is the free neighbour (1,0).  The A*
    strategy finds the direct path not clear, searches, rebuilds the path
    [[start]] and reports no path; the BFS strategy returns [[FORWARD]]. *)
Theorem strategies_disagree_next_to_blocked_start (k : nat) :
  let fuel := (planner_fuel 3 3 + k)%nat in
  let m := Mover_init Worlds.under_env in
  (0, 0) ∈ ShelfHelper.get_blocked_positions (shelf_helper m) Worlds.under_env
             (Some Worlds.under_states) Worlds.low_agent
  ∧ AStar.calculate_movement fuel m Worlds.under_env (Some Worlds.under_states)
      Worlds.low_agent (1, 0) = Ret []
  ∧ BFS.calculate_movement fuel m Worlds.under_env (Some Worlds.under_states)
      Worlds.low_agent (1, 0) = Ret [Action.FORWARD].
Proof.
  intros fuel m. split; [|split].
  - vm_compute. reflexivity.
  - apply astar_plan_mono. vm_compute. reflexivity.
  - apply bfs_plan_mono. vm_compute. reflexivity.
Qed.

(** ** The blocked cells *)

Lemma elem_of_obstacle_cells (env : Env) (p : Pos) :
  p ∈ ShelfHelper.obstacle_cells (obstacles env) ↔ is_obstacle env p.
Proof.
  unfold ShelfHelper.obstacle_cells, is_obstacle.
  rewrite elem_of_list_to_set, list_elem_of_In, in_concat.
  setoid_rewrite <- list_elem_of_In. split.
  - intros (l & Hl & Hp).
    apply list_elem_of_lookup in Hl as [j Hj].
    rewrite list_lookup_imap in Hj.
    destruct (obstacles env !! j) as [row|] eqn:Hrow; [|done].
    simpl in Hj. injection Hj as <-.
    apply list_elem_of_omap in Hp as ([i b] & Hib & Hsome).
    apply list_elem_of_lookup in Hib as [i' Hi'].
    rewrite list_lookup_imap in Hi'.
    destruct (row !! i') as [b'|] eqn:Hb; [|done].
    simpl in Hi'. injection Hi' as <- <-. simpl in Hsome.
    destruct b'; [|done]. injection Hsome as <-.
    by exists i', j, row.
  - intros (i & j & row & Hrow & Hb & ->).
    exists (omap (λ xb : nat * bool,
                    if xb.2 then Some (Z.of_nat xb.1, Z.of_nat j) else None)
                 (imap pair row)).
    split.
    + apply list_elem_of_lookup. exists j.
      by rewrite list_lookup_imap, Hrow.
    + apply list_elem_of_omap. exists (i, true). split; [|done].
      apply list_elem_of_lookup. exists i.
      by rewrite list_lookup_imap, Hb.
Qed.

Lemma elem_of_other_agent_cells (env : Env) (agent : Agent) (p : Pos) :
  p ∈ ShelfHelper.other_agent_cells env agent ↔ other_agent_at env agent p.
Proof.
  unfold ShelfHelper.other_agent_cells, other_agent_at.
  rewrite elem_of_list_to_set, list_elem_of_fmap.
  setoid_rewrite list_elem_of_filter. naive_solver.
Qed.

(** C4 (amended).  [get_blocked_positions] always holds every obstacle cell
    and the cell of every other agent.  For an agent in deliver,
    return_shelf or charging that carries a shelf, it holds every cell of
    the shelf-location table (the shelf cells recorded when the helper was
    built) except the cell recorded for the carried shelf in the shelf
    memory, its original cell, which is then blocked only if an obstacle or
    another agent is there.  For an agent in seek_shelf it holds nothing
    but obstacle cells and other agents' cells. *)
Theorem blocked_positions_by_state
    (h : ShelfHelper.t) (env : Env) (states : option (gmap Z AgentState))
    (agent : Agent) :
  let blocked := ShelfHelper.get_blocked_positions h env states agent in
  let state := ShelfHelper.current_state states agent in
  (∀ p, is_obstacle env p → p ∈ blocked)
  ∧ (∀ p, other_agent_at env agent p → p ∈ blocked)
  ∧ (∀ sid, state ∈ [Some deliver; Some return_shelf; Some charging] →
            carrying_shelf agent = Some sid →
            let home := default (-1, -1) (ShelfHelper.shelf_memory h !! sid) in
            (∀ p, p ∈ ShelfHelper.shelf_locations h → p ≠ home → p ∈ blocked)
            ∧ (home ∈ blocked →
               is_obstacle env home ∨ other_agent_at env agent home))
  ∧ (state = Some seek_shelf →
     ∀ p, p ∈ blocked → is_obstacle env p ∨ other_agent_at env agent p).
Proof.
  intros blocked state. subst blocked state.
  unfold ShelfHelper.get_blocked_positions.
  split; [|split; [|split]].
  - intros p Hp. apply (proj2 (elem_of_obstacle_cells env p)) in Hp.
    by apply elem_of_union_l, elem_of_union_l.
  - intros p Hp. apply (proj2 (elem_of_other_agent_cells env agent p)) in Hp.
    by apply elem_of_union_l, elem_of_union_r.
  - intros sid Hstate Hcarry.
    assert (Hb : ShelfHelper.blocks_shelves
                   (ShelfHelper.current_state states agent) = true).
    { destruct (ShelfHelper.current_state states agent) as [[]|];
        try reflexivity; exfalso; set_solver. }
    unfold ShelfHelper.shelf_cells. rewrite Hb, Hcarry. split.
    + intros p Hp Hne. apply elem_of_union_r, elem_of_filter. done.
    + rewrite !elem_of_union, elem_of_filter, elem_of_obstacle_cells,
        elem_of_other_agent_cells.
      intros [[?|?]|[? ?]]; auto. done.
  - intros Hstate p. unfold ShelfHelper.shelf_cells. rewrite Hstate. simpl.
    rewrite !elem_of_union, elem_of_obstacle_cells, elem_of_other_agent_cells.
    intros [[?|?]|[]%elem_of_empty]; auto.
Qed.

(** C4 as stated fails.  Agent 0, in deliver, carries shelf 1 and stands
    with it on (0,0); the helper was built when shelf 1 was on (1,1) and
    shelf 2 on (0,0).  The cell the carried shelf is on now, (0,0), is
    blocked although no obstacle and no other agent is there, and the shelf
    cell (1,1), which is not the carried shelf's current cell, is not
    blocked. *)
Lemma carried_shelf_current_cell_blocked :
  let h := ShelfHelper.init Worlds.shelves_at_home in
  let blocked :=
    ShelfHelper.get_blocked_positions h Worlds.shelves_moved
      (Some Worlds.carrier_states) Worlds.carrier in
  ShelfHelper.current_state (Some Worlds.carrier_states) Worlds.carrier = Some deliver
  ∧ carrying_shelf Worlds.carrier = Some 1
  ∧ shelf_cell_now Worlds.shelves_moved 1 = Some (0, 0)
  ∧ (0, 0) ∈ blocked
  ∧ (0, 0) ∉ ShelfHelper.obstacle_cells (obstacles Worlds.shelves_moved)
  ∧ (0, 0) ∉ ShelfHelper.other_agent_cells Worlds.shelves_moved Worlds.carrier
  ∧ (1, 1) ∈ ShelfHelper.shelf_locations h
  ∧ (1, 1) ∉ blocked.
Proof.
  intros h blocked.
  split; [reflexivity|]. split; [reflexivity|]. split; [reflexivity|].
  split; [vm_compute; reflexivity|].
  split; [vm_compute; intros H; discriminate H|].
  split; [vm_compute; intros H; discriminate H|].
  split; [vm_compute; reflexivity|].
  vm_compute; intros H; discriminate H.
Qed.

(** ** The reservation ledger: the expiry purge *)

Lemma elem_of_expired (st : Controller.St) (k : Z) :
  k ∈ Controller.expired st ↔
  ∃ step, Controller.shelf_reservation_time st !! k = Some step
          ∧ 20 ≤ Controller.current_step st - step.
Proof.
  unfold Controller.expired. rewrite list_elem_of_fmap. split.
  - intros ([k' step] & -> & [H1 H2%elem_of_map_to_list]%list_elem_of_filter).
    by exists step.
  - intros (step & H1 & H2). exists (k, step). split; [done|].
    apply list_elem_of_filter. split; [done|]. by apply elem_of_map_to_list.
Qed.

Lemma NoDup_expired (st : Controller.St) : NoDup (Controller.expired st).
Proof.
  unfold Controller.expired.
  eapply NoDup_fmap_fst.
  - intros k x y [_ Hx%elem_of_map_to_list]%list_elem_of_filter
                  [_ Hy%elem_of_map_to_list]%list_elem_of_filter.
    congruence.
  - apply NoDup_filter, NoDup_map_to_list.
Qed.

(** Deleting a list of distinct keys that both dictionaries hold: no
    [KeyError], the keys are gone, every other entry and every other field
    of the controller stay. *)
Lemma purge_fold (l : list Z) (st : Controller.St) :
  NoDup l →
  (∀ k, k ∈ l → is_Some (Controller.reserved_shelves st !! k)
                ∧ is_Some (Controller.shelf_reservation_time st !! k)) →
  ∃ st', foldl Controller.purge_one (Ret st) l = Ret st'
    ∧ (∀ k, Controller.reserved_shelves st' !! k =
            if decide (k ∈ l) then None else Controller.reserved_shelves st !! k)
    ∧ (∀ k, Controller.shelf_reservation_time st' !! k =
            if decide (k ∈ l) then None
            else Controller.shelf_reservation_time st !! k)
    ∧ Controller.current_step st' = Controller.current_step st
    ∧ Controller.agent_states st' = Controller.agent_states st.
Proof.
  revert st. induction l as [|k l IH]; intros st Hnd Hin; simpl.
  - exists st. repeat split; intros; by rewrite decide_False by set_solver.
  - apply NoDup_cons in Hnd as [Hk Hnd].
    destruct (Hin k) as [[a Ha] [b Hb]]; [set_solver|].
    unfold_bind. rewrite Ha, Hb.
    edestruct (IH (Controller.set_shelf_reservation_time
                     (delete k (Controller.shelf_reservation_time st))
                     (Controller.set_reserved_shelves
                        (delete k (Controller.reserved_shelves st)) st)))
      as (st' & Hst' & Hr & Ht & Hc & Hs); [done| |].
    + intros k' Hk'. simpl. rewrite !lookup_delete_ne by set_solver.
      apply Hin. set_solver.
    + exists st'. split; [done|]. simpl in *. repeat split; [| |done|done].
      * intros k'. rewrite Hr. destruct (decide (k' = k)) as [->|Hne].
        -- rewrite lookup_delete_eq.
           rewrite (decide_True (P := k ∈ k :: l)) by set_solver.
           by destruct (decide (k ∈ l)).
        -- rewrite lookup_delete_ne by done.
           destruct (decide (k' ∈ l)).
           ++ by rewrite decide_True by set_solver.
           ++ by rewrite decide_False by set_solver.
      * intros k'. rewrite Ht. destruct (decide (k' = k)) as [->|Hne].
        -- rewrite lookup_delete_eq.
           rewrite (decide_True (P := k ∈ k :: l)) by set_solver.
           by destruct (decide (k ∈ l)).
        -- rewrite lookup_delete_ne by done.
           destruct (decide (k' ∈ l)).
           ++ by rewrite decide_True by set_solver.
           ++ by rewrite decide_False by set_solver.
Qed.

(** *** What the agent loop does to the ledger

    Only the seek_shelf block writes the ledger: it stamps the selected
    shelf with the current step and releases the shelf it picks up or
    finds too heavy.  Every other block leaves both dictionaries and the
    step counter as they were. *)

Lemma same_ledger_refl st : same_ledger st st.
Proof. done. Qed.

Lemma same_ledger_trans st1 st2 st3 :
  same_ledger st1 st2 → same_ledger st2 st3 → same_ledger st1 st3.
Proof. unfold same_ledger. intros (?&?&?) (?&?&?). repeat split; congruence. Qed.

Lemma bind_ret {A B} (m : outcome A) (k : A → outcome B) (b : B) :
  (m ≫= k) = Ret b → ∃ a, m = Ret a ∧ k a = Ret b.
Proof. destruct m; unfold_bind; [eauto|done..]. Qed.

Lemma keep_tail_ledger id l st : same_ledger st (Controller.keep_tail id l st).
Proof. by destruct l. Qed.

Section LedgerFrames.
Variable fuel : nat.
Variable cfg : Controller.Config.
Variable env : Env.
Variable agent : Agent.

Lemma get_waiting_area_ledger st area st' :
  Controller._get_waiting_area cfg agent st = Ret (area, st') → same_ledger st st'.
Proof.
  unfold Controller._get_waiting_area. intros H.
  repeat case_match; simplify_eq; done.
Qed.

Lemma no_task_block_ledger st r st' :
  Controller.no_task_block fuel cfg env agent st = Ret (r, st') → same_ledger st st'.
Proof.
  unfold Controller.no_task_block. intros H.
  apply bind_ret in H as (state & _ & H).
  cbv zeta in H.
  match type of H with context [if ?c then ?a else st] =>
    assert (H1 : same_ledger st (if c then a else st)) by (by destruct c);
    generalize dependent (if c then a else st) end.
  intros st1 H H1.
  apply bind_ret in H as (state' & _ & H).
  case_decide; [|by simplify_eq].
  case_match; [by simplify_eq|].
  apply bind_ret in H as ([area st2] & Hw%get_waiting_area_ledger & H).
  case_decide; [by simplify_eq; eapply same_ledger_trans|].
  apply bind_ret in H as (l & _ & H). simplify_eq.
  eapply same_ledger_trans; [exact H1|].
  eapply same_ledger_trans; [exact Hw|].
  eapply same_ledger_trans; [|apply keep_tail_ledger].
  by repeat case_match.
Qed.


Lemma store_pre_charging_state_ledger st st' :
  Controller._store_pre_charging_state cfg agent st = Ret st' → same_ledger st st'.
Proof.
  unfold Controller._store_pre_charging_state, Controller.nearest_goal. intros H.
  repeat (first [ apply bind_ret in H as (? & _ & H) | case_match ]);
    simplify_eq; done.
Qed.

Lemma critical_block_ledger pct st st' :
  Controller.critical_block cfg env agent pct st = Ret st' → same_ledger st st'.
Proof.
  unfold Controller.critical_block. intros H.
  case_match; [|by simplify_eq].
  apply bind_ret in H as (state & _ & H).
  apply bind_ret in H as (st1 & E1 & H).
  assert (same_ledger st st1).
  { repeat case_match; simplify_eq; try done;
      by apply store_pre_charging_state_ledger in E1. }
  apply bind_ret in H as (station & _ & H).
  case_match; simplify_eq; [|done].
  eapply same_ledger_trans; [eassumption|]. done.
Qed.

Lemma low_block_ledger st st' :
  Controller.low_block cfg env agent st = Ret st' → same_ledger st st'.
Proof.
  unfold Controller.low_block. intros H.
  apply bind_ret in H as (needs & _ & H).
  case_match; [|by simplify_eq].
  apply bind_ret in H as (state & _ & H).
  case_decide; [|by simplify_eq].
  apply bind_ret in H as (st1 & E1%store_pre_charging_state_ledger & H).
  apply bind_ret in H as (station & _ & H).
  case_match; simplify_eq; [|done].
  eapply same_ledger_trans; [eassumption|]. done.
Qed.

Lemma battery_block_ledger st r st' :
  Controller.battery_block cfg env agent st = Ret (r, st') → same_ledger st st'.
Proof.
  unfold Controller.battery_block. intros H.
  apply bind_ret in H as (pct & _ & H).
  case_match; [by simplify_eq|].
  apply bind_ret in H as (st1 & E1%critical_block_ledger & H).
  apply bind_ret in H as (st2 & E2%low_block_ledger & H). simplify_eq.
  by eapply same_ledger_trans.
Qed.

Lemma stuck_monitor_ledger st st' :
  Controller.stuck_monitor agent st = Ret st' → same_ledger st st'.
Proof.
  unfold Controller.stuck_monitor. intros H.
  apply bind_ret in H as (st1 & E1 & H).
  assert (same_ledger st st1).
  { destruct (_ && _) in E1; [apply bind_ret in E1 as (? & _ & E1)|];
      by simplify_eq. }
  apply bind_ret in H as (st2 & E2 & H).
  assert (same_ledger st1 st2).
  { destruct (_ && _) in E2;
      [apply bind_ret in E2 as (? & _ & E2); destruct (_ && _) in E2|];
      by simplify_eq. }
  simplify_eq.
  eapply same_ledger_trans; [eassumption|].
  eapply same_ledger_trans; [eassumption|].
  by repeat case_match.
Qed.

Lemma drain_queue_ledger st r st' :
  Controller.drain_queue agent st = (r, st') → same_ledger st st'.
Proof. unfold Controller.drain_queue. intros H. repeat case_match; by simplify_eq. Qed.

Lemma resume_ledger a target st st' :
  Controller.resume fuel cfg env a target st = Ret st' → same_ledger st st'.
Proof.
  unfold Controller.resume. intros H.
  apply bind_ret in H as (l & _ & H). simplify_eq.
  eapply same_ledger_trans; [|apply keep_tail_ledger]. done.
Qed.

Lemma restore_pre_charging_state_ledger st st' :
  Controller._restore_pre_charging_state fuel cfg env agent st = Ret st' →
  same_ledger st st'.
Proof.
  unfold Controller._restore_pre_charging_state. intros H.
  case_match; [|by simplify_eq].
  apply bind_ret in H as (st1 & E1 & H). simplify_eq.
  enough (same_ledger st st1) by done.
  repeat (first [ apply bind_ret in E1 as (? & _ & E1) | case_match ]);
    simplify_eq;
    first [ done | eapply same_ledger_trans; [|apply keep_tail_ledger]; done ].
Qed.

Lemma charging_block_ledger st r st' :
  Controller.charging_block fuel cfg env agent st = Ret (r, st') → same_ledger st st'.
Proof.
  unfold Controller.charging_block. intros H.
  apply bind_ret in H as (state & _ & H).
  case_decide; [|by simplify_eq].
  case_match.
  - case_match; [|by simplify_eq].
    apply bind_ret in H as (st1 & E1%restore_pre_charging_state_ledger & H).
    by simplify_eq.
  - apply bind_ret in H as (target & _ & H).
    case_match; [|done].
    case_decide.
    + apply bind_ret in H as (taken & _ & H).
      case_match; [by simplify_eq|].
      apply bind_ret in H as (queue & _ & H).
      repeat case_match; by simplify_eq.
    + apply bind_ret in H as (l & _ & H). simplify_eq. apply keep_tail_ledger.
Qed.

End LedgerFrames.

Lemma same_ledger_step st st' : same_ledger st st' → ledger_step st st'.
Proof. intros (E1 & E2 & E3). split; [done|]. intros sid. left. by rewrite E1, E2. Qed.

Lemma ledger_step_trans st1 st2 st3 :
  ledger_step st1 st2 → ledger_step st2 st3 → ledger_step st1 st3.
Proof.
  intros [E1 H1] [E2 H2]. split; [congruence|]. intros sid.
  destruct (H2 sid) as [[F1 F2]|[[F1 F2]|[F1 F2]]].
  - rewrite F1, F2. apply H1.
  - right. left. done.
  - right. right. split; [done|]. by rewrite F2, E1.
Qed.

Lemma release_ledger sid st st' :
  Controller.release sid st = Ret st' →
  Controller.current_step st' = Controller.current_step st
  ∧ ∀ k, (Controller.reserved_shelves st' !! k = Controller.reserved_shelves st !! k
          ∧ Controller.shelf_reservation_time st' !! k
            = Controller.shelf_reservation_time st !! k)
         ∨ (Controller.reserved_shelves st' !! k = None
            ∧ Controller.shelf_reservation_time st' !! k = None).
Proof.
  unfold Controller.release. intros H.
  destruct (Controller.reserved_shelves st !! sid) eqn:E1; [|simplify_eq; auto].
  destruct (Controller.shelf_reservation_time st !! sid) eqn:E2; [|done].
  simplify_eq. split; [done|]. intros k. simpl.
  destruct (decide (k = sid)) as [->|Hne].
  - right. by rewrite !lookup_delete_eq.
  - left. by rewrite !lookup_delete_ne.
Qed.

Lemma release_step sid st0 st st' :
  ledger_step st0 st → Controller.release sid st = Ret st' → ledger_step st0 st'.
Proof.
  intros Hs [E H]%release_ledger. eapply ledger_step_trans; [exact Hs|].
  split; [done|]. intros k. destruct (H k) as [?|?]; auto.
Qed.

Section LedgerSteps.
Variable fuel : nat.
Variable cfg : Controller.Config.
Variable env : Env.
Variable agent : Agent.

Lemma seek_shelf_block_ledger st a st' :
  Controller.seek_shelf_block fuel cfg env agent st = Ret (a, st') →
  ledger_step st st'.
Proof.
  unfold Controller.seek_shelf_block. intros H. cbv zeta in H.
  apply bind_ret in H as (replan & _ & H).
  apply bind_ret in H as ([action st1] & E1 & H).
  assert (Hs : ledger_step st st1).
  { destruct replan; [|simplify_eq; by apply same_ledger_step].
    destruct (Controller.select_shelf _ _ _ _) as [shelf|];
      [|simplify_eq; by apply same_ledger_step].
    apply bind_ret in E1 as (l & _ & E1). simplify_eq.
    eapply ledger_step_trans; [|apply same_ledger_step, keep_tail_ledger].
    split; [by destruct (negb _)|]. intros sid.
    destruct (decide (sid = shelf_id shelf)) as [->|Hne].
    - right. right. destruct (negb _); simpl; by rewrite !lookup_insert_eq.
    - left. destruct (negb _); simpl; by rewrite !lookup_insert_ne. }
  destruct (Controller.closest_shelf st1) as [[shelf|]|]; [| by simplify_eq | done].
  case_bool_decide; [|by simplify_eq].
  destruct (_ <=? _).
  - apply bind_ret in H as (st2 & E2 & H). simplify_eq.
    eapply release_step; [|exact E2].
    eapply ledger_step_trans; [exact Hs|]. by apply same_ledger_step.
  - apply bind_ret in H as (st2 & E2 & H). simplify_eq.
    eapply release_step; [|exact E2].
    eapply ledger_step_trans; [exact Hs|]. by apply same_ledger_step.
Qed.

Lemma retarget_ledger id pos st st' :
  Controller.retarget id pos st = Ret st' → same_ledger st st'.
Proof. unfold Controller.retarget. intros H. repeat case_match; by simplify_eq. Qed.

Lemma deliver_block_ledger st a st' :
  Controller.deliver_block fuel cfg env agent st = Ret (a, st') → same_ledger st st'.
Proof.
  unfold Controller.deliver_block. intros H.
  apply bind_ret in H as (goal & _ & H).
  apply bind_ret in H as (st1 & E1%retarget_ledger & H).
  apply bind_ret in H as (l & _ & H).
  pose proof (keep_tail_ledger (agent_id agent) l st1) as E2.
  case_decide; simplify_eq; eapply same_ledger_trans; try eassumption;
    eapply same_ledger_trans; try eassumption; done.
Qed.

Lemma return_shelf_block_ledger st a st' :
  Controller.return_shelf_block fuel cfg env agent st = Ret (a, st') →
  same_ledger st st'.
Proof.
  unfold Controller.return_shelf_block. intros H.
  destruct (carrying_shelf agent) as [sid|]; [|by simplify_eq].
  destruct (Controller.shelf_memory cfg !! sid) as [pos|]; [|by simplify_eq].
  apply bind_ret in H as (st1 & E1%retarget_ledger & H).
  apply bind_ret in H as (l & _ & H).
  pose proof (keep_tail_ledger (agent_id agent) l st1) as E2.
  case_decide; simplify_eq; eapply same_ledger_trans; try eassumption;
    eapply same_ledger_trans; try eassumption; done.
Qed.

Lemma task_block_ledger st a st' :
  Controller.task_block fuel cfg env agent st = Ret (a, st') → ledger_step st st'.
Proof.
  unfold Controller.task_block. intros H.
  apply bind_ret in H as (state & _ & H).
  destruct state.
  - by apply seek_shelf_block_ledger in H.
  - destruct (carrying_shelf agent);
      [by apply deliver_block_ledger, same_ledger_step in H
      |simplify_eq; by apply same_ledger_step].
  - by apply return_shelf_block_ledger, same_ledger_step in H.
  - simplify_eq; by apply same_ledger_step.
  - simplify_eq; by apply same_ledger_step.
Qed.

Lemma process_agent_ledger st a st' :
  Controller.process_agent fuel cfg env agent st = Ret (a, st') → ledger_step st st'.
Proof.
  unfold Controller.process_agent. intros H.
  apply bind_ret in H as ([done st1] & E1%no_task_block_ledger & H).
  assert (Hs1 : ledger_step st st1) by (apply same_ledger_step, E1).
  destruct done as [action|]; [by simplify_eq|].
  unfold Controller.check_battery_and_act in H.
  apply bind_ret in H as ([done st2] & E2%battery_block_ledger & H).
  eapply ledger_step_trans; [exact Hs1|].
  eapply ledger_step_trans; [apply same_ledger_step, E2|].
  destruct done as [action|]; [simplify_eq; by apply same_ledger_step|].
  unfold Controller.monitor_and_act in H.
  apply bind_ret in H as (st3 & E3%stuck_monitor_ledger & H).
  eapply ledger_step_trans; [apply same_ledger_step, E3|].
  destruct (Controller.drain_queue agent st3) as [done st4] eqn:E4.
  apply drain_queue_ledger in E4.
  eapply ledger_step_trans; [apply same_ledger_step, E4|].
  destruct done as [action|]; [simplify_eq; by apply same_ledger_step|].
  apply bind_ret in H as ([done st5] & E5%charging_block_ledger & H).
  eapply ledger_step_trans; [apply same_ledger_step, E5|].
  destruct done as [action|]; [simplify_eq; by apply same_ledger_step|].
  by eapply task_block_ledger.
Qed.

End LedgerSteps.

Lemma agent_loop_ledger fuel cfg env todo st actions st' :
  Controller.agent_loop fuel cfg env todo st = Ret (actions, st') →
  ledger_step st st'.
Proof.
  revert st actions st'. induction todo as [|agent todo IH]; intros st actions st' H.
  - simpl in H. simplify_eq. by apply same_ledger_step.
  - cbn [Controller.agent_loop] in H.
    apply bind_ret in H as ([a st1] & E1%process_agent_ledger & H).
    apply bind_ret in H as ([l st2] & E2%IH & H). simplify_eq.
    by eapply ledger_step_trans.
Qed.

Lemma agent_loop_app fuel cfg env before after st :
  Controller.agent_loop fuel cfg env (before ++ after) st
  = ('(acts, st1) ← Controller.agent_loop fuel cfg env before st;
     '(rest, st2) ← Controller.agent_loop fuel cfg env after st1;
     Ret (acts ++ rest, st2)).
Proof.
  revert st. induction before as [|agent before IH]; intros st.
  - simpl. unfold_bind.
    by destruct (Controller.agent_loop fuel cfg env after st) as [[??]| |].
  - cbn [app Controller.agent_loop].
    destruct (Controller.process_agent fuel cfg env agent st) as [[a st1]| |];
      unfold_bind; [|done..].
    rewrite IH. unfold_bind.
    destruct (Controller.agent_loop fuel cfg env before st1) as [[l st2]| |];
      [|done..].
    by destruct (Controller.agent_loop fuel cfg env after st2) as [[??]| |].
Qed.

Lemma ledger_step_dom st st' :
  ledger_step st st' →
  dom (Controller.reserved_shelves st) = dom (Controller.shelf_reservation_time st) →
  dom (Controller.reserved_shelves st')
  = dom (Controller.shelf_reservation_time st').
Proof.
  intros [_ H] Hdom. apply set_eq. intros k. rewrite !elem_of_dom.
  destruct (H k) as [[F1 F2]|[[F1 F2]|[F1 F2]]]; rewrite ?F1, ?F2.
  - rewrite <- !elem_of_dom. by rewrite Hdom.
  - by rewrite !is_Some_alt.
  - split; [by eexists | done].
Qed.

(** C5 (amended).  [get_actions] on a ledger whose two dictionaries hold
    the same shelves.  The purge succeeds and removes from both
    dictionaries exactly the entries with [current_step - created >= 20];
    the agent loop starts from the purged ledger.  At the start of the
    iteration of every agent ([before] are the agents processed so far),
    and when the pass returns ([after] is empty), the step counter is
    unchanged, both dictionaries hold the same shelves and every entry
    satisfies [current_step - created < 20].  A shelf whose entry was
    purged is seen as reserved only through an entry created at the
    current step, by an agent processed earlier in the pass; the first
    agent of the pass does not see it as reserved. *)
Theorem purge_expired_ttl
    (fuel : nat) (cfg : Controller.Config) (env : Env) (st : Controller.St) :
  dom (Controller.reserved_shelves st) = dom (Controller.shelf_reservation_time st) →
  ∃ st1,
    Controller.purge_expired st = Ret st1
    ∧ (∀ sid step, Controller.shelf_reservation_time st !! sid = Some step →
                   Controller.current_step st - step < 20 →
                   Controller.shelf_reservation_time st1 !! sid = Some step
                   ∧ Controller.reserved_shelves st1 !! sid
                     = Controller.reserved_shelves st !! sid)
    ∧ (∀ sid step, Controller.shelf_reservation_time st !! sid = Some step →
                   20 ≤ Controller.current_step st - step →
                   Controller.shelf_reservation_time st1 !! sid = None
                   ∧ Controller.reserved_shelves st1 !! sid = None)
    ∧ ∀ before after acts st_k,
        agents env = before ++ after →
        Controller.agent_loop fuel cfg env before
          (Controller.set_closest_shelf None
             (Controller.set_metrics
                (Metrics.record_total_steps (Controller.metrics st1)) st1))
        = Ret (acts, st_k) →
        Controller.get_actions fuel cfg env st
        = ('(rest, st') ← Controller.agent_loop fuel cfg env after st_k;
           Ret (acts ++ rest, st'))
        ∧ Controller.current_step st_k = Controller.current_step st
        ∧ dom (Controller.reserved_shelves st_k)
          = dom (Controller.shelf_reservation_time st_k)
        ∧ (∀ sid step, Controller.shelf_reservation_time st_k !! sid = Some step →
                       Controller.current_step st_k - step < 20)
        ∧ (∀ sid step,
             Controller.shelf_reservation_time st !! sid = Some step →
             20 ≤ Controller.current_step st - step →
             (Controller.shelf_reservation_time st_k !! sid
              = Some (Controller.current_step st)
              ∨ ∀ agent shelf, shelf_id shelf = sid →
                  Controller.reserved_by_other st_k agent shelf = false)
             ∧ (before = [] →
                ∀ agent shelf, shelf_id shelf = sid →
                  Controller.reserved_by_other st_k agent shelf = false)).
Proof.
  intros Hdom. unfold Controller.get_actions, Controller.purge_expired.
  destruct (purge_fold (Controller.expired st) st) as (st1 & -> & Hr & Ht & Hc & _).
  { apply NoDup_expired. }
  { intros k (step & Hk & _)%elem_of_expired. split; [|by eexists].
    apply elem_of_dom. rewrite Hdom. apply elem_of_dom. by eexists. }
  exists st1. split; [done|].
  assert (Hexp : ∀ sid step,
            Controller.shelf_reservation_time st !! sid = Some step →
            20 ≤ Controller.current_step st - step →
            sid ∈ Controller.expired st).
  { intros sid step H1 H2. apply elem_of_expired. by exists step. }
  assert (Hlive : ∀ sid step,
            Controller.shelf_reservation_time st !! sid = Some step →
            Controller.current_step st - step < 20 →
            sid ∉ Controller.expired st).
  { intros sid step H1 H2 (step' & H3 & H4)%elem_of_expired. simplify_eq. lia. }
  assert (Hdom1 : dom (Controller.reserved_shelves st1)
                  = dom (Controller.shelf_reservation_time st1)).
  { apply set_eq. intros k. rewrite !elem_of_dom, Hr, Ht.
    case_decide; [by rewrite !is_Some_alt|].
    rewrite <- !elem_of_dom. by rewrite Hdom. }
  assert (Hfresh1 : ∀ sid step,
            Controller.shelf_reservation_time st1 !! sid = Some step →
            Controller.current_step st - step < 20).
  { intros sid step. rewrite Ht. case_decide as Hin; [done|].
    intros Hs. destruct (decide (20 ≤ Controller.current_step st - step)); [|lia].
    exfalso. eauto. }
  split; [|split].
  - intros sid step H1 H2. rewrite Hr, Ht. rewrite !decide_False by eauto. done.
  - intros sid step H1 H2. rewrite Hr, Ht. rewrite !decide_True by eauto. done.
  - intros before after acts st_k Hagents Hloop. unfold_bind.
    rewrite Hagents, agent_loop_app, Hloop. unfold_bind. split; [done|].
    pose proof (agent_loop_ledger _ _ _ _ _ _ _ Hloop) as Hstep.
    pose proof (ledger_step_dom _ _ Hstep Hdom1) as Hdomk.
    destruct Hstep as [Ec Hkeys]. simpl in Ec, Hkeys.
    split; [congruence|]. split; [done|]. split.
    + intros sid step Hs. rewrite Ec, Hc.
      destruct (Hkeys sid) as [[F1 F2]|[[F1 F2]|[F1 F2]]].
      * rewrite F2 in Hs. eauto.
      * congruence.
      * rewrite F2 in Hs. simplify_eq. lia.
    + intros sid step H1 H2.
      assert (Hnone : Controller.reserved_shelves st1 !! sid = None)
        by (rewrite Hr; by rewrite decide_True by eauto).
      split.
      * destruct (Hkeys sid) as [[F1 F2]|[[F1 F2]|[F1 F2]]].
        -- right. intros agent shelf <-. unfold Controller.reserved_by_other.
           by rewrite F1, Hnone.
        -- right. intros agent shelf <-. unfold Controller.reserved_by_other.
           by rewrite F1.
        -- left. by rewrite F2, Hc.
      * intros -> agent shelf <-. simpl in Hloop. simplify_eq.
        unfold Controller.reserved_by_other. simpl. by rewrite Hnone.
Qed.

Lemma purge_expired_ttl_witness :
  ∃ st1, Controller.purge_expired Worlds.ledger_st = Ret st1
    ∧ Controller.reserved_shelves st1 !! 5 = None
    ∧ Controller.reserved_shelves st1 !! 6 = Some 1.
Proof.
  destruct (purge_expired_ttl (planner_fuel 3 3)
              (Controller.initialize_and_verify Worlds.detour_env)
              Worlds.detour_env Worlds.ledger_st)
    as (st1 & Hp & Hlive & Hdead & _).
  { vm_compute. reflexivity. }
  exists st1. split; [exact Hp|]. split.
  - destruct (Hdead 5 0) as [_ H]; [reflexivity | vm_compute; discriminate | exact H].
  - destruct (Hlive 6 7) as [_ H]; [reflexivity | reflexivity | exact H].
Defined.

(** C5 as stated fails.  At step 20 the entry that agent 0 made for shelf
    7 at step 0 is purged.  Agent 0, processed first, is seeking with an
    empty queue: it selects shelf 7 again and reserves it, at step 20.
    Agent 1, processed next in the same pass, sees shelf 7 as reserved by
    agent 0, and its selection returns no shelf. *)
Lemma reservation_renewed_within_pass :
  Controller.reserved_shelves Worlds.renewal_st !! 7 = Some 0
  ∧ Controller.shelf_reservation_time Worlds.renewal_st !! 7 = Some 0
  ∧ Controller.current_step Worlds.renewal_st = 20
  ∧ (st1 ← Controller.purge_expired Worlds.renewal_st;
     '(a, st2) ← Controller.process_agent (planner_fuel 5 5)
                   (Controller.initialize_and_verify Worlds.pair_env)
                   Worlds.pair_env Worlds.walker
                   (Controller.set_closest_shelf None
                      (Controller.set_metrics
                         (Metrics.record_total_steps (Controller.metrics st1)) st1));
     Ret (Controller.reserved_shelves st1 !! 7,
          Controller.reserved_shelves st2 !! 7,
          Controller.shelf_reservation_time st2 !! 7,
          Controller.reserved_by_other st2 Worlds.bystander (mkShelf 7 3 3 5),
          Controller.select_shelf
            (Controller.initialize_and_verify Worlds.pair_env) Worlds.pair_env
            st2 Worlds.bystander))
    = Ret (None, Some 0, Some 20, true, None).
Proof.
  repeat split; vm_compute; reflexivity.
Qed.

(** ** The stuck and recovery monitor *)

Lemma collision_count_recovery_step (id : Z) (m : Metrics.t) :
  Metrics.collision_count (Metrics.record_recovery_step id m)
  = Metrics.collision_count m.
Proof. unfold Metrics.record_recovery_step. by destruct (default false _). Qed.

Lemma collision_count_recovery_complete (id : Z) (m : Metrics.t) :
  Metrics.collision_count (Metrics.record_recovery_complete id m)
  = Metrics.collision_count m.
Proof. unfold Metrics.record_recovery_complete. by case_bool_decide. Qed.

(** C7 (amended).  What the monitor counts is not the failed attempts: at
    every iteration it reaches, the stuck counter of the agent becomes
    [n + 1] when FORWARD is next in the agent's queue and the agent stands
    where it stood at the last step, whatever it did in that step, and 0
    otherwise.  When the new count is above 1 and the agent is not
    recovering and not in the no-task state (and, in the A* controller,
    its charging flag is off), both controllers record a collision and set
    the recovery flag; the A* controller also empties the queue, the
    baseline controller leaves the queue as it was.  In every other case,
    a new count of 1 among them, no collision is recorded, the queue is
    left as it was and the recovery flag is not set. *)
Theorem stuck_monitor_recovery_entry (agent : Agent) :
  let id := agent_id agent in
  (∀ st n state,
     Controller.stuck_count st !! id = Some n →
     Controller.agent_states st !! id = Some state →
     let count :=
       if Controller.forward_is_next id st
          && bool_decide (Controller.last_positions st !! id = Some (agent_pos agent))
       then n + 1 else 0 in
     ∃ st', Controller.stuck_monitor agent st = Ret st'
       ∧ Controller.stuck_count st' !! id = Some count
       ∧ if (1 <? count) && negb (is_charging agent)
            && negb (bool_decide (state = no_shelf_to_carry))
            && negb (default false (Controller.in_recovery st !! id))
         then
           Controller.in_recovery st' !! id = Some true
           ∧ Metrics.collision_count (Controller.metrics st')
             = Metrics.collision_count (Controller.metrics st) + 1
           ∧ Controller.last_actions st' !! id = Some []
         else
           (Controller.in_recovery st' !! id = Some true →
            Controller.in_recovery st !! id = Some true)
           ∧ Metrics.collision_count (Controller.metrics st')
             = Metrics.collision_count (Controller.metrics st)
           ∧ Controller.last_actions st' = Controller.last_actions st)
  ∧ (∀ st n state,
       Baseline.stuck_count st !! id = Some n →
       Baseline.agent_states st !! id = Some state →
       let count :=
         if Baseline.forward_is_next id st
            && bool_decide (Baseline.last_positions st !! id = Some (agent_pos agent))
         then n + 1 else 0 in
       ∃ st', Baseline.stuck_monitor agent st = Ret st'
         ∧ Baseline.stuck_count st' !! id = Some count
         ∧ Baseline.last_actions st' = Baseline.last_actions st
         ∧ if (1 <? count)
              && negb (bool_decide (state = no_shelf_to_carry))
              && negb (default false (Baseline.in_recovery st !! id))
           then
             Baseline.in_recovery st' !! id = Some true
             ∧ Metrics.collision_count (Baseline.metrics st')
               = Metrics.collision_count (Baseline.metrics st) + 1
           else
             (Baseline.in_recovery st' !! id = Some true →
              Baseline.in_recovery st !! id = Some true)
             ∧ Metrics.collision_count (Baseline.metrics st')
               = Metrics.collision_count (Baseline.metrics st)).
Proof.
  intros id. split.
  - intros st n state Hcount Hstate count. subst count.
    unfold Controller.stuck_monitor. fold id.
    destruct (Controller.forward_is_next id st) eqn:Hfwd;
      destruct (bool_decide (Controller.last_positions st !! id
                             = Some (agent_pos agent))) eqn:Hpos;
      cbn [andb negb]; unfold_bind; unfold getitem; rewrite ?Hcount;
      cbn [Controller.stuck_count Controller.set_stuck_count
           Controller.agent_states Controller.in_recovery];
      rewrite ?lookup_insert_eq, ?Hstate;
      unfold Controller.forward_is_next in *;
      destruct (is_charging agent);
      destruct (bool_decide (state = no_shelf_to_carry));
      destruct (Controller.in_recovery st !! id) as [[|]|] eqn:Hrec;
      simpl; try destruct (1 <? n + 1); simpl;
      rewrite ?lookup_insert_eq, ?Hrec; simpl;
      rewrite ?lookup_insert_eq, ?Hrec, ?Hfwd; simpl;
      (eexists; split; [reflexivity|]); simpl;
      rewrite ?lookup_insert_eq, ?collision_count_recovery_step,
        ?collision_count_recovery_complete; simpl;
      repeat split; try done; try congruence;
      apply collision_count_recovery_step.
  - intros st n state Hcount Hstate count. subst count.
    unfold Baseline.stuck_monitor. fold id.
    destruct (Baseline.forward_is_next id st) eqn:Hfwd;
      destruct (bool_decide (Baseline.last_positions st !! id
                             = Some (agent_pos agent))) eqn:Hpos;
      cbn [andb negb]; unfold_bind; unfold getitem; rewrite ?Hcount;
      cbn [Baseline.stuck_count Baseline.set_stuck_count
           Baseline.agent_states Baseline.in_recovery];
      rewrite ?lookup_insert_eq, ?Hstate;
      unfold Baseline.forward_is_next in *;
      destruct (bool_decide (state = no_shelf_to_carry));
      destruct (Baseline.in_recovery st !! id) as [[|]|] eqn:Hrec;
      simpl; try destruct (1 <? n + 1); simpl;
      rewrite ?lookup_insert_eq, ?Hrec; simpl;
      rewrite ?lookup_insert_eq, ?Hrec, ?Hfwd; simpl;
      (eexists; split; [reflexivity|]); simpl;
      rewrite ?lookup_insert_eq, ?collision_count_recovery_step,
        ?collision_count_recovery_complete; simpl;
      repeat split; try done; try congruence;
      apply collision_count_recovery_step.
Qed.

(** ** The agent loop: the no-task branch and the battery checks *)

Section AgentStep.
Variable fuel : nat.
Variable cfg : Controller.Config.
Variable env : Env.
Variable agent : Agent.
Let id := agent_id agent.

(** An agent that is delivering, returning or charging, or for which some
    shelf can be carried, passes the no-task branch; only a no-task state is
    changed, to seek_shelf. *)
Lemma no_task_block_passes (st : Controller.St) (state : AgentState) :
  Controller.agent_states st !! id = Some state →
  state ∈ [deliver; return_shelf; charging]
  ∨ Controller._can_carry_any_shelf env st agent = true →
  Controller.no_task_block fuel cfg env agent st
  = Ret (None,
         if decide (state = no_shelf_to_carry)
         then Controller.set_agent_states
                (<[id := seek_shelf]> (Controller.agent_states st)) st
         else st).
Proof.
  intros Hstate Hpass. unfold Controller.no_task_block. fold id.
  unfold_bind. unfold getitem. rewrite Hstate.
  assert (negb (bool_decide (state ∈ [deliver; return_shelf; charging]))
          && negb (Controller._can_carry_any_shelf env st agent) = false) as ->.
  { destruct Hpass as [H| ->].
    - by rewrite bool_decide_eq_true_2.
    - by rewrite andb_false_r. }
  rewrite Hstate. case_decide as Hno; [|done].
  destruct Hpass as [H| ->]; [|done].
  subst state. exfalso. set_solver.
Qed.

(** The positive half of C9: an agent that passes the no-task branch with
    an empty battery is given NOOP, and a battery failure is recorded. *)
Lemma depleted_agent_with_task_is_frozen
    (st : Controller.St) (state : AgentState) (pct : Num.t) :
  Controller.agent_states st !! id = Some state →
  state ∈ [deliver; return_shelf; charging]
  ∨ Controller._can_carry_any_shelf env st agent = true →
  battery_pct env agent = Ret pct →
  Num.le (battery_level agent) (Num.PyInt 0) = true →
  ∃ st', Controller.process_agent fuel cfg env agent st = Ret (Action.NOOP, st')
    ∧ Metrics.battery_failures (Controller.metrics st')
      = Metrics.battery_failures (Controller.metrics st) + 1
    ∧ id ∈ Metrics.discharged_agents (Controller.metrics st')
    ∧ Controller.agent_states st' !! id = Some (unparked state).
Proof.
  intros Hstate Hpass Hpct Hlevel. unfold Controller.process_agent.
  rewrite (no_task_block_passes _ state) by done.
  unfold_bind. unfold Controller.check_battery_and_act, Controller.battery_block.
  rewrite Hpct. unfold_bind. rewrite Hlevel.
  eexists. split; [reflexivity|]. unfold unparked.
  case_decide; simpl; rewrite ?lookup_insert_eq; repeat split; try done;
    set_solver.
Qed.

End AgentStep.

(** C9 (the code at the failing input).  Agent 0 has an empty battery and
    no shelf it can carry (the only requested shelf is too heavy); it is not
    on its waiting area (0,1).  The no-task branch, which comes before the
    battery check in the loop, plans the way to the waiting area and ends
    the iteration: the controller emits FORWARD, records no battery failure
    and lists no discharged agent. *)
Theorem depleted_agent_without_task_moves :
  let cfg := Controller.initialize_and_verify Worlds.idle_env in
  let st := Controller.initial_state Worlds.idle_env in
  Num.le (battery_level Worlds.depleted) (Num.PyInt 0) = true
  ∧ (λ r : Action.t * Controller.St,
       (r.1,
        Controller.agent_states r.2 !! 0,
        Metrics.battery_failures (Controller.metrics r.2),
        bool_decide (0 ∈ Metrics.discharged_agents (Controller.metrics r.2))))
    <$> Controller.process_agent (planner_fuel 5 5) cfg Worlds.idle_env
          Worlds.depleted st
    = Ret (Action.FORWARD, Some no_shelf_to_carry, 0, false).
Proof.
  intros cfg st. split; [reflexivity|]. vm_compute. reflexivity.
Qed.

(** ** The choice of a charging station *)

Section Sorting.
Context {A : Type} (key : A → Z).

Lemma elem_of_insert_by (x y : A) (l : list A) :
  y ∈ insert_by key x l ↔ y = x ∨ y ∈ l.
Proof.
  induction l as [|z l IH]; simpl.
  - set_solver.
  - destruct (key x <=? key z); [set_solver|].
    rewrite !elem_of_cons, IH. tauto.
Qed.

Lemma elem_of_sort_by_key (y : A) (l : list A) :
  y ∈ sort_by_key key l ↔ y ∈ l.
Proof.
  induction l as [|z l IH]; simpl; [done|].
  rewrite elem_of_insert_by, elem_of_cons, IH. done.
Qed.

Lemma insert_by_sorted (x : A) (l : list A) :
  StronglySorted (λ a b, key a ≤ key b) l →
  StronglySorted (λ a b, key a ≤ key b) (insert_by key x l).
Proof.
  induction 1 as [|z l Hl IH Hz]; simpl.
  - repeat constructor.
  - destruct (key x <=? key z) eqn:E.
    + apply Z.leb_le in E. constructor; [by constructor|].
      constructor; [done|]. eapply Forall_impl; [exact Hz|].
      simpl. intros. lia.
    + apply Z.leb_gt in E. constructor; [done|].
      apply Forall_forall. intros t [->|Ht]%elem_of_insert_by; [lia|].
      by eapply Forall_forall in Hz.
Qed.

Lemma sort_by_key_sorted (l : list A) :
  StronglySorted (λ a b, key a ≤ key b) (sort_by_key key l).
Proof.
  induction l; simpl; [constructor | by apply insert_by_sorted].
Qed.

Lemma find_sorted_least (P : A → bool) (l : list A) (s : A) :
  StronglySorted (λ a b, key a ≤ key b) l →
  find P l = Some s →
  P s = true ∧ s ∈ l ∧ ∀ t, t ∈ l → P t = true → key s ≤ key t.
Proof.
  induction 1 as [|z l Hl IH Hz]; simpl; [done|].
  destruct (P z) eqn:E.
  - intros [= <-]. split; [done|]. split; [left|].
    intros t [->|Ht]%elem_of_cons _; [lia|].
    by eapply Forall_forall in Hz.
  - intros Hf. destruct (IH Hf) as (H1 & H2 & H3).
    split; [done|]. split; [by right|].
    intros t [->|Ht]%elem_of_cons Hp; [congruence|]. auto.
Qed.

Lemma find_none (P : A → bool) (l : list A) :
  find P l = None → ∀ t, t ∈ l → P t = false.
Proof.
  induction l as [|z l IH]; simpl; [intros _ t Ht; by apply elem_of_nil in Ht|].
  destruct (P z) eqn:E; [done|].
  intros Hf t [->|Ht]%elem_of_cons; auto.
Qed.

Lemma head_sorted_least (l : list A) (s : A) :
  StronglySorted (λ a b, key a ≤ key b) l →
  head l = Some s →
  s ∈ l ∧ ∀ t, t ∈ l → key s ≤ key t.
Proof.
  destruct 1 as [|z l Hl Hz]; simpl; [done|].
  intros [= <-]. split; [left|].
  intros t [->|Ht]%elem_of_cons; [lia|]. by eapply Forall_forall in Hz.
Qed.

End Sorting.

(** The search for a station returns when every battery percentage can
    be computed. *)
Lemma any_vacating_total (env : Env) (l : list Agent) :
  (∀ o, o ∈ l → ∃ pct, battery_pct env o = Ret pct) →
  ∃ b, Controller.any_vacating env l = Ret b.
Proof.
  induction l as [|o l IH]; intros Hl; simpl; [by eexists|].
  destruct (Hl o) as [pct ->]; [left|]. unfold_bind.
  destruct (Num.gt pct _); [by eexists|].
  apply IH. intros o' Ho'. apply Hl. by right.
Qed.

Lemma station_free_or_vacating_total (env : Env) (station : Pos) :
  batteries_readable env →
  ∃ b, Controller.station_free_or_vacating env station = Ret b.
Proof.
  intros Hread. unfold Controller.station_free_or_vacating.
  destruct (filter _ _) as [|o l] eqn:E; [by eexists|].
  apply any_vacating_total. intros o' Ho'. apply Hread.
  rewrite <- E in Ho'. by apply list_elem_of_filter in Ho' as [_ ?].
Qed.

Lemma first_station_total (env : Env) (pos : Pos) (l : list Pos) :
  batteries_readable env →
  ∃ r, Controller.first_station env pos l = Ret r.
Proof.
  intros Hread. induction l as [|s l IH]; simpl; [by eexists|].
  case_bool_decide; [done|].
  destruct (station_free_or_vacating_total env s Hread) as [b ->].
  unfold_bind. destruct b; [by eexists | done].
Qed.

(** What the station loop returns on a list sorted by distance. *)
Lemma first_station_spec (env : Env) (pos : Pos) (key : Pos → Z)
    (l : list Pos) (r : option Pos) :
  StronglySorted (λ a b, key a ≤ key b) l →
  (∀ t, t ∈ l → t ≠ pos) →
  Controller.first_station env pos l = Ret r →
  match r with
  | Some s =>
      s ∈ l
      ∧ Controller.station_free_or_vacating env s = Ret true
      ∧ ∀ t, t ∈ l → Controller.station_free_or_vacating env t = Ret true →
             key s ≤ key t
  | None => ∀ t, t ∈ l → Controller.station_free_or_vacating env t = Ret false
  end.
Proof.
  induction 1 as [|z l Hl IH Hz]; simpl; intros Hne.
  - intros [= <-]. intros t Ht. by apply elem_of_nil in Ht.
  - rewrite bool_decide_eq_false_2
      by (intros E; apply (Hne z); [left | congruence]).
    destruct (Controller.station_free_or_vacating env z) as [[|]| |] eqn:E;
      unfold_bind; try done.
    + intros [= <-]. split; [left|]. split; [done|].
      intros t [->|Ht]%elem_of_cons _; [lia|]. by eapply Forall_forall in Hz.
    + intros Hr. specialize (IH (λ t Ht, Hne t (list_elem_of_further _ _ _ Ht)) Hr).
      destruct r as [s|].
      * destruct IH as (H1 & H2 & H3). split; [by right|]. split; [done|].
        intros t [->|Ht]%elem_of_cons Hfree; [congruence | auto].
      * intros t [->|Ht]%elem_of_cons; auto.
Qed.

(** What [_get_closest_charging_station] returns: a station other than the
    agent's cell; it is the nearest of the stations that are empty or hold
    an agent above 90%, or, when there is none, the nearest station. *)
Lemma closest_charging_station_spec
    (cfg : Controller.Config) (env : Env) (agent : Agent) (station : Pos) :
  Controller._get_closest_charging_station cfg env agent = Ret (Some station) →
  station ≠ agent_pos agent
  ∧ agent_pos agent ∉ Controller.charging_stations cfg
  ∧ nearest_eligible_station cfg env agent station.
Proof.
  unfold Controller._get_closest_charging_station, nearest_eligible_station.
  case_bool_decide as Hhere; [done|].
  set (key := λ st : Pos, manhattan st (agent_pos agent)).
  pose proof (sort_by_key_sorted key (Controller.charging_stations cfg)) as Hsorted.
  assert (Hne : ∀ t, t ∈ Controller.charging_stations cfg → t ≠ agent_pos agent)
    by (intros t Ht ->; done).
  destruct (Controller.first_station _ _ _) as [r| |] eqn:Hfirst; unfold_bind;
    try done.
  apply (first_station_spec env (agent_pos agent) key) in Hfirst;
    [|done|by intros t Ht%elem_of_sort_by_key; apply Hne].
  destruct r as [s|].
  - intros [= ->]. destruct Hfirst as (Hin & Hfree & Hleast).
    apply elem_of_sort_by_key in Hin.
    split; [auto|]. split; [done|]. split; [done|]. left. split; [done|].
    intros t Ht. apply Hleast. by apply elem_of_sort_by_key.
  - intros [= Hhead].
    destruct (head_sorted_least key _ _ Hsorted Hhead) as (Hin & Hleast).
    apply elem_of_sort_by_key in Hin.
    split; [auto|]. split; [done|]. split; [done|]. right.
    intros t Ht. split.
    + apply Hfirst. by apply elem_of_sort_by_key.
    + apply Hleast. by apply elem_of_sort_by_key.
Qed.

(** ** Entering the charging state *)

Section ChargingEntry.
Variable fuel : nat.
Variable cfg : Controller.Config.
Variable env : Env.
Variable agent : Agent.
Let id := agent_id agent.

Hypothesis fuel_enough :
  (planner_fuel (mover_rows (Controller.shelf_mover cfg))
                (mover_cols (Controller.shelf_mover cfg)) ≤ fuel)%nat.

Lemma plan_to_total (st : Controller.St) (goal : Pos) :
  ∃ l, Controller.plan_to fuel cfg env st agent goal = Ret l.
Proof.
  unfold Controller.plan_to, AStar.calculate_movement.
  by apply astar_plan_total.
Qed.

(** [_store_pre_charging_state] writes one record and nothing else. *)
Lemma store_pre_charging_state_spec (st : Controller.St) (state : AgentState) :
  Controller.agent_states st !! id = Some state →
  Controller.goal_locations cfg ≠ [] →
  ∃ data,
    Controller._store_pre_charging_state cfg agent st
    = Ret (Controller.set_pre_charging_data
             (<[id := data]> (Controller.pre_charging_data st)) st)
    ∧ snapshot_of cfg agent st state data.
Proof.
  intros Hstate Hgoals.
  unfold Controller._store_pre_charging_state, snapshot_of. fold id.
  unfold_bind. unfold getitem. rewrite Hstate.
  unfold Controller.nearest_goal.
  destruct (Controller.goal_locations cfg) as [|g gs]; [done|].
  destruct (Controller.agent_targets st !! id) as [[tgt|]|] eqn:Htgt;
    [|eexists; split; [reflexivity|]; simpl; repeat split; intros; congruence..].
  destruct state; simpl;
    try (eexists; split; [reflexivity|]; simpl; repeat split; intros; congruence).
  - destruct (carrying_shelf agent) as [sid|] eqn:Hc;
      (eexists; split; [reflexivity|]); simpl; repeat split;
      intros; simplify_eq; eauto.
  - destruct (carrying_shelf agent) as [sid|] eqn:Hc;
      [destruct (Controller.shelf_memory cfg !! sid) as [origin|] eqn:Hm|];
      (eexists; split; [reflexivity|]); simpl; repeat split;
      intros; simplify_eq; eauto.
Qed.

(** The rest of the iteration for an agent that has just been sent to a
    station: it plans the way there; task state, target, ledger and saved
    context are not touched again. *)
Lemma monitor_and_act_towards_station (st : Controller.St) (station : Pos) :
  is_charging agent = false →
  station ≠ agent_pos agent →
  Controller.agent_states st !! id = Some charging →
  Controller.agent_targets st !! id = Some (Some (Controller.mkTarget None station)) →
  Controller.last_actions st !! id = Some [] →
  ∃ a st', Controller.monitor_and_act fuel cfg env agent st = Ret (a, st')
    ∧ Controller.agent_states st' = Controller.agent_states st
    ∧ Controller.agent_targets st' = Controller.agent_targets st
    ∧ Controller.reserved_shelves st' = Controller.reserved_shelves st
    ∧ Controller.shelf_reservation_time st' = Controller.shelf_reservation_time st
    ∧ Controller.pre_charging_data st' = Controller.pre_charging_data st.
Proof.
  intros Hch Hne Hstate Htarget Hqueue.
  unfold Controller.monitor_and_act, Controller.stuck_monitor. fold id.
  assert (Hfwd : ∀ st0, Controller.last_actions st0 = Controller.last_actions st →
                        Controller.forward_is_next id st0 = false).
  { intros st0 E. unfold Controller.forward_is_next. by rewrite E, Hqueue. }
  rewrite Hfwd by done. unfold_bind. simpl.
  rewrite lookup_insert_eq. simpl.
  destruct (bool_decide (Controller.in_recovery st !! id = Some true)) eqn:Hrec;
    simpl;
    rewrite Hfwd by done; rewrite andb_false_r;
    unfold Controller.drain_queue; simpl; fold id; rewrite Hqueue;
    unfold Controller.charging_block; fold id; simpl;
    unfold_bind; unfold getitem; simpl; rewrite Hstate, Htarget; simpl;
    rewrite Hch; rewrite decide_False by (simpl; congruence);
    match goal with |- context [Controller.plan_to ?f ?c ?e ?s ?a ?g] =>
      destruct (plan_to_total s g) as [l ->] end;
    (do 2 eexists; split; [reflexivity|]);
    destruct l; simpl; auto.
Qed.

(** Lines 371-374 leave the agent charging, targeted at the station, with
    an empty queue. *)
Lemma go_charge_spec (station : Pos) (st : Controller.St) :
  let st' := Controller.go_charge id station st in
  Controller.agent_states st' !! id = Some charging
  ∧ Controller.agent_targets st' !! id
    = Some (Some (Controller.mkTarget None station))
  ∧ Controller.last_actions st' !! id = Some []
  ∧ Controller.reserved_shelves st' = Controller.reserved_shelves st
  ∧ Controller.shelf_reservation_time st' = Controller.shelf_reservation_time st
  ∧ Controller.pre_charging_data st' = Controller.pre_charging_data st.
Proof. simpl. by rewrite !lookup_insert_eq. Qed.

End ChargingEntry.

(** ** The battery tests *)

(** [_needs_charging] recomputes the percentage of line 352. *)
Lemma needs_charging_of_pct (env : Env) (agent : Agent) (pct : Num.t) :
  battery_pct env agent = Ret pct →
  Controller._needs_charging env agent
  = Ret (Num.lt pct Controller.low_battery_threshold).
Proof. intros H. unfold Controller._needs_charging. by rewrite H. Qed.

Lemma needs_charging_inv (env : Env) (agent : Agent) (b : bool) :
  Controller._needs_charging env agent = Ret b →
  ∃ pct, battery_pct env agent = Ret pct
         ∧ Num.lt pct Controller.low_battery_threshold = b.
Proof.
  unfold Controller._needs_charging.
  destruct (battery_pct env agent) as [pct| |]; unfold_bind; [|done..].
  intros [= <-]. by exists pct.
Qed.

(** A percentage that is not below 20 is not below 10. *)
Lemma not_low_not_critical (pct : Num.t) :
  Num.lt pct Controller.low_battery_threshold = false →
  Num.lt pct Controller.critical_battery_threshold = false.
Proof.
  unfold Num.lt, Num.compare, Controller.low_battery_threshold,
    Controller.critical_battery_threshold.
  cbn [Num.value_of].
  destruct (Num.value_of pct) as [| |m e|]; try done.
  set (k := 2 ^ (0 - Z.min e 0)). set (a := m * 2 ^ (e - Z.min e 0)).
  assert (0 ≤ k) by (apply Z.pow_nonneg; lia). clearbody k a.
  destruct (Z.compare_spec a (20 * k)); destruct (Z.compare_spec a (10 * k));
    try done; lia.
Qed.

Section BatteryBlocks.
Variable fuel : nat.
Variable cfg : Controller.Config.
Variable env : Env.
Variable agent : Agent.
Let id := agent_id agent.

Hypothesis fuel_enough :
  (planner_fuel (mover_rows (Controller.shelf_mover cfg))
                (mover_cols (Controller.shelf_mover cfg)) ≤ fuel)%nat.
Hypothesis not_charging : is_charging agent = false.
Hypothesis goals_exist : Controller.goal_locations cfg ≠ [].
Variable station : Pos.
Hypothesis station_found :
  Controller._get_closest_charging_station cfg env agent = Ret (Some station).

Lemma critical_block_spec (st : Controller.St) (state : AgentState) (pct : Num.t) :
  Controller.agent_states st !! id = Some state →
  Num.lt pct Controller.critical_battery_threshold = true →
  ∃ st', Controller.critical_block cfg env agent pct st = Ret st'
    ∧ sent_to_station agent station st st'
    ∧ (state = charging ∨ (∀ tgt, Controller.agent_targets st !! id ≠ Some (Some tgt)) →
       Controller.pre_charging_data st' = Controller.pre_charging_data st)
    ∧ (state ≠ charging →
       ∀ tgt, Controller.agent_targets st !! id = Some (Some tgt) →
       ∃ data, Controller.pre_charging_data st'
               = <[id := data]> (Controller.pre_charging_data st)
               ∧ snapshot_of cfg agent st state data).
Proof.
  intros Hstate Hcrit. unfold Controller.critical_block, sent_to_station. fold id.
  rewrite Hcrit, not_charging. simpl. unfold_bind. unfold getitem. simpl.
  rewrite Hstate, station_found.
  case_decide as Hs.
  - destruct (Controller.agent_targets st !! id) as [[tgt|]|] eqn:Htgt.
    + destruct (store_pre_charging_state_spec cfg agent
                  (Controller.set_metrics
                     (Metrics.record_critical_battery (Controller.metrics st)) st)
                  state) as (data & -> & Hsnap); [done..|].
      eexists. split; [reflexivity|]. simpl. rewrite !lookup_insert_eq.
      split; [done|]. split.
      * intros [->|Hno]; [done|]. by destruct (Hno tgt).
      * intros _ tgt' [= <-]. exists data. split; [done|].
        unfold snapshot_of in *. simpl in Hsnap. fold id in Hsnap |- *. done.
    + eexists. split; [reflexivity|]. simpl. rewrite !lookup_insert_eq.
      split; [done|]. split; [done|]. intros _ tgt. done.
    + eexists. split; [reflexivity|]. simpl. rewrite !lookup_insert_eq.
      split; [done|]. split; [done|]. intros _ tgt. done.
  - subst state.
    eexists. split; [reflexivity|]. simpl. rewrite !lookup_insert_eq.
    split; [done|]. split; [done|]. done.
Qed.

Lemma critical_block_skip (st : Controller.St) (pct : Num.t) :
  Num.lt pct Controller.critical_battery_threshold = false →
  Controller.critical_block cfg env agent pct st = Ret st.
Proof. intros H. unfold Controller.critical_block. by rewrite H. Qed.

Lemma low_block_skip (st : Controller.St) (b : bool) :
  Controller._needs_charging env agent = Ret b →
  Controller.agent_states st !! id = Some charging →
  Controller.low_block cfg env agent st = Ret st.
Proof.
  intros Hb H. unfold Controller.low_block. fold id. rewrite Hb. unfold_bind.
  destruct (_ && _); [|done]. unfold getitem. rewrite H.
  by rewrite decide_False by (intros ?; done).
Qed.

Lemma low_block_pass (st : Controller.St) :
  Controller._needs_charging env agent = Ret false →
  Controller.low_block cfg env agent st = Ret st.
Proof. intros Hb. unfold Controller.low_block. by rewrite Hb. Qed.

(** An agent with a battery above 0 that is not low passes the battery
    checks unchanged. *)
Lemma battery_block_passes (st : Controller.St) :
  Num.le (battery_level agent) (Num.PyInt 0) = false →
  Controller._needs_charging env agent = Ret false →
  Controller.battery_block cfg env agent st = Ret (None, st).
Proof.
  intros Hlevel Hlow. unfold Controller.battery_block.
  destruct (needs_charging_inv env agent false Hlow) as (pct & -> & Hpct).
  unfold_bind. rewrite Hlevel.
  rewrite critical_block_skip by (by apply not_low_not_critical).
  by rewrite low_block_pass.
Qed.

Lemma low_block_spec (st : Controller.St) (state : AgentState) :
  Controller.agent_states st !! id = Some state →
  state ≠ charging →
  Controller._needs_charging env agent = Ret true →
  ∃ st' data, Controller.low_block cfg env agent st = Ret st'
    ∧ sent_to_station agent station st st'
    ∧ Controller.pre_charging_data st'
      = <[id := data]> (Controller.pre_charging_data st)
    ∧ snapshot_of cfg agent st state data.
Proof.
  intros Hstate Hs Hlow. unfold Controller.low_block, sent_to_station. fold id.
  rewrite Hlow. unfold_bind. rewrite not_charging. simpl. unfold getitem.
  rewrite Hstate. rewrite decide_True by done.
  destruct (store_pre_charging_state_spec cfg agent
              (Controller.set_metrics
                 (Metrics.record_low_battery (Controller.metrics st)) st)
              state) as (data & -> & Hsnap); [done..|].
  rewrite station_found.
  eexists. exists data. split; [reflexivity|]. simpl. rewrite !lookup_insert_eq.
  split; [done|]. split; [done|].
  unfold snapshot_of in *. simpl in Hsnap. fold id in Hsnap |- *. done.
Qed.

(** The iteration of an agent whose battery is critical, from the battery
    check on. *)
Lemma critical_entry (st : Controller.St) (state : AgentState) (pct : Num.t) :
  Controller.agent_states st !! id = Some state →
  battery_pct env agent = Ret pct →
  Num.le (battery_level agent) (Num.PyInt 0) = false →
  Num.lt pct Controller.critical_battery_threshold = true →
  ∃ a st', Controller.check_battery_and_act fuel cfg env agent st = Ret (a, st')
    ∧ Controller.agent_states st' !! id = Some charging
    ∧ Controller.agent_targets st' !! id
      = Some (Some (Controller.mkTarget None station))
    ∧ Controller.reserved_shelves st' = Controller.reserved_shelves st
    ∧ Controller.shelf_reservation_time st' = Controller.shelf_reservation_time st
    ∧ (state = charging ∨ (∀ tgt, Controller.agent_targets st !! id ≠ Some (Some tgt)) →
       Controller.pre_charging_data st' = Controller.pre_charging_data st)
    ∧ (state ≠ charging →
       ∀ tgt, Controller.agent_targets st !! id = Some (Some tgt) →
       ∃ data, Controller.pre_charging_data st'
               = <[id := data]> (Controller.pre_charging_data st)
               ∧ snapshot_of cfg agent st state data).
Proof.
  intros Hstate Hpct Hlevel Hcrit.
  unfold Controller.check_battery_and_act, Controller.battery_block.
  rewrite Hpct. unfold_bind. rewrite Hlevel.
  destruct (critical_block_spec st state pct Hstate Hcrit)
    as (st1 & -> & (H1 & H2 & H3 & H4 & H5) & Hp1 & Hp2).
  rewrite (low_block_skip st1 _ (needs_charging_of_pct _ _ _ Hpct) H1).
  destruct (closest_charging_station_spec _ _ _ _ station_found)
    as (Hne & _).
  destruct (monitor_and_act_towards_station fuel cfg env agent fuel_enough st1 station)
    as (a & st' & -> & E1 & E2 & E3 & E4 & E5); [done..|].
  exists a, st'. split; [done|].
  rewrite E1, E2, E3, E4, E5. repeat split; auto; congruence.
Qed.

(** The iteration of an agent whose battery is low but not critical, from
    the battery check on. *)
Lemma low_entry (st : Controller.St) (state : AgentState) (pct : Num.t) :
  Controller.agent_states st !! id = Some state →
  state ≠ charging →
  battery_pct env agent = Ret pct →
  Num.le (battery_level agent) (Num.PyInt 0) = false →
  Num.lt pct Controller.critical_battery_threshold = false →
  Num.lt pct Controller.low_battery_threshold = true →
  ∃ a st' data, Controller.check_battery_and_act fuel cfg env agent st = Ret (a, st')
    ∧ Controller.agent_states st' !! id = Some charging
    ∧ Controller.agent_targets st' !! id
      = Some (Some (Controller.mkTarget None station))
    ∧ Controller.reserved_shelves st' = Controller.reserved_shelves st
    ∧ Controller.shelf_reservation_time st' = Controller.shelf_reservation_time st
    ∧ Controller.pre_charging_data st'
      = <[id := data]> (Controller.pre_charging_data st)
    ∧ snapshot_of cfg agent st state data.
Proof.
  intros Hstate Hs Hpct Hlevel Hcrit Hlow.
  unfold Controller.check_battery_and_act, Controller.battery_block.
  rewrite Hpct. unfold_bind. rewrite Hlevel.
  rewrite (critical_block_skip st pct Hcrit).
  assert (Hneeds : Controller._needs_charging env agent = Ret true)
    by (by rewrite (needs_charging_of_pct _ _ _ Hpct), Hlow).
  destruct (low_block_spec st state Hstate Hs Hneeds)
    as (st1 & data & -> & (H1 & H2 & H3 & H4 & H5) & Hp & Hsnap).
  destruct (closest_charging_station_spec _ _ _ _ station_found)
    as (Hne & _).
  destruct (monitor_and_act_towards_station fuel cfg env agent fuel_enough st1 station)
    as (a & st' & -> & E1 & E2 & E3 & E4 & E5); [done..|].
  exists a, st', data. split; [done|].
  rewrite E1, E2, E3, E4, E5. do 5 (split; [done|]). done.
Qed.

End BatteryBlocks.

(** ** The agent loop, iteration by iteration *)

Section Iteration.
Variable fuel : nat.
Variable cfg : Controller.Config.
Variable env : Env.
Variable agent : Agent.
Let id := agent_id agent.

(** An agent that is not parked goes on to the battery checks, in a state
    that differs from the one at the start in the movement metrics and,
    for a no-task agent, in the task state. *)
Lemma process_agent_unparked (st : Controller.St) (state : AgentState) :
  Controller.agent_states st !! id = Some state →
  state ∈ [deliver; return_shelf; charging]
  ∨ Controller._can_carry_any_shelf env st agent = true →
  ∃ st1, Controller.process_agent fuel cfg env agent st
         = Controller.check_battery_and_act fuel cfg env agent st1
    ∧ Controller.agent_states st1 !! id = Some (unparked state)
    ∧ Controller.agent_targets st1 = Controller.agent_targets st
    ∧ Controller.last_actions st1 = Controller.last_actions st
    ∧ Controller.reserved_shelves st1 = Controller.reserved_shelves st
    ∧ Controller.shelf_reservation_time st1 = Controller.shelf_reservation_time st
    ∧ Controller.current_step st1 = Controller.current_step st
    ∧ Controller.pre_charging_data st1 = Controller.pre_charging_data st
    ∧ Controller.last_positions st1 = Controller.last_positions st
    ∧ Controller.stuck_count st1 = Controller.stuck_count st
    ∧ Controller.in_recovery st1 = Controller.in_recovery st.
Proof.
  intros Hstate Hpass. unfold Controller.process_agent.
  rewrite (no_task_block_passes _ _ _ _ _ state) by done.
  unfold_bind. eexists. split; [reflexivity|]. unfold unparked. fold id.
  case_decide; simpl; rewrite ?lookup_insert_eq; done.
Qed.

Lemma snapshot_of_targets (st st1 : Controller.St) state data :
  Controller.agent_targets st1 = Controller.agent_targets st →
  snapshot_of cfg agent st1 state data → snapshot_of cfg agent st state data.
Proof. unfold snapshot_of. by intros ->. Qed.

(** A critical battery, seen from the start of the iteration. *)
Lemma process_agent_critical
    (st : Controller.St) (state : AgentState) (station : Pos) (pct : Num.t) :
  (planner_fuel (mover_rows (Controller.shelf_mover cfg))
                (mover_cols (Controller.shelf_mover cfg)) ≤ fuel)%nat →
  is_charging agent = false →
  Controller.goal_locations cfg ≠ [] →
  Controller._get_closest_charging_station cfg env agent = Ret (Some station) →
  Controller.agent_states st !! id = Some state →
  state ∈ [deliver; return_shelf; charging]
  ∨ Controller._can_carry_any_shelf env st agent = true →
  battery_pct env agent = Ret pct →
  Num.le (battery_level agent) (Num.PyInt 0) = false →
  Num.lt pct Controller.critical_battery_threshold = true →
  ∃ a st', Controller.process_agent fuel cfg env agent st = Ret (a, st')
    ∧ Controller.agent_states st' !! id = Some charging
    ∧ Controller.agent_targets st' !! id
      = Some (Some (Controller.mkTarget None station))
    ∧ Controller.reserved_shelves st' = Controller.reserved_shelves st
    ∧ Controller.shelf_reservation_time st' = Controller.shelf_reservation_time st
    ∧ (unparked state = charging
       ∨ (∀ tgt, Controller.agent_targets st !! id ≠ Some (Some tgt)) →
       Controller.pre_charging_data st' = Controller.pre_charging_data st)
    ∧ (unparked state ≠ charging →
       ∀ tgt, Controller.agent_targets st !! id = Some (Some tgt) →
       ∃ data, Controller.pre_charging_data st'
               = <[id := data]> (Controller.pre_charging_data st)
               ∧ snapshot_of cfg agent st (unparked state) data).
Proof.
  intros Hfuel Hch Hgoals Hstation Hstate Hpass Hcap Hlevel Hcrit.
  destruct (process_agent_unparked st state Hstate Hpass)
    as (st1 & -> & Hs1 & Et & _ & Er & Em & _ & Ep & _).
  destruct (critical_entry fuel cfg env agent Hfuel Hch Hgoals station Hstation
              st1 (unparked state) pct Hs1 Hcap Hlevel Hcrit)
    as (a & st' & -> & H1 & H2 & H3 & H4 & H5 & H6).
  fold id in H5, H6.
  exists a, st'. split; [done|]. rewrite <- Er, <- Em, <- Ep, <- Et.
  do 4 (split; [done|]). split; [done|].
  intros Hne tgt Htgt. destruct (H6 Hne tgt Htgt) as (data & Hd & Hsnap).
  exists data. split; [done|]. by eapply snapshot_of_targets.
Qed.

(** A low battery that is not critical, seen from the start of the
    iteration. *)
Lemma process_agent_low
    (st : Controller.St) (state : AgentState) (station : Pos) (pct : Num.t) :
  (planner_fuel (mover_rows (Controller.shelf_mover cfg))
                (mover_cols (Controller.shelf_mover cfg)) ≤ fuel)%nat →
  is_charging agent = false →
  Controller.goal_locations cfg ≠ [] →
  Controller._get_closest_charging_station cfg env agent = Ret (Some station) →
  Controller.agent_states st !! id = Some state →
  state ∈ [deliver; return_shelf; charging]
  ∨ Controller._can_carry_any_shelf env st agent = true →
  unparked state ≠ charging →
  battery_pct env agent = Ret pct →
  Num.le (battery_level agent) (Num.PyInt 0) = false →
  Num.lt pct Controller.critical_battery_threshold = false →
  Num.lt pct Controller.low_battery_threshold = true →
  ∃ a st' data, Controller.process_agent fuel cfg env agent st = Ret (a, st')
    ∧ Controller.agent_states st' !! id = Some charging
    ∧ Controller.agent_targets st' !! id
      = Some (Some (Controller.mkTarget None station))
    ∧ Controller.reserved_shelves st' = Controller.reserved_shelves st
    ∧ Controller.shelf_reservation_time st' = Controller.shelf_reservation_time st
    ∧ Controller.pre_charging_data st'
      = <[id := data]> (Controller.pre_charging_data st)
    ∧ snapshot_of cfg agent st (unparked state) data.
Proof.
  intros Hfuel Hch Hgoals Hstation Hstate Hpass Hne Hcap Hlevel Hcrit Hlow.
  destruct (process_agent_unparked st state Hstate Hpass)
    as (st1 & -> & Hs1 & Et & _ & Er & Em & _ & Ep & _).
  destruct (low_entry fuel cfg env agent Hfuel Hch Hgoals station Hstation
              st1 (unparked state) pct Hs1 Hne Hcap Hlevel Hcrit Hlow)
    as (a & st' & data & -> & H1 & H2 & H3 & H4 & H5 & H6).
  exists a, st', data. split; [done|]. rewrite <- Er, <- Em, <- Ep.
  do 5 (split; [done|]). by eapply snapshot_of_targets.
Qed.

End Iteration.

Lemma closest_station_exists
    (cfg : Controller.Config) (env : Env) (agent : Agent) :
  batteries_readable env →
  agent_pos agent ∉ Controller.charging_stations cfg →
  Controller.charging_stations cfg ≠ [] →
  ∃ station,
    Controller._get_closest_charging_station cfg env agent = Ret (Some station).
Proof.
  intros Hread Hnot Hsome. unfold Controller._get_closest_charging_station.
  rewrite bool_decide_eq_false_2 by done.
  destruct (first_station_total env (agent_pos agent)
              (sort_by_key (λ station, manhattan station (agent_pos agent))
                 (Controller.charging_stations cfg)) Hread) as [r ->].
  unfold_bind. destruct r as [s|]; [by eexists|].
  destruct (Controller.charging_stations cfg) as [|s0 l] eqn:E; [done|].
  destruct (sort_by_key _ (s0 :: l)) as [|s1 l1] eqn:Es; [|by eexists].
  assert (s0 ∈ sort_by_key (λ station, manhattan station (agent_pos agent)) (s0 :: l))
    as Hin by (apply elem_of_sort_by_key; left).
  rewrite Es in Hin. by apply elem_of_nil in Hin.
Qed.

(** C6 (the code at the failing input).  Agent 0 stands on (1,1), off the
    charging stations, with its charging flag off and a battery at 5 of
    100: the percentage is 5.0, below the critical threshold.  The only
    requested shelf is too heavy for it, so the no-task branch, which
    comes before the battery checks in the loop, parks it: (1,1) is its
    waiting area, the controller emits NOOP and ends the iteration.  The
    agent is not set to charging, gets no station as target, no saved
    context is written and no critical-battery event is recorded. *)
Theorem critical_agent_without_task_is_not_sent_to_charge :
  let cfg := Controller.initialize_and_verify Worlds.parked_env in
  let st := Controller.initial_state Worlds.parked_env in
  battery_pct Worlds.parked_env Worlds.weary = Ret (Num.PyFloat 5)
  ∧ Num.lt (Num.PyFloat 5) Controller.critical_battery_threshold = true
  ∧ is_charging Worlds.weary = false
  ∧ bool_decide (agent_pos Worlds.weary ∈ Controller.charging_stations cfg) = false
  ∧ (λ r : Action.t * Controller.St,
       (r.1,
        Controller.agent_states r.2 !! 0,
        Controller.agent_targets r.2 !! 0,
        Controller.pre_charging_data r.2 !! 0,
        Metrics.critical_battery_events (Controller.metrics r.2)))
    <$> Controller.process_agent (planner_fuel 5 5) cfg Worlds.parked_env
          Worlds.weary st
    = Ret (Action.NOOP, Some no_shelf_to_carry, Some None, None, 0).
Proof.
  intros cfg st. repeat split; vm_compute; reflexivity.
Qed.

(** ** Picking a shelf up *)

Section Pickup.
Variable fuel : nat.
Variable cfg : Controller.Config.
Variable env : Env.
Variable agent : Agent.
Let id := agent_id agent.

Lemma select_shelf_selectable (st : Controller.St) (shelf : Shelf) :
  Controller.select_shelf cfg env st agent = Some shelf → selectable env agent st shelf.
Proof.
  unfold Controller.select_shelf.
  assert (H : ∀ l acc,
    (∀ s, acc.1 = Some s → selectable env agent st s) →
    (∀ s, s ∈ l → s ∈ request_queue env) →
    (foldl (Controller.consider cfg env st agent) acc l).1 = Some shelf →
    selectable env agent st shelf).
  { induction l as [|x l IH]; intros acc Hacc Hl; simpl; [by apply Hacc|].
    apply IH; [|set_solver].
    unfold Controller.consider.
    destruct (is_carried env x) eqn:E1; [done|].
    destruct (Controller.reserved_by_other st agent x) eqn:E2; [done|].
    destruct (max_carry_weight agent <? shelf_weight x) eqn:E3; [done|].
    destruct (key_lt _ _); [|done].
    simpl. intros s [= <-]. apply Z.ltb_ge in E3.
    split; [set_solver|]. done. }
  apply H; [done|done].
Qed.

Lemma selectable_can_carry (st : Controller.St) (shelf : Shelf) :
  selectable env agent st shelf → Controller._can_carry_any_shelf env st agent = true.
Proof.
  intros (Hin & H1 & H2 & H3). unfold Controller._can_carry_any_shelf.
  apply existsb_exists. exists shelf. split; [by apply list_elem_of_In|].
  rewrite H1, H2. simpl. by apply Z.leb_le.
Qed.



End Pickup.




(** C7 as stated fails, in two ways.
    One failed attempt is enough.  Agent 0 has the queue LEFT, FORWARD,
    FORWARD and is given LEFT.  At the next step it has turned on its
    cell: FORWARD is next and the position is the recorded one, so the
    counter becomes 1, and the agent is given FORWARD, its first attempt.
    The attempt fails; at the step after it the agent still stands on
    (0,0), the counter becomes 2 and the A* controller records a
    collision and sets the recovery flag.
    The baseline controller keeps the queue.  With FORWARD next, the
    position unchanged and the counter at 1, the baseline monitor records
    the collision and sets the recovery flag, but the queue still holds
    FORWARD, LEFT; the A* monitor empties the queue. *)
Lemma turn_counts_as_failed_attempt_and_baseline_keeps_queue :
  ('(a1, st1) ← Controller.process_agent (planner_fuel 5 5)
                   (Controller.initialize_and_verify (Worlds.busy_env Worlds.walker))
                   (Worlds.busy_env Worlds.walker) Worlds.walker Worlds.turning_st;
   '(a2, st2) ← Controller.process_agent (planner_fuel 5 5)
                   (Controller.initialize_and_verify (Worlds.busy_env Worlds.walker))
                   (Worlds.busy_env Worlds.turned) Worlds.turned st1;
   '(a3, st3) ← Controller.process_agent (planner_fuel 5 5)
                   (Controller.initialize_and_verify (Worlds.busy_env Worlds.walker))
                   (Worlds.busy_env Worlds.turned) Worlds.turned st2;
   Ret (a1, a2,
        Controller.stuck_count st2 !! 0, Controller.in_recovery st2 !! 0,
        Controller.stuck_count st3 !! 0, Controller.in_recovery st3 !! 0,
        Metrics.collision_count (Controller.metrics st3)))
  = Ret (Action.LEFT, Action.FORWARD, Some 1, None, Some 2, Some true, 1)
  ∧ (λ st' : Baseline.St,
       (Baseline.last_actions st' !! 0,
        Baseline.in_recovery st' !! 0,
        Metrics.collision_count (Baseline.metrics st')))
    <$> Baseline.stuck_monitor Worlds.walker (Worlds.stuck_baseline_st 1)
    = Ret (Some [Action.FORWARD; Action.LEFT], Some true, 1)
  ∧ (λ st' : Controller.St,
       (Controller.last_actions st' !! 0,
        Controller.in_recovery st' !! 0,
        Metrics.collision_count (Controller.metrics st')))
    <$> Controller.stuck_monitor Worlds.walker (Worlds.stuck_st 1)
    = Ret (Some [], Some true, 1).
Proof.
  repeat split; vm_compute; reflexivity.
Qed.

Lemma stuck_monitor_recovery_entry_witness :
  ∃ st', Controller.stuck_monitor Worlds.walker (Worlds.stuck_st 1) = Ret st'
    ∧ Controller.stuck_count st' !! 0 = Some 2
    ∧ Controller.last_actions st' !! 0 = Some []
    ∧ Controller.in_recovery st' !! 0 = Some true.
Proof.
  destruct (stuck_monitor_recovery_entry Worlds.walker) as [H _].
  destruct (H (Worlds.stuck_st 1) 1 seek_shelf) as (st' & Hm & Hc & Hr & _ & Hq);
    [reflexivity | reflexivity |].
  exists st'. split; [exact Hm|]. split; [exact Hc|]. split; [exact Hq | exact Hr].
Defined.

(** * Further properties of the code *)

(** ** Turning, direct movement and path conversion *)

Section Moves.
Import Direction Movement.

Lemma replay_end_app (p : Pos) (d : Direction.t) (a b : list Action.t) :
  replay_end p d (a ++ b) = replay_end (replay_end p d a).1 (replay_end p d a).2 b.
Proof.
  revert p d. induction a as [|x a IH]; intros p d; [reflexivity|].
  destruct x; simpl; apply IH.
Qed.

Lemma replay_cells_app (p : Pos) (d : Direction.t) (a b : list Action.t) :
  replay_cells p d (a ++ b)
  = replay_cells p d a ++ replay_cells (replay_end p d a).1 (replay_end p d a).2 b.
Proof.
  revert p d. induction a as [|x a IH]; intros p d; [reflexivity|].
  destruct x; simpl; rewrite ?IH; reflexivity.
Qed.

Lemma replay_end_turn (p : Pos) (current desired : Direction.t) :
  replay_end p current (_turn_to_face current desired) = (p, desired).
Proof. destruct current, desired; reflexivity. Qed.

Lemma replay_cells_turn (p : Pos) (current desired : Direction.t) :
  replay_cells p current (_turn_to_face current desired) = [].
Proof. destruct current, desired; reflexivity. Qed.

(** [n] times FORWARD from [p] facing [d] *)
Lemma replay_end_forwards (n : nat) (p : Pos) (d : Direction.t) :
  replay_end p d (replicate n Action.FORWARD)
  = (match d with
     | UP => (p.1, p.2 - Z.of_nat n)
     | DOWN => (p.1, p.2 + Z.of_nat n)
     | LEFT => (p.1 - Z.of_nat n, p.2)
     | RIGHT => (p.1 + Z.of_nat n, p.2)
     end, d).
Proof.
  revert p. induction n as [|n IH]; intros [x y].
  - destruct d; simpl; do 2 f_equal; lia.
  - cbn [replicate replay_end]. rewrite IH.
    destruct d; simpl; do 2 f_equal; lia.
Qed.

Lemma replay_end_leg (p : Pos) (current desired : Direction.t) (n : Z) :
  replay_end p current (AStar.leg current desired n)
  = replay_end p desired (replicate (Z.to_nat n) Action.FORWARD).
Proof.
  unfold AStar.leg. rewrite replay_end_app.
  case_decide as Hd.
  - rewrite replay_end_turn. reflexivity.
  - subst. reflexivity.
Qed.

Lemma forwards_in_turn (current desired : Direction.t) :
  filter (λ a, a = Action.FORWARD) (_turn_to_face current desired) = [].
Proof. destruct current, desired; reflexivity. Qed.

Lemma forwards_in_leg (current desired : Direction.t) (n : Z) :
  length (filter (λ a, a = Action.FORWARD) (AStar.leg current desired n)) = Z.to_nat n.
Proof.
  unfold AStar.leg. rewrite filter_app, length_app.
  case_decide; rewrite ?forwards_in_turn; simpl.
  - induction (Z.to_nat n) as [|k IH]; [reflexivity|].
    cbn [replicate]. rewrite filter_cons_True by reflexivity. simpl. by rewrite IH.
  - induction (Z.to_nat n) as [|k IH]; [reflexivity|].
    cbn [replicate]. rewrite filter_cons_True by reflexivity. simpl. by rewrite IH.
Qed.

End Moves.

(** X1.  The turn table of [_turn_to_face] agrees with the turn tables of
    [_validate_action_sequence]: replaying the turns it returns leaves the
    agent on its cell, facing the desired direction.  It returns at most
    two turns, never a FORWARD, and nothing exactly when the agent faces
    the desired direction already. *)
Theorem turn_to_face_faces_desired (p : Pos) (current desired : Direction.t) :
  Movement.replay_end p current (Movement._turn_to_face current desired) = (p, desired)
  ∧ Movement.replay_cells p current (Movement._turn_to_face current desired) = []
  ∧ (length (Movement._turn_to_face current desired) ≤ 2)%nat
  ∧ (Movement._turn_to_face current desired = [] ↔ current = desired).
Proof.
  split; [apply replay_end_turn|]. split; [apply replay_cells_turn|].
  destruct current, desired; simpl; (split; [lia|]); split; congruence.
Qed.

Lemma direct_movement_end (agent : Agent) (goal_pos : Pos) :
  (Movement.replay_end (agent_pos agent) (agent_dir agent)
     (AStar._direct_movement agent goal_pos)).1 = goal_pos.
Proof.
  destruct goal_pos as [gx gy]. destruct agent as [id x y d bl mw cs ic st].
  unfold AStar._direct_movement, agent_pos. cbn [agent_x agent_y agent_dir fst snd].
  destruct (Z.abs (gy - y) <? Z.abs (gx - x)) eqn:Hax;
    repeat case_decide; rewrite ?replay_end_app, ?replay_end_leg,
      ?replay_end_forwards; cbn [fst snd app Movement.replay_end];
    rewrite ?replay_end_leg, ?replay_end_forwards; cbn [fst snd];
    repeat (match goal with |- context [if ?b then _ else _] =>
              destruct b eqn:? end);
    cbn [fst snd]; f_equal; lia.
Qed.

(** X2.  [_direct_movement] leads to the goal: replayed from the agent's
    pose, the sequence ends on [goal_pos], whatever the agent's facing and
    whichever axis comes first, and it holds as many FORWARDs as the
    Manhattan distance between the agent and the goal. *)
Theorem direct_movement_reaches_goal (agent : Agent) (goal_pos : Pos) :
  (Movement.replay_end (agent_pos agent) (agent_dir agent)
     (AStar._direct_movement agent goal_pos)).1 = goal_pos
  ∧ Z.of_nat (length (filter (λ a, a = Action.FORWARD)
                        (AStar._direct_movement agent goal_pos)))
    = manhattan (agent_pos agent) goal_pos.
Proof.
  split; [apply direct_movement_end|].
  destruct goal_pos as [gx gy]. destruct agent as [id x y d bl mw cs ic st].
  unfold AStar._direct_movement, agent_pos, manhattan. cbn [agent_x agent_y agent_dir fst snd].
  destruct (Z.abs (gy - y) <? Z.abs (gx - x)) eqn:Hax;
    destruct (decide (gx - x ≠ 0)); destruct (decide (gy - y ≠ 0));
    cbn [app]; rewrite ?filter_app, ?length_app, ?forwards_in_leg;
    cbn [length filter]; rewrite ?filter_nil; cbn [length]; lia.
Qed.

Section PathConversion.
Import Direction Movement.

Lemma step_dir_adjacent (p q : Pos) :
  manhattan p q = 1 → ∃ d, step_dir p q = Some d ∧ ahead p d = q.
Proof.
  destruct p as [x y], q as [u v]. unfold manhattan, step_dir. cbn [fst snd].
  intros H. repeat case_decide.
  - exists RIGHT. split; [done|]. simpl. f_equal; lia.
  - exists LEFT. split; [done|]. simpl. f_equal; lia.
  - exists DOWN. split; [done|]. simpl. f_equal; lia.
  - exists UP. split; [done|]. simpl. f_equal; lia.
  - lia.
Qed.

Lemma replay_turn_if_needed (p : Pos) (current desired : Direction.t) :
  let turns :=
    if decide (current ≠ desired) then _turn_to_face current desired else [] in
  replay_end p current turns = (p, desired) ∧ replay_cells p current turns = [].
Proof.
  simpl. case_decide as Hd.
  - split; [apply replay_end_turn | apply replay_cells_turn].
  - subst. done.
Qed.

Lemma convert_from_replay (d : Direction.t) (p : Pos) (path : list Pos) :
  stepwise p path →
  replay_cells p d (convert_from d p path) = path
  ∧ (replay_end p d (convert_from d p path)).1 = default p (last path).
Proof.
  revert d p. induction path as [|q rest IH]; intros d p Hs; [done|].
  destruct Hs as [Hq Hrest].
  destruct (step_dir_adjacent p q Hq) as (dd & Hsd & Ha).
  cbn [convert_from]. rewrite Hsd.
  destruct (replay_turn_if_needed p d dd) as [He Hc].
  rewrite replay_cells_app, replay_end_app, He, Hc. cbn [fst snd app].
  cbn [replay_cells replay_end]. rewrite Ha.
  destruct (IH dd q Hrest) as [IH1 IH2]. rewrite IH1, IH2.
  split; [done|]. rewrite last_cons. destruct (last rest); done.
Qed.

End PathConversion.

(** X3.  Round trip of [_convert_path_to_actions]: for a path that goes one
    cell at a time from the agent's cell, the cells entered when the
    returned actions are replayed from the agent's pose are the cells of
    the path, in order; the replay ends on the last cell of the path. *)
Theorem convert_path_follows_path (agent : Agent) (path : list Pos) :
  stepwise (agent_pos agent) path →
  Movement.replay_cells (agent_pos agent) (agent_dir agent)
    (Movement._convert_path_to_actions agent path) = path
  ∧ (Movement.replay_end (agent_pos agent) (agent_dir agent)
       (Movement._convert_path_to_actions agent path)).1
    = default (agent_pos agent) (last path).
Proof. apply convert_from_replay. Qed.

Lemma convert_path_follows_path_witness :
  Movement.replay_cells (agent_pos Worlds.walker) (agent_dir Worlds.walker)
    (Movement._convert_path_to_actions Worlds.walker [(0, 1); (1, 1); (1, 2)])
  = [(0, 1); (1, 1); (1, 2)]
  ∧ (Movement.replay_end (agent_pos Worlds.walker) (agent_dir Worlds.walker)
       (Movement._convert_path_to_actions Worlds.walker [(0, 1); (1, 1); (1, 2)])).1
    = default (agent_pos Worlds.walker) (last [(0, 1); (1, 1); (1, 2)]).
Proof.
  apply (convert_path_follows_path Worlds.walker [(0, 1); (1, 1); (1, 2)]).
  vm_compute. repeat split.
Defined.

(** X4.  [_get_neighbors] returns exactly the cells of the grid that are
    one step away: a cell is a neighbour of [pos] if and only if it is a
    valid position at Manhattan distance 1 from [pos]. *)
Theorem get_neighbors_spec (rows cols : Z) (pos n : Pos) :
  n ∈ Movement._get_neighbors rows cols pos
  ↔ Movement._is_position_valid rows cols n = true ∧ manhattan pos n = 1.
Proof.
  destruct pos as [x y], n as [u v].
  unfold Movement._get_neighbors, Movement._is_position_valid, manhattan.
  rewrite list_elem_of_filter. cbn [fst snd]. split.
  - intros [Hv Hn]. split; [lia|].
    apply list_elem_of_fmap in Hn as ([dx dy] & Heq & Hd). simpl in Heq.
    injection Heq as -> ->.
    repeat (apply elem_of_cons in Hd as [Hd|Hd]; [injection Hd as -> ->; lia|]).
    by apply elem_of_nil in Hd.
  - intros [Hv Hm]. split; [lia|].
    apply list_elem_of_fmap.
    assert (u - x = 0 ∧ v - y = 1 ∨ u - x = 1 ∧ v - y = 0
            ∨ u - x = 0 ∧ v - y = -1 ∨ u - x = -1 ∧ v - y = 0)
      as [[? ?]|[[? ?]|[[? ?]|[? ?]]]] by lia.
    + exists (0, 1). split; [simpl; f_equal; lia | set_solver].
    + exists (1, 0). split; [simpl; f_equal; lia | set_solver].
    + exists (0, -1). split; [simpl; f_equal; lia | set_solver].
    + exists (-1, 0). split; [simpl; f_equal; lia | set_solver].
Qed.

(** ** The BFS search of the baseline planner *)

Section BFSSearch.
Import Movement.
Variables rows cols : Z.
Variables (agent : Agent) (goal : Pos) (blocked : gset Pos).

Let U := universe rows cols agent.
Let start := agent_pos agent.

Lemma neighbor_is_adjacent (p n : Pos) :
  n ∈ _get_neighbors rows cols p → manhattan p n = 1.
Proof.
  destruct p as [x y], n as [u v]. unfold _get_neighbors, manhattan.
  rewrite list_elem_of_filter. intros [_ Hn]. cbn [fst snd].
  apply list_elem_of_fmap in Hn as ([dx dy] & Heq & Hd). simpl in Heq.
  injection Heq as -> ->.
  repeat (apply elem_of_cons in Hd as [Hd|Hd]; [injection Hd as -> ->; lia|]).
  by apply elem_of_nil in Hd.
Qed.

Lemma neighbor_in_universe (p n : Pos) :
  n ∈ _get_neighbors rows cols p → n ∈ U.
Proof.
  intros Hn%elem_of_get_neighbors. unfold U, universe. set_solver.
Qed.

Lemma bfs_reaches_insert visited n c x k :
  n ∉ dom visited →
  bfs_reaches visited start x k →
  bfs_reaches (<[n := Some c]> visited) start x k.
Proof.
  intros Hn Hr. induction Hr as [|x p k Hx _ IH]; [constructor|].
  apply bfs_reaches_step with p; [|exact IH].
  rewrite lookup_insert_ne; [exact Hx|].
  intros ->. apply Hn. by apply elem_of_dom.
Qed.

Lemma size_insert_fresh (visited : gmap Pos (option Pos)) n c :
  n ∉ dom visited →
  size (dom (<[n := Some c]> visited)) = S (size (dom visited)).
Proof.
  intros Hn. rewrite dom_insert_L, size_union, size_singleton by set_solver. done.
Qed.

Lemma bfs_inv_insert visited queue queue' found' n current :
  bfs_inv rows cols agent goal visited queue false →
  current ∈ dom visited → n ∉ dom visited → n ∈ U →
  manhattan current n = 1 →
  (∀ m, m ∈ queue' → m ∈ queue ∨ m = n) →
  (n = goal ↔ found' = true) →
  bfs_inv rows cols agent goal (<[n := Some current]> visited) queue' found'.
Proof.
  intros [Hd Hq Hg Hl Ha] Hc Hn HU Hm Hq' Hf.
  constructor.
  - rewrite dom_insert_L. fold U. set_solver.
  - intros m Hmq. rewrite dom_insert_L. destruct (Hq' m Hmq) as [?| ->]; set_solver.
  - rewrite dom_insert_L, <- Hf. split.
    + intros [->%elem_of_singleton| Hin]%elem_of_union; [done|].
      apply Hg in Hin. discriminate.
    + intros ->. set_solver.
  - intros m Hmd. rewrite size_insert_fresh by done.
    rewrite dom_insert_L in Hmd.
    apply elem_of_union in Hmd as [->%elem_of_singleton| Hmd].
    + destruct (Hl current Hc) as (k & Hr & Hk).
      exists (S k). split; [|lia].
      apply bfs_reaches_step with current; [by rewrite lookup_insert_eq|].
      by apply bfs_reaches_insert.
    + destruct (Hl m Hmd) as (k & Hr & Hk).
      exists k. split; [by apply bfs_reaches_insert | lia].
  - intros m p Hmp. destruct (decide (m = n)) as [->|Hne].
    + rewrite lookup_insert_eq in Hmp. by injection Hmp as <-.
    + rewrite lookup_insert_ne in Hmp by done. by apply Ha.
Qed.

Lemma expand_inv current ns visited queue :
  bfs_inv rows cols agent goal visited queue false →
  current ∈ dom visited →
  (∀ n, n ∈ ns → manhattan current n = 1 ∧ n ∈ U) →
  ∃ v' q' f',
    BFS.expand goal current blocked ns visited queue = (v', q', f')
    ∧ bfs_inv rows cols agent goal v' q' f'
    ∧ (size (U ∖ dom v') + length q' ≤ size (U ∖ dom visited) + length queue)%nat.
Proof.
  revert visited queue. induction ns as [|n ns IH]; intros visited queue Hinv Hc Hns.
  - exists visited, queue, false. done.
  - destruct (Hns n) as [Hm HU]; [set_solver|].
    assert (Hns' : ∀ m, m ∈ ns → manhattan current m = 1 ∧ m ∈ U)
      by (intros m Hmn; apply Hns; set_solver).
    cbn [BFS.expand]. case_decide as Hgoal.
    + subst n.
      assert (Hfresh : goal ∉ dom visited).
      { intros Hin. apply (bfs_goal _ _ _ _ _ _ _ Hinv) in Hin. discriminate. }
      exists (<[goal := Some current]> visited), queue, true.
      split; [done|]. split.
      * apply bfs_inv_insert with queue; auto. done.
      * assert (size (U ∖ dom (<[goal := Some current]> visited))
                ≤ size (U ∖ dom visited))%nat
          by (apply subseteq_size; rewrite dom_insert_L; set_solver).
        lia.
    + destruct (bool_decide (n ∉ dom visited) && bool_decide (n ∉ blocked)) eqn:Hb.
      * apply andb_true_iff in Hb as [Hfresh%bool_decide_eq_true _].
        destruct (IH (<[n := Some current]> visited) (queue ++ [n]))
          as (v' & q' & f' & He & Hinv' & Hsz); auto.
        { apply bfs_inv_insert with queue; auto.
          - intros m [?| ->%list_elem_of_singleton]%elem_of_app; auto.
          - split; [done|discriminate]. }
        { rewrite dom_insert_L. set_solver. }
        exists v', q', f'. split; [done|]. split; [done|].
        assert (Hs : size (U ∖ dom visited)
                     = S (size (U ∖ dom (<[n := Some current]> visited)))).
        { rewrite dom_insert_L.
          replace (U ∖ dom visited)
            with ({[n]} ∪ U ∖ ({[n]} ∪ dom visited)).
          - rewrite size_union, size_singleton by set_solver. done.
          - apply set_eq. intros x. destruct (decide (x = n)); set_solver. }
        rewrite length_app in Hsz. simpl in Hsz. lia.
      * by apply IH.
Qed.

Lemma bfs_search_loop_total fuel visited queue found :
  bfs_inv rows cols agent goal visited queue found →
  (size (U ∖ dom visited) + length queue < fuel)%nat →
  ∃ v' q' f', BFS.search_loop rows cols fuel goal blocked visited queue found
              = Ret (v', f')
              ∧ bfs_inv rows cols agent goal v' q' f'.
Proof.
  revert visited queue found.
  induction fuel as [|fuel IH]; intros visited queue found Hinv Hsz; [lia|].
  destruct queue as [|current queue].
  - exists visited, [], found. done.
  - destruct found.
    + exists visited, (current :: queue), true. done.
    + cbn [BFS.search_loop].
      assert (Hc : current ∈ dom visited)
        by (apply (bfs_queue _ _ _ _ _ _ _ Hinv); set_solver).
      assert (Hinv' : bfs_inv rows cols agent goal visited queue false).
      { destruct Hinv as [Hd Hq Hg Hl Ha]. constructor; auto.
        intros m Hmq. apply Hq. set_solver. }
      destruct (expand_inv current (_get_neighbors rows cols current) visited queue)
        as (v' & q' & f' & He & Hi & Hs); auto.
      { intros n Hn. split; [by apply neighbor_is_adjacent
                            | by apply neighbor_in_universe with current]. }
      rewrite He. apply IH; [done|]. simpl in Hsz. lia.
Qed.

Lemma bfs_search_loop_inv fuel visited queue found v' f' :
  BFS.search_loop rows cols fuel goal blocked visited queue found = Ret (v', f') →
  bfs_inv rows cols agent goal visited queue found →
  ∃ q', bfs_inv rows cols agent goal v' q' f'.
Proof.
  revert visited queue found.
  induction fuel as [|fuel IH]; intros visited queue found Hrun Hinv.
  - destruct queue as [|current queue]; simpl in Hrun.
    + injection Hrun as <- <-. by exists [].
    + destruct found; [|discriminate]. injection Hrun as <- <-. by eexists.
  - destruct queue as [|current queue]; cbn [BFS.search_loop] in Hrun.
    + injection Hrun as <- <-. by exists [].
    + destruct found; [injection Hrun as <- <-; by eexists|].
      assert (Hc : current ∈ dom visited)
        by (apply (bfs_queue _ _ _ _ _ _ _ Hinv); set_solver).
      assert (Hinv' : bfs_inv rows cols agent goal visited queue false).
      { destruct Hinv as [Hd Hq Hg Hl Ha]. constructor; auto.
        intros m Hmq. apply Hq. set_solver. }
      destruct (expand_inv current (_get_neighbors rows cols current) visited queue)
        as (v1 & q1 & f1 & He & Hi & _); auto.
      { intros n Hn. split; [by apply neighbor_is_adjacent
                            | by apply neighbor_in_universe with current]. }
      rewrite He in Hrun. by apply IH in Hrun.
Qed.

Lemma bfs_reconstruct_total visited n k fuel path :
  bfs_reaches visited start n k → (k ≤ fuel)%nat →
  ∃ r, BFS.reconstruct fuel visited start n path = Ret r.
Proof.
  intros Hr. revert fuel path.
  induction Hr as [|n p k Hn _ IH]; intros fuel path Hk.
  - destruct fuel; simpl; rewrite decide_True by done; by eexists.
  - destruct fuel as [|fuel]; [lia|]. simpl. case_decide; [by eexists|].
    rewrite Hn. apply IH. lia.
Qed.

Lemma stepwise_snoc (p q : Pos) (l : list Pos) :
  stepwise p l → manhattan (default p (last l)) q = 1 → stepwise p (l ++ [q]).
Proof.
  revert p. induction l as [|x l IH]; intros p Hs Hm; [done|].
  destruct Hs as [Hx Hl]. split; [done|]. apply IH; [done|].
  rewrite last_cons in Hm. destruct (last l); done.
Qed.

Lemma bfs_reconstruct_chain visited fuel current path r :
  (∀ n p, visited !! n = Some (Some p) → manhattan p n = 1) →
  BFS.reconstruct fuel visited start current path = Ret r →
  ∃ chain, r = path ++ chain
    ∧ stepwise start (reverse chain)
    ∧ head chain = (if decide (current = start) then None else Some current).
Proof.
  intros Ha. revert current path.
  induction fuel as [|fuel IH]; intros current path Hrun; simpl in Hrun.
  - case_decide; [|discriminate]. injection Hrun as <-.
    exists []. by rewrite app_nil_r.
  - case_decide as Hcur.
    + injection Hrun as <-. exists []. by rewrite app_nil_r.
    + destruct (visited !! current) as [[prev|]|] eqn:Hv; try discriminate.
      apply IH in Hrun as (chain & -> & Hs & Hh).
      exists (current :: chain). rewrite <- app_assoc. split; [done|].
      split; [|done]. rewrite reverse_cons. apply stepwise_snoc; [done|].
      rewrite last_reverse, Hh. apply Ha in Hv.
      case_decide; [by subst|done].
Qed.

Lemma bfs_plan_total fuel :
  (planner_fuel rows cols ≤ fuel)%nat →
  ∃ l, BFS.plan rows cols fuel agent goal blocked = Ret l.
Proof.
  intros Hfuel. unfold BFS.plan.
  destruct (negb _); [by eexists|].
  case_bool_decide; [by eexists|].
  unfold BFS._pathfind_movement. fold start.
  pose proof (size_universe rows cols agent) as HU. fold U in HU.
  case_decide as Hsg; [simpl; by eexists|].
  assert (Hinit : bfs_inv rows cols agent goal {[start := None]} [start] false).
  { constructor.
    - rewrite dom_singleton_L. unfold universe, start. set_solver.
    - intros n ->%list_elem_of_singleton. rewrite dom_singleton_L. set_solver.
    - rewrite dom_singleton_L. split; [|done].
      intros ->%elem_of_singleton. done.
    - intros n Hn. rewrite dom_singleton_L in Hn.
      apply elem_of_singleton in Hn as ->.
      exists 0%nat. split; [constructor|].
      rewrite dom_singleton_L, size_singleton. lia.
    - intros n p [_ ?]%lookup_singleton_Some. discriminate. }
  destruct (bfs_search_loop_total fuel _ _ _ Hinit) as (v' & q' & f' & -> & Hinv).
  { rewrite dom_singleton_L. simpl.
    assert (size (U ∖ {[start]}) + 1 ≤ size U)%nat; [|lia].
    rewrite <- (size_singleton (C := gset Pos) start), Nat.add_comm,
      <- size_union by set_solver.
    apply subseteq_size. unfold U, universe, start. set_solver. }
  cbn [mbind outcome_mbind outcome_bind].
  destruct f'; cbn [negb]; [|by eexists].
  destruct (bfs_links _ _ _ _ _ _ _ Hinv goal) as (k & Hr & Hk).
  { by apply (bfs_goal _ _ _ _ _ _ _ Hinv). }
  assert (size (dom v') ≤ size U)%nat
    by (apply subseteq_size, (bfs_dom _ _ _ _ _ _ _ Hinv)).
  destruct (bfs_reconstruct_total v' goal k fuel [] Hr) as [r ->]; [lia|].
  cbn [mbind outcome_mbind outcome_bind].
  destruct (_convert_path_to_actions agent (reverse r)); [by eexists|].
  destruct (_validate_action_sequence _ _ _ _ _); by eexists.
Qed.

Lemma bfs_plan_reaches_goal fuel actions :
  BFS.plan rows cols fuel agent goal blocked = Ret actions →
  actions ≠ [] →
  (replay_end (agent_pos agent) (agent_dir agent) actions).1 = goal.
Proof.
  unfold BFS.plan. intros Hplan Hne.
  destruct (negb _); [by injection Hplan as <-|].
  case_bool_decide; [by injection Hplan as <-|].
  destruct (BFS._pathfind_movement rows cols fuel agent goal blocked)
    as [acts| |] eqn:Hpath; try discriminate.
  cbn [mbind outcome_mbind outcome_bind] in Hplan.
  assert (actions = acts) as ->.
  { destruct acts; [by injection Hplan as <-|].
    destruct (_validate_action_sequence _ _ _ _ _); by injection Hplan as <-. }
  clear Hplan. unfold BFS._pathfind_movement in Hpath. fold start in Hpath.
  case_decide as Hsg; [by injection Hpath as <-|].
  destruct (BFS.search_loop _ _ _ _ _ _ _ _) as [[v' f']| |] eqn:Hloop;
    try discriminate.
  cbn [mbind outcome_mbind outcome_bind] in Hpath.
  destruct f'; cbn [negb] in Hpath; [|by injection Hpath as <-].
  destruct (BFS.reconstruct fuel v' start goal []) as [r| |] eqn:Hrec;
    try discriminate.
  cbn [mbind outcome_mbind outcome_bind] in Hpath. injection Hpath as <-.
  apply bfs_search_loop_inv in Hloop as [q' Hinv].
  - apply bfs_reconstruct_chain in Hrec as (chain & -> & Hs & Hh);
      [|apply (bfs_adjacent _ _ _ _ _ _ _ Hinv)].
    rewrite decide_False in Hh by done. simpl.
    destruct (convert_from_replay (agent_dir agent) start (reverse chain) Hs)
      as [_ He].
    unfold _convert_path_to_actions. fold start. rewrite He, last_reverse, Hh. done.
  - constructor.
    + rewrite dom_singleton_L. unfold universe, start. set_solver.
    + intros n ->%list_elem_of_singleton. rewrite dom_singleton_L. set_solver.
    + rewrite dom_singleton_L. split; [|done].
      intros ->%elem_of_singleton. done.
    + intros n Hn. rewrite dom_singleton_L in Hn.
      apply elem_of_singleton in Hn as ->.
      exists 0%nat. split; [constructor|].
      rewrite dom_singleton_L, size_singleton. lia.
    + intros n p [_ ?]%lookup_singleton_Some. discriminate.
Qed.

End BFSSearch.

(** X5.  The A* strategy always answers: on a [rows] by [cols] grid the
    search loop of [calculate_movement] stops within [rows * cols + 2]
    iterations, and neither [g_score[current]] nor the path reconstruction
    raises; the call returns a sequence of actions. *)
Theorem astar_calculate_movement_returns
    (k : nat) (m : Mover) (env : Env) (states : option (gmap Z AgentState))
    (agent : Agent) (goal : Pos) :
  ∃ actions,
    AStar.calculate_movement (planner_fuel (mover_rows m) (mover_cols m) + k)
      m env states agent goal = Ret actions.
Proof. apply astar_plan_total. lia. Qed.

(** X6.  The BFS strategy always answers: the [while queue and not found]
    loop stops within [rows * cols + 2] iterations, and the walk back
    through [visited] finds every parent it looks up and stops at the
    start; the call returns a sequence of actions. *)
Theorem bfs_calculate_movement_returns
    (k : nat) (m : Mover) (env : Env) (states : option (gmap Z AgentState))
    (agent : Agent) (goal : Pos) :
  ∃ actions,
    BFS.calculate_movement (planner_fuel (mover_rows m) (mover_cols m) + k)
      m env states agent goal = Ret actions.
Proof. apply bfs_plan_total. lia. Qed.

(** X7.  A sequence returned by the BFS strategy reaches the goal: when
    [calculate_movement] of the baseline planner returns a non-empty
    sequence, replaying it from the agent's pose ends on [goal_pos]. *)
Theorem bfs_sequence_ends_on_goal
    (fuel : nat) (m : Mover) (env : Env) (states : option (gmap Z AgentState))
    (agent : Agent) (goal : Pos) (actions : list Action.t) :
  BFS.calculate_movement fuel m env states agent goal = Ret actions →
  actions ≠ [] →
  (Movement.replay_end (agent_pos agent) (agent_dir agent) actions).1 = goal.
Proof. apply bfs_plan_reaches_goal. Qed.

Lemma bfs_sequence_ends_on_goal_witness :
  (Movement.replay_end (agent_pos Worlds.walker) (agent_dir Worlds.walker)
     [Action.RIGHT; Action.FORWARD; Action.LEFT; Action.FORWARD; Action.FORWARD]).1
  = (2, 1).
Proof.
  apply (bfs_sequence_ends_on_goal (planner_fuel 3 3)
           (Mover_init Worlds.detour_env) Worlds.detour_env
           (Some Worlds.detour_states) Worlds.walker (2, 1)).
  - vm_compute. reflexivity.
  - discriminate.
Defined.

(** X8.  A sequence returned by either strategy is collision-free against
    the blocked set it was planned with: every cell entered when it is
    replayed from the agent's pose is inside the grid and is not in
    [get_blocked_positions]. *)
Theorem planned_sequence_avoids_blocked
    (fuel : nat) (m : Mover) (env : Env) (states : option (gmap Z AgentState))
    (agent : Agent) (goal : Pos) (actions : list Action.t) :
  AStar.calculate_movement fuel m env states agent goal = Ret actions
  ∨ BFS.calculate_movement fuel m env states agent goal = Ret actions →
  ∀ c, c ∈ Movement.replay_cells (agent_pos agent) (agent_dir agent) actions →
       Movement._is_position_valid (mover_rows m) (mover_cols m) c = true
       ∧ c ∉ ShelfHelper.get_blocked_positions (shelf_helper m) env states agent.
Proof.
  intros [H|H].
  - by apply astar_plan_safe with fuel goal.
  - by apply bfs_plan_safe with fuel goal.
Qed.

Lemma planned_sequence_avoids_blocked_witness :
  Movement._is_position_valid
    (mover_rows (Mover_init Worlds.detour_env))
    (mover_cols (Mover_init Worlds.detour_env)) (1, 1) = true.
Proof.
  apply (planned_sequence_avoids_blocked (planner_fuel 3 3)
           (Mover_init Worlds.detour_env) Worlds.detour_env
           (Some Worlds.detour_states) Worlds.walker (2, 1)
           [Action.RIGHT; Action.FORWARD; Action.LEFT; Action.FORWARD]).
  - left. vm_compute. reflexivity.
  - simpl. set_solver.
Defined.

(** X9.  The direct route of the A* strategy: when the goal is a valid,
    unblocked cell, the straight-line check passes and the direct
    sequence passes the validation, [calculate_movement] returns the
    direct sequence without searching (any fuel will do), and that
    sequence ends on the goal. *)
Theorem astar_direct_route
    (fuel : nat) (m : Mover) (env : Env) (states : option (gmap Z AgentState))
    (agent : Agent) (goal : Pos) :
  let blocked :=
    ShelfHelper.get_blocked_positions (shelf_helper m) env states agent in
  Movement._is_position_valid (mover_rows m) (mover_cols m) goal = true →
  goal ∉ blocked →
  AStar._is_direct_path_clear (agent_pos agent) goal blocked = true →
  Movement._validate_action_sequence (mover_rows m) (mover_cols m) agent
    (AStar._direct_movement agent goal) blocked = true →
  AStar.calculate_movement fuel m env states agent goal
  = Ret (AStar._direct_movement agent goal)
  ∧ (Movement.replay_end (agent_pos agent) (agent_dir agent)
       (AStar._direct_movement agent goal)).1 = goal.
Proof.
  intros blocked Hv Hb Hc Hok. split.
  - unfold AStar.calculate_movement, AStar.plan. fold blocked.
    rewrite Hv, Hc, Hok. cbn [negb andb].
    by rewrite bool_decide_eq_false_2.
  - apply direct_movement_end.
Qed.

Lemma astar_direct_route_witness :
  AStar.calculate_movement 0 (Mover_init Worlds.detour_env) Worlds.detour_env
    (Some Worlds.detour_states) Worlds.walker (0, 2)
  = Ret (AStar._direct_movement Worlds.walker (0, 2))
  ∧ (Movement.replay_end (agent_pos Worlds.walker) (agent_dir Worlds.walker)
       (AStar._direct_movement Worlds.walker (0, 2))).1 = (0, 2).
Proof.
  apply (astar_direct_route 0 (Mover_init Worlds.detour_env) Worlds.detour_env
           (Some Worlds.detour_states) Worlds.walker (0, 2)).
  - reflexivity.
  - vm_compute. intros H. discriminate H.
  - vm_compute. reflexivity.
  - vm_compute. reflexivity.
Defined.

(** ** The metrics tracker *)

Lemma battery_levels_spec (agents : list Agent) (m : Metrics.t) :
  ∃ k, 0 ≤ k
    ∧ Metrics.record_battery_levels agents m
      = Metrics.mk (Metrics.total_deliveries m) (Metrics.successful_deliveries m)
          (Metrics.failed_deliveries m) (Metrics.completed_shelves m)
          (Metrics.task_start_times m) (Metrics.task_step_counts m)
          (Metrics.current_task_steps m) (Metrics.total_steps m)
          (Metrics.collision_count m) (Metrics.recovery_steps m)
          (Metrics.recovery_steps_count m) (Metrics.in_recovery m)
          (Metrics.overcapacity_attempts m) (Metrics.overcapacity_agents m)
          (Metrics.low_battery_events m) (Metrics.critical_battery_events m)
          (Metrics.battery_failures m + k) (Metrics.charging_time m)
          (Metrics.charging_step_counts m) (Metrics.charging_steps m)
          (Metrics.discharged_agents m).
Proof.
  unfold Metrics.record_battery_levels. revert m.
  induction agents as [|agent agents IH]; intros m.
  - exists 0. split; [lia|]. destruct m. simpl. f_equal. lia.
  - simpl. destruct (Num.le (battery_level agent) (Num.PyInt 0)).
    + destruct (IH (Metrics.mk (Metrics.total_deliveries m)
                      (Metrics.successful_deliveries m) (Metrics.failed_deliveries m)
                      (Metrics.completed_shelves m) (Metrics.task_start_times m)
                      (Metrics.task_step_counts m) (Metrics.current_task_steps m)
                      (Metrics.total_steps m) (Metrics.collision_count m)
                      (Metrics.recovery_steps m) (Metrics.recovery_steps_count m)
                      (Metrics.in_recovery m) (Metrics.overcapacity_attempts m)
                      (Metrics.overcapacity_agents m) (Metrics.low_battery_events m)
                      (Metrics.critical_battery_events m)
                      (Metrics.battery_failures m + 1) (Metrics.charging_time m)
                      (Metrics.charging_step_counts m) (Metrics.charging_steps m)
                      (Metrics.discharged_agents m))) as (k & Hk & ->).
      exists (1 + k). split; [lia|]. simpl. f_equal. lia.
    + apply IH.
Qed.

Lemma tally_record (m : Metrics.t) (c : recording) : tally m → tally (record m c).
Proof.
  intros [Ht Hs Hf Hr Hc Hd].
  destruct c as [a s|a| |a s|a|a|a|a| | |a|a|a|agents]; simpl;
    unfold Metrics.record_task_completion, Metrics.record_recovery_step,
      Metrics.record_recovery_complete, Metrics.record_charging_end;
    repeat case_bool_decide;
    try (destruct (default false _));
    try (destruct (battery_levels_spec agents m) as (k & Hk & ->));
    constructor; simpl; rewrite ?length_app; simpl; try lia.
  - assert (size ({[s]} ∪ Metrics.completed_shelves m)
            ≤ S (size (Metrics.completed_shelves m)))%nat; [|lia].
    rewrite size_union_alt, size_singleton.
    assert (size (Metrics.completed_shelves m ∖ {[s]})
            ≤ size (Metrics.completed_shelves m))%nat
      by (apply subseteq_size; set_solver).
    lia.
  - assert (size (dom (<[a := true]> (Metrics.in_recovery m)))
            ≤ S (size (dom (Metrics.in_recovery m))))%nat; [|lia].
    rewrite dom_insert_L, size_union_alt, size_singleton.
    assert (size (dom (Metrics.in_recovery m) ∖ {[a]})
            ≤ size (dom (Metrics.in_recovery m)))%nat
      by (apply subseteq_size; set_solver).
    lia.
  - assert (S (size (dom (delete a (Metrics.in_recovery m))))
            = size (dom (Metrics.in_recovery m)))%nat; [|lia].
    rewrite dom_delete_L.
    pose proof (size_union_alt ({[a]} : gset Z) (dom (Metrics.in_recovery m))) as Hx.
    replace ({[a]} ∪ dom (Metrics.in_recovery m)) with (dom (Metrics.in_recovery m))
      in Hx by set_solver.
    rewrite size_singleton in Hx. lia.
  - assert (size ({[a]} ∪ Metrics.discharged_agents m)
            ≤ S (size (Metrics.discharged_agents m)))%nat; [|lia].
    rewrite size_union_alt, size_singleton.
    assert (size (Metrics.discharged_agents m ∖ {[a]})
            ≤ size (Metrics.discharged_agents m))%nat
      by (apply subseteq_size; set_solver).
    lia.
Qed.

(** X10.  The counters of a tracker stay consistent.  After any sequence
    of calls of [record_task_start], [record_movement],
    [record_total_steps], [record_task_completion], [record_collision],
    [record_recovery_step], [record_recovery_complete],
    [record_overcapacity_attempt], [record_low_battery],
    [record_critical_battery], [record_battery_failure],
    [record_charging_start], [record_charging_end] and
    [record_battery_levels] on a fresh [MetricsTracker]:
    [total_deliveries] is [successful_deliveries + failed_deliveries];
    there is one entry of [task_step_counts] per successful delivery; the
    failed deliveries are at least the over-capacity attempts and at most
    these plus the battery failures; the completed recoveries plus the
    agents still marked as recovering never exceed [collision_count] (so
    the average of [get_metrics_summary] divides by at least the number of
    completed recoveries); and neither the completed shelves nor the
    discharged agents outnumber their counters. *)
Theorem metrics_counters_consistent (calls : list recording) :
  tally (foldl record Metrics.init calls).
Proof.
  assert (H0 : tally Metrics.init).
  { constructor; vm_compute; repeat split; congruence. }
  revert H0. generalize Metrics.init.
  induction calls as [|c calls IH]; intros m Hm; [done|].
  simpl. apply IH. by apply tally_record.
Qed.

Section MetricsRoundTrips.
Import Metrics.

Lemma movements_steps (a : Z) (n : nat) (m : t) :
  let m' := Nat.iter n (record_movement a) m in
  count (current_task_steps m') a = count (current_task_steps m) a + Z.of_nat n
  ∧ (a ∈ charging_time m →
     count (charging_steps m') a = count (charging_steps m) a + Z.of_nat n)
  ∧ task_start_times m' = task_start_times m
  ∧ task_step_counts m' = task_step_counts m
  ∧ successful_deliveries m' = successful_deliveries m
  ∧ total_deliveries m' = total_deliveries m
  ∧ completed_shelves m' = completed_shelves m
  ∧ charging_time m' = charging_time m
  ∧ charging_step_counts m' = charging_step_counts m.
Proof.
  induction n as [|n IH]; [simpl; repeat split; intros; lia|].
  cbn zeta in *. rewrite Nat.iter_succ.
  destruct IH as (Hc & Hch & Hts & Htc & Hsd & Htd & Hcs & Hct & Hcc).
  remember (Nat.iter n (record_movement a) m) as m1 eqn:Hm1. clear Hm1.
  unfold record_movement. simpl.
  split; [unfold count at 1; rewrite lookup_insert_eq; simpl; lia|].
  split; [|done].
  intros Ha. rewrite bool_decide_eq_true_2 by (by rewrite Hct).
  unfold count at 1. rewrite lookup_insert_eq. simpl. specialize (Hch Ha). lia.
Qed.

Lemma recovery_steps_counted (a : Z) (n : nat) (m : t) :
  in_recovery m !! a = Some true →
  let m' := Nat.iter n (record_recovery_step a) m in
  count (recovery_steps m') a = count (recovery_steps m) a + Z.of_nat n
  ∧ in_recovery m' = in_recovery m
  ∧ recovery_steps_count m' = recovery_steps_count m
  ∧ collision_count m' = collision_count m.
Proof.
  intros Hin. induction n as [|n IH]; [simpl; repeat split; lia|].
  cbn zeta in *. rewrite Nat.iter_succ.
  destruct IH as (Hc & Hi & Hr & Hcc).
  remember (Nat.iter n (record_recovery_step a) m) as m1 eqn:Hm1. clear Hm1.
  unfold record_recovery_step. rewrite Hi, Hin. simpl.
  split; [unfold count at 1; rewrite lookup_insert_eq; simpl; lia|]. done.
Qed.

End MetricsRoundTrips.

(** X11.  A task from start to completion: after [record_task_start] for
    an agent and a shelf, [n] calls of [record_movement] for that agent and
    then [record_task_completion], the tracker has appended [n] to
    [task_step_counts], counted one more successful (and total) delivery,
    holds the shelf among the completed ones and has dropped the start
    entry and the step counter; completing the same task once more
    changes nothing. *)
Theorem task_start_to_completion (a s : Z) (n : nat) (m : Metrics.t) :
  let finished :=
    Metrics.record_task_completion a s
      (Nat.iter n (Metrics.record_movement a) (Metrics.record_task_start a s m)) in
  Metrics.task_step_counts finished = Metrics.task_step_counts m ++ [Z.of_nat n]
  ∧ Metrics.successful_deliveries finished = Metrics.successful_deliveries m + 1
  ∧ Metrics.total_deliveries finished = Metrics.total_deliveries m + 1
  ∧ s ∈ Metrics.completed_shelves finished
  ∧ (a, s) ∉ Metrics.task_start_times finished
  ∧ Metrics.current_task_steps finished !! a = None
  ∧ Metrics.record_task_completion a s finished = finished.
Proof.
  intros finished.
  destruct (movements_steps a n (Metrics.record_task_start a s m))
    as (Hc & _ & Hts & Htc & Hsd & Htd & Hcs & _).
  cbn zeta in *.
  set (m1 := Nat.iter n (Metrics.record_movement a) (Metrics.record_task_start a s m))
    in *.
  assert (Hin : (a, s) ∈ Metrics.task_start_times m1)
    by (rewrite Hts; simpl; set_solver).
  assert (Hf : finished =
    Metrics.mk (Metrics.total_deliveries m1 + 1) (Metrics.successful_deliveries m1 + 1)
      (Metrics.failed_deliveries m1) ({[ s ]} ∪ Metrics.completed_shelves m1)
      (Metrics.task_start_times m1 ∖ {[ (a, s) ]})
      (Metrics.task_step_counts m1 ++ [Metrics.count (Metrics.current_task_steps m1) a])
      (delete a (Metrics.current_task_steps m1))
      (Metrics.total_steps m1) (Metrics.collision_count m1) (Metrics.recovery_steps m1)
      (Metrics.recovery_steps_count m1) (Metrics.in_recovery m1)
      (Metrics.overcapacity_attempts m1) (Metrics.overcapacity_agents m1)
      (Metrics.low_battery_events m1) (Metrics.critical_battery_events m1)
      (Metrics.battery_failures m1) (Metrics.charging_time m1)
      (Metrics.charging_step_counts m1) (Metrics.charging_steps m1)
      (Metrics.discharged_agents m1)).
  { unfold finished, Metrics.record_task_completion. fold m1.
    rewrite bool_decide_eq_false_2; [done|]. intros Hn. by apply Hn. }
  rewrite Hf. simpl.
  split.
  { rewrite Htc, Hc. simpl. unfold Metrics.count. rewrite lookup_insert_eq. simpl.
    do 2 f_equal; lia. }
  split; [rewrite Hsd; done|]. split; [rewrite Htd; done|].
  split; [set_solver|]. split; [set_solver|].
  split; [apply lookup_delete_eq|].
  unfold Metrics.record_task_completion. simpl.
  rewrite bool_decide_eq_true_2; [done|]. set_solver.
Qed.

(** X12.  A collision from start to recovery: after [record_collision] for
    an agent, [n] calls of [record_recovery_step] and then
    [record_recovery_complete], the tracker has counted one more
    collision and appended the steps of this recovery to
    [recovery_steps_count] ([n], on top of any steps left over for the
    agent), and the agent is no longer marked: a further recovery step or
    completion for it changes nothing. *)
Theorem collision_to_recovery (a : Z) (n : nat) (m : Metrics.t) :
  let recovered :=
    Metrics.record_recovery_complete a
      (Nat.iter n (Metrics.record_recovery_step a) (Metrics.record_collision a m)) in
  Metrics.recovery_steps_count recovered
  = Metrics.recovery_steps_count m
      ++ [Metrics.count (Metrics.recovery_steps m) a + Z.of_nat n]
  ∧ Metrics.collision_count recovered = Metrics.collision_count m + 1
  ∧ Metrics.in_recovery recovered !! a = None
  ∧ Metrics.recovery_steps recovered !! a = None
  ∧ Metrics.record_recovery_step a recovered = recovered
  ∧ Metrics.record_recovery_complete a recovered = recovered.
Proof.
  intros recovered.
  destruct (recovery_steps_counted a n (Metrics.record_collision a m))
    as (Hc & Hi & Hr & Hcc); [simpl; apply lookup_insert_eq|].
  cbn zeta in *.
  set (m1 := Nat.iter n (Metrics.record_recovery_step a) (Metrics.record_collision a m))
    in *.
  assert (Hin : a ∈ dom (Metrics.in_recovery m1)).
  { rewrite Hi. simpl. rewrite dom_insert_L. set_solver. }
  unfold recovered, Metrics.record_recovery_complete.
  rewrite (bool_decide_eq_true_2 _ Hin). simpl.
  rewrite Hr, Hc, Hcc. simpl.
  split; [done|]. split; [done|].
  split; [apply lookup_delete_eq|]. split; [apply lookup_delete_eq|].
  split.
  - unfold Metrics.record_recovery_step. simpl. by rewrite lookup_delete_eq.
  - rewrite bool_decide_eq_false_2; [done|].
    rewrite dom_delete_L. set_solver.
Qed.

(** X13.  A charging session from start to end: after
    [record_charging_start] for an agent, [n] calls of [record_movement]
    for it and then [record_charging_end], the tracker has appended [n] to
    [charging_step_counts] and the agent is no longer listed as charging;
    a further [record_charging_end] for it changes nothing. *)
Theorem charging_start_to_end (a : Z) (n : nat) (m : Metrics.t) :
  let unplugged :=
    Metrics.record_charging_end a
      (Nat.iter n (Metrics.record_movement a) (Metrics.record_charging_start a m)) in
  Metrics.charging_step_counts unplugged
  = Metrics.charging_step_counts m ++ [Z.of_nat n]
  ∧ a ∉ Metrics.charging_time unplugged
  ∧ Metrics.record_charging_end a unplugged = unplugged.
Proof.
  intros unplugged.
  destruct (movements_steps a n (Metrics.record_charging_start a m))
    as (_ & Hch & _ & _ & _ & _ & _ & Hct & Hcc).
  cbn zeta in *.
  set (m1 := Nat.iter n (Metrics.record_movement a) (Metrics.record_charging_start a m))
    in *.
  assert (Hin : a ∈ Metrics.charging_time m1) by (rewrite Hct; simpl; set_solver).
  specialize (Hch ltac:(simpl; set_solver)).
  unfold unplugged, Metrics.record_charging_end.
  rewrite (bool_decide_eq_true_2 _ Hin). simpl.
  split.
  { rewrite Hcc, Hch. simpl. unfold Metrics.count. rewrite lookup_insert_eq. simpl.
    do 2 f_equal; lia. }
  split; [set_solver|].
  rewrite bool_decide_eq_false_2; [done|]. set_solver.
Qed.

(** ** The controllers *)

(** X14.  [_get_closest_charging_station], when every battery percentage
    of the world can be computed: an agent standing on a station gets
    [None]; an agent off the stations (of which there is at least one)
    gets a station other than its own cell: the nearest of the stations
    that are empty or hold an agent whose percentage, computed in doubles
    as the source computes it, is above 90, or, when there is none such,
    the nearest station. *)
Theorem closest_charging_station_choice
    (cfg : Controller.Config) (env : Env) (agent : Agent) :
  Controller.charging_stations cfg ≠ [] →
  batteries_readable env →
  (agent_pos agent ∈ Controller.charging_stations cfg →
   Controller._get_closest_charging_station cfg env agent = Ret None)
  ∧ (agent_pos agent ∉ Controller.charging_stations cfg →
     ∃ station,
       Controller._get_closest_charging_station cfg env agent = Ret (Some station)
       ∧ station ≠ agent_pos agent
       ∧ nearest_eligible_station cfg env agent station).
Proof.
  intros Hst Hread. split.
  - intros Hin. unfold Controller._get_closest_charging_station.
    by rewrite bool_decide_eq_true_2.
  - intros Hout.
    destruct (closest_station_exists cfg env agent Hread Hout Hst) as [station Hs].
    destruct (closest_charging_station_spec _ _ _ _ Hs) as (Hne & _ & Hnear).
    exists station. split; [done|]. split; done.
Qed.

Lemma closest_charging_station_choice_witness :
  (agent_pos Worlds.tired
     ∈ Controller.charging_stations
         (Controller.initialize_and_verify (Worlds.busy_env Worlds.tired)) →
   Controller._get_closest_charging_station
     (Controller.initialize_and_verify (Worlds.busy_env Worlds.tired))
     (Worlds.busy_env Worlds.tired) Worlds.tired = Ret None)
  ∧ (agent_pos Worlds.tired
       ∉ Controller.charging_stations
           (Controller.initialize_and_verify (Worlds.busy_env Worlds.tired)) →
     ∃ station,
       Controller._get_closest_charging_station
         (Controller.initialize_and_verify (Worlds.busy_env Worlds.tired))
         (Worlds.busy_env Worlds.tired) Worlds.tired = Ret (Some station)
       ∧ station ≠ agent_pos Worlds.tired
       ∧ nearest_eligible_station
           (Controller.initialize_and_verify (Worlds.busy_env Worlds.tired))
           (Worlds.busy_env Worlds.tired) Worlds.tired station).
Proof.
  apply (closest_charging_station_choice
           (Controller.initialize_and_verify (Worlds.busy_env Worlds.tired))
           (Worlds.busy_env Worlds.tired) Worlds.tired).
  - discriminate.
  - intros o Ho. apply list_elem_of_singleton in Ho as ->.
    eexists. vm_compute. reflexivity.
Defined.

(** X15.  The low-battery transition.  Take an agent that is not parked by
    the no-task branch and not yet in the charging state, whose battery
    level is above 0 and whose percentage, computed in doubles as the
    source computes it, is not below 10 and is below 20, whose charging
    flag is off and that is off the charging stations, in a world whose
    battery percentages can all be computed.  In that iteration the
    controller always saves the snapshot of its state, target and carried
    shelf, sets its state to charging and its target to the nearest
    eligible station. *)
Theorem low_battery_sends_agent_to_charge
    (fuel : nat) (cfg : Controller.Config) (env : Env) (agent : Agent)
    (st : Controller.St) (state : AgentState) (pct : Num.t) :
  (planner_fuel (mover_rows (Controller.shelf_mover cfg))
                (mover_cols (Controller.shelf_mover cfg)) ≤ fuel)%nat →
  Controller.agent_states st !! agent_id agent = Some state →
  state ∈ [deliver; return_shelf; charging]
  ∨ Controller._can_carry_any_shelf env st agent = true →
  unparked state ≠ charging →
  battery_pct env agent = Ret pct →
  Num.le (battery_level agent) (Num.PyInt 0) = false →
  Num.lt pct Controller.critical_battery_threshold = false →
  Num.lt pct Controller.low_battery_threshold = true →
  is_charging agent = false →
  batteries_readable env →
  agent_pos agent ∉ Controller.charging_stations cfg →
  Controller.charging_stations cfg ≠ [] →
  Controller.goal_locations cfg ≠ [] →
  ∃ station a st' data,
    Controller.process_agent fuel cfg env agent st = Ret (a, st')
    ∧ nearest_eligible_station cfg env agent station
    ∧ Controller.agent_states st' !! agent_id agent = Some charging
    ∧ Controller.agent_targets st' !! agent_id agent
      = Some (Some (Controller.mkTarget None station))
    ∧ Controller.pre_charging_data st'
      = <[agent_id agent := data]> (Controller.pre_charging_data st)
    ∧ snapshot_of cfg agent st (unparked state) data.
Proof.
  intros Hfuel Hstate Hpass Hnc Hcap Hlevel Hcrit Hlow Hch Hread Hhere Hstations
    Hgoals.
  destruct (closest_station_exists cfg env agent Hread Hhere Hstations)
    as [station Hst].
  destruct (process_agent_low fuel cfg env agent st state station pct)
    as (a & st' & data & Hp & H1 & H2 & _ & _ & H5 & H6); try done.
  destruct (closest_charging_station_spec _ _ _ _ Hst) as (_ & _ & Hnear).
  exists station, a, st', data. split; [done|]. split; [done|]. done.
Qed.

Lemma low_battery_sends_agent_to_charge_witness :
  ∃ station a st' data,
    Controller.process_agent (planner_fuel 5 5)
      (Controller.initialize_and_verify (Worlds.busy_env Worlds.tired))
      (Worlds.busy_env Worlds.tired) Worlds.tired
      (Worlds.busy_st Worlds.tired) = Ret (a, st')
    ∧ Controller.agent_targets st' !! 0
      = Some (Some (Controller.mkTarget None station))
    ∧ Controller.pre_charging_data st' !! 0 = Some data
    ∧ Controller.pre_state data = seek_shelf.
Proof.
  destruct (low_battery_sends_agent_to_charge (planner_fuel 5 5)
              (Controller.initialize_and_verify (Worlds.busy_env Worlds.tired))
              (Worlds.busy_env Worlds.tired) Worlds.tired
              (Worlds.busy_st Worlds.tired) seek_shelf (Num.PyFloat 15))
    as (station & a & st' & data & Hp & _ & _ & Ht & Hd & Hsnap).
  - apply le_n.
  - reflexivity.
  - right. vm_compute. reflexivity.
  - discriminate.
  - vm_compute. reflexivity.
  - reflexivity.
  - reflexivity.
  - reflexivity.
  - reflexivity.
  - intros o Ho. apply list_elem_of_singleton in Ho as ->.
    eexists. vm_compute. reflexivity.
  - intros H. vm_compute in H.
    repeat (apply elem_of_cons in H as [H|H]; [discriminate H|]).
    by apply elem_of_nil in H.
  - discriminate.
  - vm_compute. discriminate.
  - exists station, a, st', data. split; [exact Hp|]. split; [exact Ht|].
    split; [rewrite Hd; apply lookup_insert_eq|]. apply Hsnap.
Defined.

(** X16.  A depleted agent that has a task is frozen: for an agent that
    passes the no-task branch (it is delivering, returning or charging, or
    some shelf can be carried) and whose battery level is 0 or less, the
    controller emits NOOP, counts one more battery failure and lists the
    agent among the discharged ones; its task state is not changed. *)
Theorem depleted_agent_with_task_gets_noop
    (fuel : nat) (cfg : Controller.Config) (env : Env) (agent : Agent)
    (st : Controller.St) (state : AgentState) (pct : Num.t) :
  Controller.agent_states st !! agent_id agent = Some state →
  state ∈ [deliver; return_shelf; charging]
  ∨ Controller._can_carry_any_shelf env st agent = true →
  battery_pct env agent = Ret pct →
  Num.le (battery_level agent) (Num.PyInt 0) = true →
  ∃ st', Controller.process_agent fuel cfg env agent st = Ret (Action.NOOP, st')
    ∧ Metrics.battery_failures (Controller.metrics st')
      = Metrics.battery_failures (Controller.metrics st) + 1
    ∧ agent_id agent ∈ Metrics.discharged_agents (Controller.metrics st')
    ∧ Controller.agent_states st' !! agent_id agent = Some (unparked state).
Proof. apply depleted_agent_with_task_is_frozen. Qed.

Lemma depleted_agent_with_task_gets_noop_witness :
  ∃ st',
    Controller.process_agent 0
      (Controller.initialize_and_verify (Worlds.busy_env Worlds.flat))
      (Worlds.busy_env Worlds.flat) Worlds.flat (Worlds.busy_st Worlds.flat)
    = Ret (Action.NOOP, st')
    ∧ Metrics.battery_failures (Controller.metrics st') = 1.
Proof.
  destruct (depleted_agent_with_task_gets_noop 0
              (Controller.initialize_and_verify (Worlds.busy_env Worlds.flat))
              (Worlds.busy_env Worlds.flat) Worlds.flat
              (Worlds.busy_st Worlds.flat) seek_shelf (Num.PyFloat 0))
    as (st' & Hp & Hf & _).
  - reflexivity.
  - right. vm_compute. reflexivity.
  - vm_compute. reflexivity.
  - reflexivity.
  - exists st'. split; [exact Hp | exact Hf].
Defined.

(** X17.  The critical-battery transition.  Take an agent that is not
    parked by the no-task branch (it is delivering, returning or charging,
    or some shelf can be carried), whose battery level is above 0 and
    whose percentage, computed in doubles as the source computes it, is
    below 10, whose charging flag is off and that is off the charging
    stations, in a world whose battery percentages can all be computed.
    In that iteration the controller sets its state to charging and its
    target to the nearest eligible station; if its task state was not
    charging and it had a target, the saved context is the snapshot of its
    state, target and carried shelf; otherwise the saved context stays as
    it was. *)
Theorem critical_battery_sends_agent_to_charge
    (fuel : nat) (cfg : Controller.Config) (env : Env) (agent : Agent)
    (st : Controller.St) (state : AgentState) (pct : Num.t) :
  (planner_fuel (mover_rows (Controller.shelf_mover cfg))
                (mover_cols (Controller.shelf_mover cfg)) ≤ fuel)%nat →
  Controller.agent_states st !! agent_id agent = Some state →
  state ∈ [deliver; return_shelf; charging]
  ∨ Controller._can_carry_any_shelf env st agent = true →
  battery_pct env agent = Ret pct →
  Num.le (battery_level agent) (Num.PyInt 0) = false →
  Num.lt pct Controller.critical_battery_threshold = true →
  is_charging agent = false →
  batteries_readable env →
  agent_pos agent ∉ Controller.charging_stations cfg →
  Controller.charging_stations cfg ≠ [] →
  Controller.goal_locations cfg ≠ [] →
  ∃ station a st',
    Controller.process_agent fuel cfg env agent st = Ret (a, st')
    ∧ nearest_eligible_station cfg env agent station
    ∧ Controller.agent_states st' !! agent_id agent = Some charging
    ∧ Controller.agent_targets st' !! agent_id agent
      = Some (Some (Controller.mkTarget None station))
    ∧ (unparked state ≠ charging →
       ∀ tgt, Controller.agent_targets st !! agent_id agent = Some (Some tgt) →
       ∃ data, Controller.pre_charging_data st'
               = <[agent_id agent := data]> (Controller.pre_charging_data st)
               ∧ snapshot_of cfg agent st (unparked state) data)
    ∧ (unparked state = charging
       ∨ (∀ tgt, Controller.agent_targets st !! agent_id agent ≠ Some (Some tgt)) →
       Controller.pre_charging_data st' = Controller.pre_charging_data st).
Proof.
  intros Hfuel Hstate Hpass Hpct Hlevel Hcrit Hch Hread Hhere Hstations Hgoals.
  destruct (closest_station_exists cfg env agent Hread Hhere Hstations)
    as [station Hst].
  destruct (process_agent_critical fuel cfg env agent st state station pct)
    as (a & st' & Hp & H1 & H2 & _ & _ & H5 & H6); try done.
  destruct (closest_charging_station_spec _ _ _ _ Hst) as (_ & _ & Hnear).
  exists station, a, st'. split; [done|]. split; [done|]. done.
Qed.

Lemma critical_battery_sends_agent_to_charge_witness :
  ∃ station a st',
    Controller.process_agent (planner_fuel 5 5)
      (Controller.initialize_and_verify (Worlds.busy_env Worlds.drained))
      (Worlds.busy_env Worlds.drained) Worlds.drained
      (Worlds.busy_st Worlds.drained) = Ret (a, st')
    ∧ Controller.agent_states st' !! 0 = Some charging
    ∧ Controller.agent_targets st' !! 0
      = Some (Some (Controller.mkTarget None station)).
Proof.
  destruct (critical_battery_sends_agent_to_charge (planner_fuel 5 5)
              (Controller.initialize_and_verify (Worlds.busy_env Worlds.drained))
              (Worlds.busy_env Worlds.drained) Worlds.drained
              (Worlds.busy_st Worlds.drained) seek_shelf (Num.PyFloat 9))
    as (station & a & st' & Hp & _ & Hs & Ht & _).
  - apply le_n.
  - reflexivity.
  - right. vm_compute. reflexivity.
  - vm_compute. reflexivity.
  - reflexivity.
  - reflexivity.
  - reflexivity.
  - intros o Ho. apply list_elem_of_singleton in Ho as ->.
    eexists. vm_compute. reflexivity.
  - intros H. vm_compute in H.
    repeat (apply elem_of_cons in H as [H|H]; [discriminate H|]).
    by apply elem_of_nil in H.
  - discriminate.
  - vm_compute. discriminate.
  - exists station, a, st'. split; [exact Hp|]. split; [exact Hs | exact Ht].
Defined.

(** An empty battery is below the critical threshold too, but the freeze
    comes first: agent 0 of [busy_env], at 0 of 100 with its charging flag
    off, is given NOOP and stays in seek_shelf with the target it had and
    no saved context. *)
Lemma flat_agent_is_not_sent_to_charge :
  (pct ← battery_pct (Worlds.busy_env Worlds.flat) Worlds.flat;
   Ret (Num.lt pct Controller.critical_battery_threshold)) = Ret true
  ∧ is_charging Worlds.flat = false
  ∧ (λ r : Action.t * Controller.St,
       (r.1,
        Controller.agent_states r.2 !! 0,
        Controller.agent_targets r.2 !! 0,
        Controller.pre_charging_data r.2 !! 0))
    <$> Controller.process_agent (planner_fuel 5 5)
          (Controller.initialize_and_verify (Worlds.busy_env Worlds.flat))
          (Worlds.busy_env Worlds.flat) Worlds.flat (Worlds.busy_st Worlds.flat)
    = Ret (Action.NOOP, Some seek_shelf,
           Some (Some (Controller.mkTarget (Some 7) (3, 3))), None).
Proof.
  split; [vm_compute; reflexivity|]. split; [reflexivity|]. vm_compute. reflexivity.
Qed.

(** ** Waiting areas *)

Lemma min_by_least {A} (f : A → Z) (best : A) (l : list A) (x : A) :
  x ∈ best :: l → f (min_by (λ a, Some (f a)) best l) ≤ f x.
Proof.
  revert best x. induction l as [|y l IH]; intros best x Hx.
  - apply list_elem_of_singleton in Hx as ->. simpl. lia.
  - cbn [min_by key_lt]. destruct (f y <? f best) eqn:E.
    + apply Z.ltb_lt in E.
      apply elem_of_cons in Hx as [->|Hx]; [|by apply IH].
      specialize (IH y y ltac:(left)). lia.
    + apply Z.ltb_ge in E.
      apply elem_of_cons in Hx as [->|Hx]; [apply IH; left|].
      apply elem_of_cons in Hx as [->|Hx]; [|apply IH; by right].
      specialize (IH best best ltac:(left)). lia.
Qed.

Lemma waiting_areas_spec_aux
    (env : Env) (goal_locations charging_stations : list Pos) (p : Pos) :
  p ∈ Controller._identify_waiting_areas env goal_locations charging_stations →
  p ∈ all_positions (grid_rows env) (grid_cols env)
  ∨ p ∈ [(0, 0); (grid_cols env - 1, 0); (0, grid_rows env - 1);
         (grid_cols env - 1, grid_rows env - 1)].
Proof.
  unfold Controller._identify_waiting_areas.
  destruct (filter _ (all_positions (grid_rows env) (grid_cols env)))
    as [|a available] eqn:E.
  - intros Hp. right.
    destruct (filter _ [_; _; _; _]) as [|c cs] eqn:Ec; [done|].
    rewrite <- Ec in Hp. by apply list_elem_of_filter in Hp as [_ Hp].
  - intros Hp. left. rewrite <- E in Hp. by apply list_elem_of_filter in Hp as [_ Hp].
Qed.

(** X18.  [_identify_waiting_areas] never returns an empty list.  Its
    areas are the cells of the grid that hold no shelf, goal or charging
    station and touch no shelf (in any of the 8 directions); only when the
    grid has no such cell does it fall back to corners of the grid. *)
Theorem waiting_areas_spec
    (env : Env) (goal_locations charging_stations : list Pos) :
  let areas :=
    Controller._identify_waiting_areas env goal_locations charging_stations in
  let shelf_positions : gset Pos := list_to_set (shelf_pos <$> shelfs env) in
  let clear (p : Pos) :=
    p ∈ all_positions (grid_rows env) (grid_cols env)
    ∧ p ∉ shelf_positions ∧ p ∉ goal_locations ∧ p ∉ charging_stations
    ∧ Controller.is_adjacent_to_shelf shelf_positions p = false in
  areas ≠ []
  ∧ ((∃ p, clear p) → ∀ p, p ∈ areas ↔ clear p)
  ∧ ((∀ p, ¬ clear p) →
     ∀ p, p ∈ areas →
          p ∈ [(0, 0); (grid_cols env - 1, 0); (0, grid_rows env - 1);
               (grid_cols env - 1, grid_rows env - 1)]).
Proof.
  intros areas shelf_positions clear.
  unfold areas, Controller._identify_waiting_areas. fold shelf_positions.
  set (P := λ pos : Pos,
              pos ∉ shelf_positions ∪ list_to_set goal_locations
                    ∪ list_to_set charging_stations
              ∧ Controller.is_adjacent_to_shelf shelf_positions pos = false).
  assert (Hclear : ∀ p, p ∈ filter P (all_positions (grid_rows env) (grid_cols env))
                        ↔ clear p).
  { intros p. rewrite list_elem_of_filter. unfold P, clear.
    rewrite !not_elem_of_union, !elem_of_list_to_set. tauto. }
  destruct (filter P (all_positions (grid_rows env) (grid_cols env)))
    as [|a available] eqn:E.
  - split; [|split].
    + destruct (filter _ [_; _; _; _]); done.
    + intros [p Hp]. apply Hclear in Hp. by apply elem_of_nil in Hp.
    + intros _ p Hp.
      destruct (filter _ [_; _; _; _]) as [|c cs] eqn:Ec; [done|].
      rewrite <- Ec in Hp. by apply list_elem_of_filter in Hp as [_ Hp].
  - split; [done|]. split.
    + intros _ p. apply Hclear.
    + intros Hnone. exfalso. apply (Hnone a), Hclear. left.
Qed.

(** X19.  [_get_waiting_area] on a controller with at least one waiting
    area always assigns: it returns an area and records it for the agent,
    so that asking again returns the same area and changes nothing; the
    areas of the other agents are not touched.  A new assignment is one of
    the waiting areas, and while some waiting area is not assigned to
    anybody it is such a free area, the one nearest to the agent. *)
Theorem get_waiting_area_assigns
    (cfg : Controller.Config) (agent : Agent) (st : Controller.St) :
  Controller.waiting_areas cfg ≠ [] →
  let assigned := Controller.assigned_waiting_areas st in
  let free (a : Pos) :=
    a ∈ Controller.waiting_areas cfg ∧ ∀ o, assigned !! o ≠ Some a in
  ∃ area st',
    Controller._get_waiting_area cfg agent st = Ret (area, st')
    ∧ Controller.assigned_waiting_areas st' !! agent_id agent = Some area
    ∧ Controller._get_waiting_area cfg agent st' = Ret (area, st')
    ∧ (∀ o, o ≠ agent_id agent →
            Controller.assigned_waiting_areas st' !! o = assigned !! o)
    ∧ (assigned !! agent_id agent = None → area ∈ Controller.waiting_areas cfg)
    ∧ (assigned !! agent_id agent = None →
       ∀ a, free a →
            free area
            ∧ manhattan area (agent_pos agent) ≤ manhattan a (agent_pos agent)).
Proof.
  intros Hne assigned free. unfold Controller._get_waiting_area. fold assigned.
  destruct (assigned !! agent_id agent) as [area|] eqn:Ha.
  - exists area, st. fold assigned. rewrite Ha. done.
  - assert (Hfree : ∀ a, a ∈ filter (λ area, area ∉ (map_img assigned : gset Pos))
                               (Controller.waiting_areas cfg) ↔ free a).
    { intros a. rewrite list_elem_of_filter, not_elem_of_map_img. unfold free. tauto. }
    destruct (filter _ (Controller.waiting_areas cfg)) as [|a0 rest] eqn:Ef.
    + case_decide as Hn.
      { destruct (Controller.waiting_areas cfg); [done|discriminate]. }
      destruct (Controller.waiting_areas cfg
                  !! Z.to_nat (agent_id agent `mod`
                               Z.of_nat (length (Controller.waiting_areas cfg))))
        as [area|] eqn:El.
      * exists area. eexists. split; [reflexivity|]. simpl.
        rewrite lookup_insert_eq. split; [done|]. split; [done|].
        split; [intros o Ho; by rewrite lookup_insert_ne|].
        split; [intros _; by eapply list_elem_of_lookup_2|].
        intros _ a Hfa. apply Hfree in Hfa. by apply elem_of_nil in Hfa.
      * apply lookup_ge_None in El.
        pose proof (Z.mod_pos_bound (agent_id agent)
                      (Z.of_nat (length (Controller.waiting_areas cfg)))) as Hb.
        lia.
    + set (area := min_by (λ pos, Some (manhattan pos (agent_pos agent))) a0 rest).
      exists area. eexists. split; [reflexivity|]. simpl.
      rewrite lookup_insert_eq. split; [done|]. split; [done|].
      split; [intros o Ho; by rewrite lookup_insert_ne|].
      assert (Hin : free area).
      { apply Hfree. apply min_by_elem_of. }
      split; [intros _; apply Hin|].
      intros _ a Hfa. split; [done|].
      apply (min_by_least (λ pos, manhattan pos (agent_pos agent))).
      by apply Hfree.
Qed.

Lemma get_waiting_area_assigns_witness :
  ∃ area st',
    Controller._get_waiting_area
      (Controller.initialize_and_verify Worlds.idle_env) Worlds.depleted
      (Controller.initial_state Worlds.idle_env) = Ret (area, st')
    ∧ Controller.assigned_waiting_areas st' !! 0 = Some area.
Proof.
  destruct (get_waiting_area_assigns
              (Controller.initialize_and_verify Worlds.idle_env) Worlds.depleted
              (Controller.initial_state Worlds.idle_env))
    as (area & st' & Hr & Ha & _).
  - vm_compute. discriminate.
  - exists area, st'. split; [exact Hr | exact Ha].
Defined.

(** ** Shelf selection *)

Section Selection.
Variable cfg : Controller.Config.
Variable env : Env.
Variable st : Controller.St.
Variable agent : Agent.

Let ok (shelf : Shelf) : bool :=
  negb (is_carried env shelf)
  && negb (Controller.reserved_by_other st agent shelf)
  && (shelf_weight shelf <=? max_carry_weight agent).

Let best_so_far (seen : list Shelf) (acc : option Shelf * option Z) : Prop :=
  match acc with
  | (Some s, Some d) =>
      d = shelf_distance cfg agent s ∧ s ∈ seen ∧ ok s = true
      ∧ ∀ t, t ∈ seen → ok t = true → d ≤ shelf_distance cfg agent t
  | (None, None) => ∀ t, t ∈ seen → ok t = false
  | _ => False
  end.

Lemma consider_best (seen : list Shelf) acc (shelf : Shelf) :
  best_so_far seen acc →
  best_so_far (seen ++ [shelf]) (Controller.consider cfg env st agent acc shelf).
Proof.
  unfold Controller.consider. fold (shelf_distance cfg agent shelf).
  intros Hacc.
  assert (Hskip : ok shelf = false → best_so_far (seen ++ [shelf]) acc).
  { intros Hno. destruct acc as [[s|] [d|]]; try done; simpl in *.
    - destruct Hacc as (Hd & Hs & Hok & Hmin). split; [done|].
      split; [set_solver|]. split; [done|].
      intros t [Ht| ->%list_elem_of_singleton]%elem_of_app; [by apply Hmin|].
      congruence.
    - intros t [Ht| ->%list_elem_of_singleton]%elem_of_app; [by apply Hacc|done]. }
  destruct (is_carried env shelf) eqn:E1; [apply Hskip; unfold ok; by rewrite E1|].
  destruct (Controller.reserved_by_other st agent shelf) eqn:E2;
    [apply Hskip; unfold ok; by rewrite E1, E2|].
  destruct (max_carry_weight agent <? shelf_weight shelf) eqn:E3.
  { apply Hskip. unfold ok. rewrite E1, E2. simpl. lia. }
  assert (Hok : ok shelf = true) by (unfold ok; rewrite E1, E2; simpl; lia).
  destruct acc as [[s|] [d|]]; try done; simpl in *.
  - destruct Hacc as (Hd & Hs & Hoks & Hmin).
    destruct (shelf_distance cfg agent shelf <? d) eqn:E4; simpl.
    + split; [done|]. split; [set_solver|]. split; [done|].
      intros t [Ht| ->%list_elem_of_singleton]%elem_of_app Hokt; [|lia].
      specialize (Hmin t Ht Hokt). lia.
    + split; [done|]. split; [set_solver|]. split; [done|].
      intros t [Ht| ->%list_elem_of_singleton]%elem_of_app Hokt; [by apply Hmin|lia].
  - split; [done|]. split; [set_solver|]. split; [done|].
    intros t [Ht| ->%list_elem_of_singleton]%elem_of_app Hokt; [|lia].
    rewrite Hacc in Hokt by done. discriminate.
Qed.

Lemma select_best (l seen : list Shelf) acc :
  best_so_far seen acc →
  best_so_far (seen ++ l) (foldl (Controller.consider cfg env st agent) acc l).
Proof.
  revert seen acc. induction l as [|x l IH]; intros seen acc Hacc.
  - by rewrite app_nil_r.
  - simpl. replace (seen ++ x :: l) with ((seen ++ [x]) ++ l)
      by (by rewrite <- app_assoc).
    apply IH. by apply consider_best.
Qed.

Lemma selectable_ok (shelf : Shelf) :
  selectable env agent st shelf ↔ shelf ∈ request_queue env ∧ ok shelf = true.
Proof.
  unfold selectable, ok. rewrite !andb_true_iff, !negb_true_iff, Z.leb_le. tauto.
Qed.

Lemma select_shelf_spec :
  match Controller.select_shelf cfg env st agent with
  | Some shelf =>
      selectable env agent st shelf
      ∧ ∀ t, selectable env agent st t →
             shelf_distance cfg agent shelf ≤ shelf_distance cfg agent t
  | None => ∀ t, ¬ selectable env agent st t
  end.
Proof.
  unfold Controller.select_shelf.
  pose proof (select_best (request_queue env) [] (None, None)) as H.
  simpl in H. specialize (H ltac:(by intros t Ht%elem_of_nil)).
  destruct (foldl _ _ _) as [[s|] [d|]]; try done; simpl in *.
  - destruct H as (-> & Hs & Hok & Hmin). split; [by apply selectable_ok|].
    intros t [Ht Hokt]%selectable_ok. by apply Hmin.
  - intros t [Ht Hokt]%selectable_ok. rewrite H in Hokt by done. discriminate.
Qed.

Lemma can_carry_selectable :
  Controller._can_carry_any_shelf env st agent = true
  ↔ ∃ t, selectable env agent st t.
Proof.
  unfold Controller._can_carry_any_shelf. rewrite existsb_exists.
  setoid_rewrite <- list_elem_of_In. setoid_rewrite selectable_ok. done.
Qed.

End Selection.

(** X20.  The shelf selection of the A* controller.  The shelf it returns
    is one of the selectable shelves (in the request queue, not carried by
    any agent, not under a live reservation of another agent, within the
    agent's capacity) and none of them is nearer to the agent; it returns
    nothing exactly when [_can_carry_any_shelf] is false, that is, when
    no shelf is selectable. *)
Theorem select_shelf_nearest_selectable
    (cfg : Controller.Config) (env : Env) (st : Controller.St) (agent : Agent) :
  (∀ shelf, Controller.select_shelf cfg env st agent = Some shelf →
            selectable env agent st shelf
            ∧ ∀ t, selectable env agent st t →
                   shelf_distance cfg agent shelf ≤ shelf_distance cfg agent t)
  ∧ (Controller.select_shelf cfg env st agent = None
     ↔ Controller._can_carry_any_shelf env st agent = false)
  ∧ (Controller._can_carry_any_shelf env st agent = true
     ↔ ∃ t, selectable env agent st t).
Proof.
  pose proof (select_shelf_spec cfg env st agent) as Hsel.
  pose proof (can_carry_selectable env st agent) as Hcan.
  split; [|split; [|done]].
  - intros shelf E. by rewrite E in Hsel.
  - destruct (Controller.select_shelf cfg env st agent) as [s|].
    + destruct Hsel as [Hs _]. split; [done|].
      intros Hno. assert (Controller._can_carry_any_shelf env st agent = true)
        by (apply Hcan; by exists s). congruence.
    + split; [|done]. intros _.
      destruct (Controller._can_carry_any_shelf env st agent) eqn:E; [|done].
      destruct (proj1 Hcan eq_refl) as [t Ht]. by apply Hsel in Ht.
Qed.

(** ** The delivery cycle *)

Section TaskCycle.
Variable fuel : nat.
Variable cfg : Controller.Config.
Variable env : Env.
Variable agent : Agent.
Let id := agent_id agent.

Hypothesis fuel_enough :
  (planner_fuel (mover_rows (Controller.shelf_mover cfg))
                (mover_cols (Controller.shelf_mover cfg)) ≤ fuel)%nat.

(** An agent that is delivering or returning, with an empty queue and a
    battery that is not low, reaches the task blocks. *)
Lemma process_agent_runs_task (st : Controller.St) (state : AgentState) :
  Controller.agent_states st !! id = Some state →
  state ∈ [deliver; return_shelf] →
  Controller.last_actions st !! id = Some [] →
  Num.le (battery_level agent) (Num.PyInt 0) = false →
  Controller._needs_charging env agent = Ret false →
  ∃ st1, Controller.process_agent fuel cfg env agent st
         = Controller.task_block fuel cfg env agent st1
    ∧ same_tasks st st1.
Proof.
  intros Hstate Hin Hqueue Hlevel Hlow.
  assert (Hnc : state ≠ charging ∧ state ≠ no_shelf_to_carry).
  { split; intros ->; set_solver. }
  destruct Hnc as [Hnc Hnn].
  unfold Controller.process_agent.
  rewrite (no_task_block_passes _ _ _ _ _ state) by (auto; left; set_solver).
  rewrite decide_False by done. unfold_bind.
  unfold Controller.check_battery_and_act.
  rewrite battery_block_passes by done. unfold_bind.
  unfold Controller.monitor_and_act, Controller.stuck_monitor. fold id.
  assert (Hfwd : ∀ st0, Controller.last_actions st0 = Controller.last_actions st →
                        Controller.forward_is_next id st0 = false).
  { intros st0 E. unfold Controller.forward_is_next. by rewrite E, Hqueue. }
  rewrite Hfwd by done. unfold_bind. simpl.
  rewrite lookup_insert_eq. simpl.
  destruct (bool_decide (Controller.in_recovery st !! id = Some true)) eqn:Hrec;
    simpl;
    rewrite Hfwd by done; rewrite andb_false_r;
    unfold Controller.drain_queue; simpl; fold id; rewrite Hqueue;
    unfold Controller.charging_block; fold id; simpl;
    unfold_bind; unfold getitem; simpl; rewrite Hstate; simpl;
    rewrite decide_False by done;
    (eexists; split; [reflexivity|]);
    unfold same_tasks; simpl; unfold Metrics.record_recovery_step;
    try destruct (default false _); simpl; done.
Qed.

End TaskCycle.

Lemma nearest_goal_spec (cfg : Controller.Config) (agent : Agent) :
  Controller.goal_locations cfg ≠ [] →
  ∃ goal, Controller.nearest_goal cfg agent = Ret goal
    ∧ goal ∈ Controller.goal_locations cfg
    ∧ ∀ g, g ∈ Controller.goal_locations cfg →
           manhattan goal (agent_pos agent) ≤ manhattan g (agent_pos agent).
Proof.
  intros Hne. unfold Controller.nearest_goal.
  destruct (Controller.goal_locations cfg) as [|g gs]; [done|].
  eexists. split; [reflexivity|]. split; [apply min_by_elem_of|].
  intros g' Hg'. by apply (min_by_least (λ g, manhattan g (agent_pos agent))).
Qed.

(** X21.  Delivering.  For an agent in the deliver state that carries a
    shelf, with an empty queue and a battery that is not low, the
    controller aims at the goal nearest to the agent (and moves the
    position of the agent's target there).  On that goal it emits
    TOGGLE_LOAD, moves the agent to return_shelf and leaves its queue
    empty; elsewhere the agent stays in deliver, the action is the first
    one of the planned sequence (NOOP when the plan is empty) and the rest
    of the sequence is queued. *)
Theorem delivering_agent_unloads_on_nearest_goal
    (fuel : nat) (cfg : Controller.Config) (env : Env) (agent : Agent)
    (st : Controller.St) (sid : Z) :
  (planner_fuel (mover_rows (Controller.shelf_mover cfg))
                (mover_cols (Controller.shelf_mover cfg)) ≤ fuel)%nat →
  Controller.agent_states st !! agent_id agent = Some deliver →
  carrying_shelf agent = Some sid →
  Controller.last_actions st !! agent_id agent = Some [] →
  Controller.agent_targets st !! agent_id agent ≠ Some None →
  Num.le (battery_level agent) (Num.PyInt 0) = false →
  Controller._needs_charging env agent = Ret false →
  Controller.goal_locations cfg ≠ [] →
  ∃ goal plan a st',
    Controller.process_agent fuel cfg env agent st = Ret (a, st')
    ∧ goal ∈ Controller.goal_locations cfg
    ∧ (∀ g, g ∈ Controller.goal_locations cfg →
            manhattan goal (agent_pos agent) ≤ manhattan g (agent_pos agent))
    ∧ Controller.plan_to fuel cfg env st agent goal = Ret plan
    ∧ (∀ tgt, Controller.agent_targets st !! agent_id agent = Some (Some tgt) →
              Controller.agent_targets st' !! agent_id agent
              = Some (Some (Controller.mkTarget (Controller.target_id tgt) goal)))
    ∧ (agent_pos agent = goal →
       a = Action.TOGGLE_LOAD
       ∧ Controller.agent_states st' !! agent_id agent = Some return_shelf
       ∧ Controller.last_actions st' !! agent_id agent = Some [])
    ∧ (agent_pos agent ≠ goal →
       a = Controller.first_or Action.NOOP plan
       ∧ Controller.agent_states st' !! agent_id agent = Some deliver
       ∧ Controller.last_actions st' !! agent_id agent = Some (tail plan)).
Proof.
  intros Hfuel Hstate Hcarry Hqueue Htgt Hlevel Hlow Hgoals.
  destruct (process_agent_runs_task fuel cfg env agent Hfuel st deliver)
    as (st1 & -> & Hs & Ht & Hq & _); try done; [set_solver|].
  destruct (nearest_goal_spec cfg agent Hgoals) as (goal & Hg & Hin & Hmin).
  destruct (plan_to_total fuel cfg env agent Hfuel st goal) as [plan Hplan].
  unfold Controller.task_block, getitem. rewrite Hs, Hstate, Hcarry.
  cbn [mbind outcome_mbind outcome_bind].
  unfold Controller.deliver_block. rewrite Hg.
  cbn [mbind outcome_mbind outcome_bind].
  unfold Controller.retarget. rewrite Ht.
  assert (Hp : ∀ s0, Controller.agent_states s0 = Controller.agent_states st →
                     Controller.plan_to fuel cfg env s0 agent goal = Ret plan).
  { intros s0 E. unfold Controller.plan_to in *. by rewrite E. }
  assert (Hk : ∀ s0 : Controller.St,
            Controller.last_actions s0 !! agent_id agent = Some [] →
            Controller.agent_states (Controller.keep_tail (agent_id agent) plan s0)
            = Controller.agent_states s0
            ∧ Controller.agent_targets (Controller.keep_tail (agent_id agent) plan s0)
              = Controller.agent_targets s0
            ∧ Controller.last_actions (Controller.keep_tail (agent_id agent) plan s0)
                !! agent_id agent = Some (tail plan)).
  { intros s0 E. destruct plan; simpl; [done|]. by rewrite lookup_insert_eq. }
  exists goal, plan.
  destruct (Controller.agent_targets st !! agent_id agent) as [[tgt|]|] eqn:Et;
    [|done|];
    cbn [mbind outcome_mbind outcome_bind];
    rewrite Hp by done; cbn [mbind outcome_mbind outcome_bind];
    (case_decide as Hat;
     [ eexists _, _; split; [reflexivity|]
     | eexists _, _; split; [reflexivity|] ]);
    (split; [done|]); (split; [done|]); (split; [done|]).
  - split.
    { intros ? [= <-]. simpl.
      match goal with |- context [Controller.keep_tail _ _ ?s0] =>
        destruct (Hk s0) as (_ & -> & _); [simpl; by rewrite Hq|] end.
      simpl. by rewrite lookup_insert_eq. }
    split; [|done]. intros _. simpl. by rewrite !lookup_insert_eq.
  - split.
    { intros ? [= <-].
      match goal with |- context [Controller.keep_tail _ _ ?s0] =>
        destruct (Hk s0) as (_ & -> & _); [simpl; by rewrite Hq|] end.
      simpl. by rewrite lookup_insert_eq. }
    split; [done|]. intros _.
    match goal with |- context [Controller.keep_tail _ _ ?s0] =>
      destruct (Hk s0) as (-> & _ & ->); [simpl; by rewrite Hq|] end.
    simpl. by rewrite Hs.
  - split; [done|]. split; [|done]. intros _. simpl. by rewrite !lookup_insert_eq.
  - split; [done|]. split; [done|]. intros _.
    match goal with |- context [Controller.keep_tail _ _ ?s0] =>
      destruct (Hk s0) as (-> & _ & ->); [by rewrite Hq|] end.
    by rewrite Hs.
Qed.

Lemma delivering_agent_unloads_on_nearest_goal_witness :
  ∃ st',
    Controller.process_agent (planner_fuel 5 5)
      (Controller.initialize_and_verify (Deliveries.env_of Deliveries.porter))
      (Deliveries.env_of Deliveries.porter) Deliveries.porter
      (Deliveries.st_of Deliveries.porter deliver)
    = Ret (Action.TOGGLE_LOAD, st')
    ∧ Controller.agent_states st' !! 0 = Some return_shelf.
Proof.
  destruct (delivering_agent_unloads_on_nearest_goal (planner_fuel 5 5)
              (Controller.initialize_and_verify (Deliveries.env_of Deliveries.porter))
              (Deliveries.env_of Deliveries.porter) Deliveries.porter
              (Deliveries.st_of Deliveries.porter deliver) 7)
    as (goal & plan & a & st' & Hp & Hin & _ & _ & _ & Hat & _).
  - apply le_n.
  - reflexivity.
  - reflexivity.
  - reflexivity.
  - discriminate.
  - reflexivity.
  - reflexivity.
  - vm_compute. discriminate.
  - vm_compute in Hin. apply list_elem_of_singleton in Hin. subst goal.
    destruct (Hat eq_refl) as (-> & Hs & _).
    exists st'. split; [exact Hp | exact Hs].
Defined.

(** X22.  Returning.  For an agent in the return_shelf state, with an
    empty queue and a battery that is not low, that stands on the home
    cell of the shelf it carries (the cell recorded in the shelf memory),
    the controller emits TOGGLE_LOAD, sends the agent back to seek_shelf
    with no target and an empty queue, and completes the task in the
    metrics: if the task was started, one more successful delivery is
    counted and the shelf is listed as completed; if it was not (the
    agent picked the shelf up where it stood), nothing is counted. *)
Theorem returning_agent_completes_task
    (fuel : nat) (cfg : Controller.Config) (env : Env) (agent : Agent)
    (st : Controller.St) (sid : Z) :
  (planner_fuel (mover_rows (Controller.shelf_mover cfg))
                (mover_cols (Controller.shelf_mover cfg)) ≤ fuel)%nat →
  Controller.agent_states st !! agent_id agent = Some return_shelf →
  carrying_shelf agent = Some sid →
  Controller.shelf_memory cfg !! sid = Some (agent_pos agent) →
  Controller.last_actions st !! agent_id agent = Some [] →
  Controller.agent_targets st !! agent_id agent ≠ Some None →
  Num.le (battery_level agent) (Num.PyInt 0) = false →
  Controller._needs_charging env agent = Ret false →
  ∃ st',
    Controller.process_agent fuel cfg env agent st = Ret (Action.TOGGLE_LOAD, st')
    ∧ Controller.agent_states st' !! agent_id agent = Some seek_shelf
    ∧ Controller.agent_targets st' !! agent_id agent = Some None
    ∧ Controller.last_actions st' !! agent_id agent = Some []
    ∧ (agent_id agent, sid) ∉ Metrics.task_start_times (Controller.metrics st')
    ∧ Metrics.successful_deliveries (Controller.metrics st')
      = Metrics.successful_deliveries (Controller.metrics st)
        + (if bool_decide ((agent_id agent, sid)
                            ∈ Metrics.task_start_times (Controller.metrics st))
           then 1 else 0)
    ∧ ((agent_id agent, sid) ∈ Metrics.task_start_times (Controller.metrics st) →
       sid ∈ Metrics.completed_shelves (Controller.metrics st')).
Proof.
  intros Hfuel Hstate Hcarry Hhome Hqueue Htgt Hlevel Hlow.
  destruct (process_agent_runs_task fuel cfg env agent Hfuel st return_shelf)
    as (st1 & -> & Hs & Ht & Hq & _ & _ & _ & Hts & Hsd & Hcs & _); try done;
    [set_solver|].
  destruct (plan_to_total fuel cfg env agent Hfuel st (agent_pos agent))
    as [plan Hplan].
  unfold Controller.task_block, getitem. rewrite Hs, Hstate.
  cbn [mbind outcome_mbind outcome_bind].
  unfold Controller.return_shelf_block. rewrite Hcarry, Hhome.
  unfold Controller.retarget. rewrite Ht.
  assert (Hp : ∀ s0, Controller.agent_states s0 = Controller.agent_states st →
                     Controller.plan_to fuel cfg env s0 agent (agent_pos agent)
                     = Ret plan).
  { intros s0 E. unfold Controller.plan_to in *. by rewrite E. }
  assert (Hk : ∀ s0 : Controller.St,
            Controller.metrics (Controller.keep_tail (agent_id agent) plan s0)
            = Controller.metrics s0)
    by (intros; by destruct plan).
  destruct (Controller.agent_targets st !! agent_id agent) as [[tgt|]|] eqn:Et;
    [|done|];
    cbn [mbind outcome_mbind outcome_bind];
    rewrite Hp by done; cbn [mbind outcome_mbind outcome_bind];
    rewrite decide_True by done;
    (eexists; split; [reflexivity|]); simpl;
    rewrite !lookup_insert_eq, Hk; simpl;
    (split; [done|]); (split; [done|]); (split; [done|]);
    unfold Metrics.record_task_completion; rewrite Hts, <- Hsd;
    destruct (bool_decide_reflect
                ((agent_id agent, sid)
                   ∈ Metrics.task_start_times (Controller.metrics st)))
      as [Hstarted|Hstarted];
    [ rewrite bool_decide_eq_false_2 by (intros Hn; by apply Hn)
    | rewrite bool_decide_eq_true_2 by done
    | rewrite bool_decide_eq_false_2 by (intros Hn; by apply Hn)
    | rewrite bool_decide_eq_true_2 by done ];
    simpl; rewrite ?Hts; (split; [set_solver|]); (split; [lia|]); set_solver.
Qed.

Lemma returning_agent_completes_task_witness :
  ∃ st',
    Controller.process_agent (planner_fuel 5 5)
      (Controller.initialize_and_verify (Deliveries.env_of Deliveries.returner))
      (Deliveries.env_of Deliveries.returner) Deliveries.returner
      (Deliveries.st_of Deliveries.returner return_shelf)
    = Ret (Action.TOGGLE_LOAD, st')
    ∧ Controller.agent_states st' !! 0 = Some seek_shelf
    ∧ Metrics.successful_deliveries (Controller.metrics st') = 1.
Proof.
  destruct (returning_agent_completes_task (planner_fuel 5 5)
              (Controller.initialize_and_verify (Deliveries.env_of Deliveries.returner))
              (Deliveries.env_of Deliveries.returner) Deliveries.returner
              (Deliveries.st_of Deliveries.returner return_shelf) 7)
    as (st' & Hp & Hs & _ & _ & _ & Hd & _).
  - apply le_n.
  - reflexivity.
  - reflexivity.
  - reflexivity.
  - reflexivity.
  - discriminate.
  - reflexivity.
  - reflexivity.
  - exists st'. split; [exact Hp|]. split; [exact Hs | exact Hd].
Defined.

(** ** Charging: saving and restoring the task *)

(** X23.  Round trip of the saved context for a seeking agent.  Take an
    agent in seek_shelf whose target is shelf [sid].  After
    [_store_pre_charging_state], the switch to charging at any station,
    and [_restore_pre_charging_state]: the agent is in seek_shelf again,
    its saved context is gone and the reservation ledger is as it was;
    if shelf [sid] is still requested and carried by nobody, the target
    is the one the agent had before, and if the shelf is no longer
    requested, the target is still the charging station. *)
Theorem pre_charging_round_trip
    (fuel : nat) (cfg : Controller.Config) (env : Env) (agent : Agent)
    (st : Controller.St) (tgt : Controller.Target) (sid : Z) (station : Pos) :
  (planner_fuel (mover_rows (Controller.shelf_mover cfg))
                (mover_cols (Controller.shelf_mover cfg)) ≤ fuel)%nat →
  Controller.agent_states st !! agent_id agent = Some seek_shelf →
  Controller.agent_targets st !! agent_id agent = Some (Some tgt) →
  Controller.target_id tgt = Some sid →
  ∃ st1 st2,
    Controller._store_pre_charging_state cfg agent st = Ret st1
    ∧ Controller._restore_pre_charging_state fuel cfg env agent
        (Controller.go_charge (agent_id agent) station st1) = Ret st2
    ∧ Controller.agent_states st2 !! agent_id agent = Some seek_shelf
    ∧ Controller.pre_charging_data st2 !! agent_id agent = None
    ∧ Controller.reserved_shelves st2 = Controller.reserved_shelves st
    ∧ Controller.shelf_reservation_time st2 = Controller.shelf_reservation_time st
    ∧ (∀ shelf, Controller.find_shelf (request_queue env) (Some sid) = Some shelf →
                is_carried env shelf = false →
                Controller.agent_targets st2 !! agent_id agent = Some (Some tgt))
    ∧ (Controller.find_shelf (request_queue env) (Some sid) = None →
       Controller.agent_targets st2 !! agent_id agent
       = Some (Some (Controller.mkTarget None station))).
Proof.
  intros Hfuel Hstate Htgt Hsid. destruct tgt as [tid pos]. simpl in Hsid. subst tid.
  unfold Controller._store_pre_charging_state, getitem. rewrite Htgt, Hstate.
  cbn [mbind outcome_mbind outcome_bind].
  match goal with |- ∃ st1 st2, Ret ?x = Ret st1 ∧ _ => exists x end.
  unfold Controller._restore_pre_charging_state. simpl.
  rewrite lookup_insert_eq. simpl.
  destruct (Controller.find_shelf (request_queue env) (Some sid)) as [shelf|] eqn:Ef.
  - destruct (is_carried env shelf) eqn:Ec; simpl.
    + eexists. split; [reflexivity|]. split; [reflexivity|]. simpl.
      rewrite !lookup_insert_eq, lookup_delete_eq.
      do 4 (split; [done|]). split; [|done]. intros ? [= <-]. congruence.
    + unfold Controller.resume. simpl.
      match goal with |- context [Controller.plan_to ?f ?c ?e ?s ?a ?g] =>
        destruct (plan_to_total f c e a Hfuel s g) as [l ->] end.
      cbn [mbind outcome_mbind outcome_bind].
      eexists. split; [reflexivity|]. split; [reflexivity|].
      destruct l; simpl; rewrite !lookup_insert_eq, lookup_delete_eq; done.
  - simpl. eexists. split; [reflexivity|]. split; [reflexivity|]. simpl.
    rewrite !lookup_insert_eq, lookup_delete_eq. done.
Qed.

Lemma pre_charging_round_trip_witness :
  ∃ st1 st2,
    Controller._store_pre_charging_state
      (Controller.initialize_and_verify (Worlds.busy_env Worlds.tired))
      Worlds.tired (Worlds.busy_st Worlds.tired) = Ret st1
    ∧ Controller._restore_pre_charging_state (planner_fuel 5 5)
        (Controller.initialize_and_verify (Worlds.busy_env Worlds.tired))
        (Worlds.busy_env Worlds.tired) Worlds.tired
        (Controller.go_charge 0 (0, 0) st1) = Ret st2
    ∧ Controller.agent_targets st2 !! 0
      = Some (Some (Controller.mkTarget (Some 7) (3, 3))).
Proof.
  destruct (pre_charging_round_trip (planner_fuel 5 5)
              (Controller.initialize_and_verify (Worlds.busy_env Worlds.tired))
              (Worlds.busy_env Worlds.tired) Worlds.tired
              (Worlds.busy_st Worlds.tired)
              (Controller.mkTarget (Some 7) (3, 3)) 7 (0, 0))
    as (st1 & st2 & H1 & H2 & _ & _ & _ & _ & Hback & _).
  - apply le_n.
  - reflexivity.
  - reflexivity.
  - reflexivity.
  - exists st1, st2. split; [exact H1|]. split; [exact H2|].
    apply (Hback (mkShelf 7 3 3 5)); reflexivity.
Defined.

(** ** The stuck monitor: leaving recovery *)

(** X24.  Leaving recovery.  For an agent in recovery whose queue starts
    with FORWARD and whose cell is not the one recorded on the tick
    before, the monitor of either controller counts this recovery step,
    completes the recovery in the metrics, clears the recovery flag, sets
    the stuck counter to 0 and records the agent's cell; the queue is not
    touched. *)
Theorem stuck_monitor_recovery_exit (agent : Agent) :
  let id := agent_id agent in
  (∀ st, Controller.forward_is_next id st = true →
         Controller.last_positions st !! id ≠ Some (agent_pos agent) →
         Controller.in_recovery st !! id = Some true →
         ∃ st', Controller.stuck_monitor agent st = Ret st'
           ∧ Controller.in_recovery st' !! id = Some false
           ∧ Controller.stuck_count st' !! id = Some 0
           ∧ Controller.last_positions st' !! id = Some (agent_pos agent)
           ∧ Controller.last_actions st' = Controller.last_actions st
           ∧ Controller.metrics st'
             = Metrics.record_recovery_complete id
                 (Metrics.record_recovery_step id (Controller.metrics st)))
  ∧ (∀ st, Baseline.forward_is_next id st = true →
           Baseline.last_positions st !! id ≠ Some (agent_pos agent) →
           Baseline.in_recovery st !! id = Some true →
           ∃ st', Baseline.stuck_monitor agent st = Ret st'
             ∧ Baseline.in_recovery st' !! id = Some false
             ∧ Baseline.stuck_count st' !! id = Some 0
             ∧ Baseline.last_positions st' !! id = Some (agent_pos agent)
             ∧ Baseline.last_actions st' = Baseline.last_actions st
             ∧ Baseline.metrics st'
               = Metrics.record_recovery_complete id
                   (Metrics.record_recovery_step id (Baseline.metrics st))).
Proof.
  intros id. split.
  - intros st Hfwd Hpos Hrec.
    assert (Hf : ∀ st0, Controller.last_actions st0 = Controller.last_actions st →
                        Controller.forward_is_next id st0 = true).
    { intros st0 E. unfold Controller.forward_is_next in *. by rewrite E. }
    unfold Controller.stuck_monitor. fold id.
    rewrite (bool_decide_eq_false_2 _ Hpos), andb_false_r.
    cbn [mbind outcome_mbind outcome_bind]. simpl.
    rewrite lookup_insert_eq. simpl.
    rewrite (bool_decide_eq_true_2 _ Hrec). simpl.
    rewrite Hf by done. rewrite (bool_decide_eq_true_2 _ Hrec). simpl.
    eexists. split; [reflexivity|]. simpl. rewrite !lookup_insert_eq. done.
  - intros st Hfwd Hpos Hrec.
    assert (Hf : ∀ st0, Baseline.last_actions st0 = Baseline.last_actions st →
                        Baseline.forward_is_next id st0 = true).
    { intros st0 E. unfold Baseline.forward_is_next in *. by rewrite E. }
    unfold Baseline.stuck_monitor. fold id.
    rewrite (bool_decide_eq_false_2 _ Hpos), andb_false_r.
    cbn [mbind outcome_mbind outcome_bind]. simpl.
    rewrite lookup_insert_eq. simpl.
    rewrite (bool_decide_eq_true_2 _ Hrec). simpl.
    rewrite Hf by done. rewrite (bool_decide_eq_true_2 _ Hrec). simpl.
    eexists. split; [reflexivity|]. simpl. rewrite !lookup_insert_eq. done.
Qed.

Lemma stuck_monitor_recovery_exit_witness :
  ∃ st',
    Controller.stuck_monitor (mkAgent 0 0 1 Direction.RIGHT (Num.PyFloat 100) 10 None false None)
      (Controller.set_in_recovery {[ 0 := true ]} (Worlds.stuck_st 2)) = Ret st'
    ∧ Controller.in_recovery st' !! 0 = Some false
    ∧ Controller.stuck_count st' !! 0 = Some 0.
Proof.
  destruct (stuck_monitor_recovery_exit
              (mkAgent 0 0 1 Direction.RIGHT (Num.PyFloat 100) 10 None false None)) as [H _].
  destruct (H (Controller.set_in_recovery {[ 0 := true ]} (Worlds.stuck_st 2)))
    as (st' & Hm & Hr & Hc & _).
  - reflexivity.
  - vm_compute. discriminate.
  - reflexivity.
  - exists st'. split; [exact Hm|]. split; [exact Hr | exact Hc].
Defined.

(** ** The tables built at construction *)

Section Tables.

Lemma fold_insert_other {V} (f : Shelf → V) (l : list Shelf) (m : gmap Z V) (k : Z) :
  k ∉ shelf_id <$> l →
  foldl (λ m s, <[shelf_id s := f s]> m) m l !! k = m !! k.
Proof.
  revert m. induction l as [|x l IH]; intros m Hk; [done|].
  simpl. rewrite IH by set_solver. apply lookup_insert_ne. set_solver.
Qed.

Lemma fold_insert_own {V} (f : Shelf → V) (l : list Shelf) (m : gmap Z V) (s : Shelf) :
  NoDup (shelf_id <$> l) → s ∈ l →
  foldl (λ m s, <[shelf_id s := f s]> m) m l !! shelf_id s = Some (f s).
Proof.
  revert m. induction l as [|x l IH]; intros m Hnd Hs; [by apply elem_of_nil in Hs|].
  rewrite fmap_cons in Hnd. apply NoDup_cons in Hnd as [Hx Hnd]. simpl.
  apply elem_of_cons in Hs as [->|Hs]; [|by apply IH].
  rewrite fold_insert_other by done. apply lookup_insert_eq.
Qed.

Lemma fold_insert_from {V} (f : Shelf → V) (l : list Shelf) (m : gmap Z V)
    (k : Z) (v : V) :
  foldl (λ m s, <[shelf_id s := f s]> m) m l !! k = Some v →
  m !! k = Some v ∨ ∃ s, s ∈ l ∧ shelf_id s = k ∧ v = f s.
Proof.
  revert m. induction l as [|x l IH]; intros m H; [by left|].
  simpl in H. apply IH in H as [H|(s & Hs & Hk & Hv)].
  - destruct (decide (shelf_id x = k)) as [<-|Hne].
    + rewrite lookup_insert_eq in H. injection H as <-.
      right. exists x. split; [left|done].
    + rewrite lookup_insert_ne in H by done. by left.
  - right. exists s. split; [by right|done].
Qed.

Lemma fold_union_elem (g : Shelf → Pos) (l : list Shelf) (acc : gset Pos) (p : Pos) :
  p ∈ foldl (λ acc s, acc ∪ {[ g s ]}) acc l ↔ p ∈ acc ∨ ∃ s, s ∈ l ∧ p = g s.
Proof.
  revert acc. induction l as [|x l IH]; intros acc; simpl.
  - split; [by left|]. intros [?|(s & Hs & _)]; [done|by apply elem_of_nil in Hs].
  - rewrite IH. split.
    + intros [[?| ->%elem_of_singleton]%elem_of_union|(s & Hs & ->)].
      * by left.
      * right. exists x. split; [left|done].
      * right. exists s. split; [by right|done].
    + intros [?|(s & [->|Hs]%elem_of_cons & ->)].
      * left. set_solver.
      * left. set_solver.
      * right. by exists s.
Qed.

Lemma clamp_valid (v hi : Z) : 0 < hi → 0 ≤ clamp v hi < hi.
Proof. unfold clamp. lia. Qed.

Lemma clamp_id (v hi : Z) : 0 ≤ v < hi → clamp v hi = v.
Proof. unfold clamp. lia. Qed.

End Tables.

(** X25.  The two tables of [ShelfHelper.__init__].  [shelf_memory] has an
    entry for the id of every shelf, and every entry is the (unclamped)
    position of a shelf with that id, the position of the shelf itself
    when the ids are distinct.  [shelf_locations] is the set of the shelf
    positions clamped into the grid.  So for a shelf that lies inside the
    grid the remembered position is one of the shelf locations. *)
Theorem shelf_helper_tables (env : Env) :
  let h := ShelfHelper.init env in
  (∀ sid p, ShelfHelper.shelf_memory h !! sid = Some p →
            ∃ s, s ∈ shelfs env ∧ shelf_id s = sid ∧ p = shelf_pos s)
  ∧ (∀ s, s ∈ shelfs env → is_Some (ShelfHelper.shelf_memory h !! shelf_id s))
  ∧ (NoDup (shelf_id <$> shelfs env) →
     ∀ s, s ∈ shelfs env →
          ShelfHelper.shelf_memory h !! shelf_id s = Some (shelf_pos s))
  ∧ (∀ p, p ∈ ShelfHelper.shelf_locations h
          ↔ ∃ s, s ∈ shelfs env
                 ∧ p = (clamp (shelf_x s) (grid_cols env),
                        clamp (shelf_y s) (grid_rows env)))
  ∧ (∀ s, s ∈ shelfs env →
          Movement._is_position_valid (grid_rows env) (grid_cols env) (shelf_pos s)
          = true →
          shelf_pos s ∈ ShelfHelper.shelf_locations h).
Proof.
  intros h. unfold h, ShelfHelper.init, ShelfHelper._initialize_shelf_memory,
    ShelfHelper._extract_shelf_locations.
  cbn [ShelfHelper.shelf_memory ShelfHelper.shelf_locations].
  split; [|split; [|split; [|split]]].
  - intros sid p H. apply fold_insert_from in H as [H|H]; [|done].
    by rewrite lookup_empty in H.
  - intros s Hs. induction (shelfs env) as [|x l IH] using rev_ind;
      [by apply elem_of_nil in Hs|].
    rewrite foldl_app. simpl.
    destruct (decide (shelf_id x = shelf_id s)) as [E|Hne].
    + rewrite E, lookup_insert_eq. by eexists.
    + rewrite lookup_insert_ne by done. apply IH.
      apply elem_of_app in Hs as [Hs| ->%list_elem_of_singleton]; done.
  - intros Hnd s Hs. by apply fold_insert_own.
  - intros p. rewrite fold_union_elem. split.
    + intros [H|H]; [by apply elem_of_empty in H|done].
    + intros H. by right.
  - intros s Hs Hv. apply fold_union_elem. right. exists s. split; [done|].
    unfold Movement._is_position_valid in Hv. destruct s as [i x y w].
    unfold shelf_pos in *. cbn [shelf_x shelf_y fst snd] in *.
    rewrite !clamp_id by lia. done.
Qed.

(** X26.  Every position that the A* controller plans towards lies in the
    grid.  On a grid with at least one row and one column, the goal
    locations, the remembered shelf homes, the charging stations and the
    waiting areas fixed by [__init__] and [initialize_and_verify] are all
    valid positions, and so is every result of [_get_aligned_position],
    which leaves valid positions as they are. *)
Theorem controller_positions_in_grid (env : Env) :
  0 < grid_rows env → 0 < grid_cols env →
  let cfg := Controller.initialize_and_verify env in
  let valid := Movement._is_position_valid (grid_rows env) (grid_cols env) in
  (∀ g, g ∈ Controller.goal_locations cfg → valid g = true)
  ∧ (∀ sid p, Controller.shelf_memory cfg !! sid = Some p → valid p = true)
  ∧ (∀ p, p ∈ Controller.charging_stations cfg → valid p = true)
  ∧ (∀ p, p ∈ Controller.waiting_areas cfg → valid p = true)
  ∧ (∀ p, valid (Controller._get_aligned_position cfg p) = true)
  ∧ (∀ p, valid p = true → Controller._get_aligned_position cfg p = p).
Proof.
  intros Hr Hc cfg valid.
  assert (Hvalid : ∀ x y, valid (x, y) = true ↔ 0 ≤ x < grid_cols env ∧ 0 ≤ y < grid_rows env).
  { intros x y. unfold valid, Movement._is_position_valid. cbn [fst snd]. lia. }
  assert (Hclamp : ∀ x y, valid (clamp x (grid_cols env), clamp y (grid_rows env)) = true).
  { intros x y. apply Hvalid. split; by apply clamp_valid. }
  assert (Hcorner : ∀ p, p ∈ [(0, 0); (grid_cols env - 1, 0); (0, grid_rows env - 1);
                              (grid_cols env - 1, grid_rows env - 1)] →
                         valid p = true).
  { intros p Hp.
    repeat (apply elem_of_cons in Hp as [->|Hp]; [apply Hvalid; lia|]).
    by apply elem_of_nil in Hp. }
  split; [|split; [|split; [|split; [|split]]]].
  - intros g Hg. unfold cfg, Controller.initialize_and_verify,
      Controller.initial_goal_locations in Hg. cbn [Controller.goal_locations] in Hg.
    apply elem_of_elements, elem_of_list_to_set, list_elem_of_fmap in Hg
      as (g0 & -> & _). apply Hclamp.
  - intros sid p Hp. unfold cfg, Controller.initialize_and_verify,
      Controller.initial_shelf_memory in Hp. cbn [Controller.shelf_memory] in Hp.
    apply (fold_insert_from
             (λ s, (clamp (shelf_x s) (grid_cols env),
                    clamp (shelf_y s) (grid_rows env)))) in Hp
      as [Hp|(s & _ & _ & ->)]; [by rewrite lookup_empty in Hp | apply Hclamp].
  - intros p Hp. by apply Hcorner.
  - intros p Hp. unfold cfg, Controller.initialize_and_verify in Hp.
    cbn [Controller.waiting_areas] in Hp.
    pose proof (waiting_areas_spec_aux env (Controller.initial_goal_locations env)
                  (Controller._identify_charging_stations env) p Hp) as [Hin|Hin].
    + apply elem_of_all_positions in Hin. destruct p. apply Hvalid. simpl in Hin. lia.
    + by apply Hcorner.
  - intros [x y]. apply Hclamp.
  - intros [x y] Hp. apply Hvalid in Hp.
    unfold Controller._get_aligned_position. cbn [fst snd Controller.cols Controller.rows cfg
      Controller.initialize_and_verify].
    by rewrite !clamp_id by lia.
Qed.

Lemma controller_positions_in_grid_witness :
  Movement._is_position_valid (grid_rows Worlds.idle_env) (grid_cols Worlds.idle_env)
    (Controller._get_aligned_position
       (Controller.initialize_and_verify Worlds.idle_env) (7, -2)) = true.
Proof.
  destruct (controller_positions_in_grid Worlds.idle_env)
    as (_ & _ & _ & _ & H & _); [reflexivity|reflexivity|].
  apply H.
Defined.

(** ** Seeking *)

Section Seeking.
Variable fuel : nat.
Variable cfg : Controller.Config.
Variable env : Env.
Variable agent : Agent.
Let id := agent_id agent.

Hypothesis fuel_enough :
  (planner_fuel (mover_rows (Controller.shelf_mover cfg))
                (mover_cols (Controller.shelf_mover cfg)) ≤ fuel)%nat.

(** A seeking agent for which some shelf can be carried, with an empty
    queue and a battery that is not low, reaches the seek_shelf block. *)
Lemma process_agent_runs_seek (st : Controller.St) :
  Controller.agent_states st !! id = Some seek_shelf →
  Controller._can_carry_any_shelf env st agent = true →
  Controller.last_actions st !! id = Some [] →
  Num.le (battery_level agent) (Num.PyInt 0) = false →
  Controller._needs_charging env agent = Ret false →
  ∃ st1, Controller.process_agent fuel cfg env agent st
         = Controller.seek_shelf_block fuel cfg env agent st1
    ∧ same_tasks st st1.
Proof.
  intros Hstate Hcan Hqueue Hlevel Hlow.
  unfold Controller.process_agent.
  rewrite (no_task_block_passes _ _ _ _ _ seek_shelf) by auto.
  rewrite decide_False by done. unfold_bind.
  unfold Controller.check_battery_and_act.
  rewrite battery_block_passes by done. unfold_bind.
  unfold Controller.monitor_and_act, Controller.stuck_monitor. fold id.
  assert (Hfwd : ∀ st0, Controller.last_actions st0 = Controller.last_actions st →
                        Controller.forward_is_next id st0 = false).
  { intros st0 E. unfold Controller.forward_is_next. by rewrite E, Hqueue. }
  rewrite Hfwd by done. unfold_bind. simpl.
  rewrite lookup_insert_eq. simpl.
  destruct (bool_decide (Controller.in_recovery st !! id = Some true)) eqn:Hrec;
    simpl;
    rewrite Hfwd by done; rewrite andb_false_r;
    unfold Controller.drain_queue; simpl; fold id; rewrite Hqueue;
    unfold Controller.charging_block; fold id; simpl;
    unfold_bind; unfold getitem; simpl; rewrite Hstate; simpl;
    unfold Controller.task_block; unfold_bind; unfold getitem; simpl; fold id;
    rewrite Hstate;
    (eexists; split; [reflexivity|]);
    unfold same_tasks; simpl; unfold Metrics.record_recovery_step;
    try destruct (default false _); simpl; done.
Qed.

Lemma select_shelf_same (st st1 : Controller.St) :
  Controller.reserved_shelves st1 = Controller.reserved_shelves st →
  Controller.shelf_reservation_time st1 = Controller.shelf_reservation_time st →
  Controller.current_step st1 = Controller.current_step st →
  Controller.select_shelf cfg env st1 agent = Controller.select_shelf cfg env st agent.
Proof.
  intros E1 E2 E3. unfold Controller.select_shelf. f_equal.
  generalize (None : option Shelf, None : option Z).
  induction (request_queue env) as [|x l IH]; intros acc; [done|].
  simpl. rewrite IH. f_equal.
  unfold Controller.consider, Controller.reserved_by_other. by rewrite E1, E2, E3.
Qed.

End Seeking.

(** X27.  Seeking.  For an agent in seek_shelf with an empty queue and a
    battery that is not low, whose selection returns a shelf that is not
    on the agent's cell, the A* controller in that iteration reserves the
    shelf for the agent, stamped with the current step, targets the agent
    at the shelf (its id and its position clamped into the grid), records
    the start of the task, drops the agent's waiting area, emits the
    first action of the planned sequence (NOOP when the plan is empty) and
    queues the rest; the agent stays in seek_shelf. *)
Theorem seeking_agent_reserves_selected_shelf
    (fuel : nat) (cfg : Controller.Config) (env : Env) (agent : Agent)
    (st : Controller.St) (shelf : Shelf) :
  (planner_fuel (mover_rows (Controller.shelf_mover cfg))
                (mover_cols (Controller.shelf_mover cfg)) ≤ fuel)%nat →
  Controller.agent_states st !! agent_id agent = Some seek_shelf →
  Controller.last_actions st !! agent_id agent = Some [] →
  Num.le (battery_level agent) (Num.PyInt 0) = false →
  Controller._needs_charging env agent = Ret false →
  Controller.select_shelf cfg env st agent = Some shelf →
  agent_pos agent ≠ shelf_pos shelf →
  let target_pos := Controller._get_aligned_position cfg (shelf_pos shelf) in
  ∃ plan st',
    Controller.plan_to fuel cfg env st agent target_pos = Ret plan
    ∧ Controller.process_agent fuel cfg env agent st
      = Ret (Controller.first_or Action.NOOP plan, st')
    ∧ Controller.reserved_shelves st' !! shelf_id shelf = Some (agent_id agent)
    ∧ Controller.shelf_reservation_time st' !! shelf_id shelf
      = Some (Controller.current_step st)
    ∧ Controller.agent_targets st' !! agent_id agent
      = Some (Some (Controller.mkTarget (Some (shelf_id shelf)) target_pos))
    ∧ Controller.agent_states st' !! agent_id agent = Some seek_shelf
    ∧ Controller.last_actions st' !! agent_id agent = Some (tail plan)
    ∧ Controller.assigned_waiting_areas st' !! agent_id agent = None
    ∧ (agent_id agent, shelf_id shelf)
        ∈ Metrics.task_start_times (Controller.metrics st').
Proof.
  intros Hfuel Hstate Hqueue Hlevel Hlow Hsel Hpos target_pos.
  pose proof (select_shelf_selectable cfg env agent st shelf Hsel) as Hgood.
  pose proof (selectable_can_carry env agent st shelf Hgood) as Hcan.
  destruct (process_agent_runs_seek fuel cfg env agent st)
    as (st1 & -> & Hs & Ht & Hq & Hr1 & Hr2 & _ & _ & _ & _ & Hstep); try done.
  destruct (plan_to_total fuel cfg env agent Hfuel st target_pos) as [plan Hplan].
  assert (Hp : ∀ s0, Controller.agent_states s0 = Controller.agent_states st →
                     Controller.plan_to fuel cfg env s0 agent target_pos = Ret plan).
  { intros s0 E. unfold Controller.plan_to in *. by rewrite E. }
  exists plan. eexists. split; [exact Hplan|]. clear Hplan.
  unfold Controller.seek_shelf_block. simpl. rewrite Hq, Hqueue.
  unfold_bind.
  rewrite (select_shelf_same cfg env agent st) by done.
  rewrite Hsel.
  rewrite !(bool_decide_eq_false_2 (agent_pos agent = shelf_pos shelf)) by done.
  cbn [negb]. fold target_pos.
  rewrite Hp by done.
  assert (Hk : ∀ s0 : Controller.St,
            Controller.last_actions s0 !! agent_id agent = Some [] →
            Controller.closest_shelf (Controller.keep_tail (agent_id agent) plan s0)
            = Controller.closest_shelf s0
            ∧ Controller.reserved_shelves (Controller.keep_tail (agent_id agent) plan s0)
              = Controller.reserved_shelves s0
            ∧ Controller.shelf_reservation_time
                (Controller.keep_tail (agent_id agent) plan s0)
              = Controller.shelf_reservation_time s0
            ∧ Controller.agent_states (Controller.keep_tail (agent_id agent) plan s0)
              = Controller.agent_states s0
            ∧ Controller.agent_targets (Controller.keep_tail (agent_id agent) plan s0)
              = Controller.agent_targets s0
            ∧ Controller.assigned_waiting_areas
                (Controller.keep_tail (agent_id agent) plan s0)
              = Controller.assigned_waiting_areas s0
            ∧ Controller.metrics (Controller.keep_tail (agent_id agent) plan s0)
              = Controller.metrics s0
            ∧ Controller.last_actions (Controller.keep_tail (agent_id agent) plan s0)
                !! agent_id agent = Some (tail plan)).
  { intros s0 E. destruct plan; simpl; [done|]. by rewrite lookup_insert_eq. }
  match goal with |- context [Controller.keep_tail (agent_id agent) plan ?s0] =>
    destruct (Hk s0) as (E1 & E2 & E3 & E4 & E5 & E6 & E7 & E8);
      [simpl; by rewrite Hq|] end.
  rewrite E1. simpl.
  rewrite !(bool_decide_eq_false_2 (agent_pos agent = shelf_pos shelf)) by done.
  split; [reflexivity|].
  rewrite E2, E3, E4, E5, E6, E7, E8. simpl.
  rewrite !lookup_insert_eq, lookup_delete_eq, Hs, Hstep.
  do 6 (split; [done|]). set_solver.
Qed.

Lemma seeking_agent_reserves_selected_shelf_witness :
  ∃ plan st',
    Controller.process_agent (planner_fuel 5 5)
      (Controller.initialize_and_verify (Worlds.busy_env Worlds.walker))
      (Worlds.busy_env Worlds.walker) Worlds.walker
      (Controller.initial_state (Worlds.busy_env Worlds.walker))
    = Ret (Controller.first_or Action.NOOP plan, st')
    ∧ Controller.reserved_shelves st' !! 7 = Some 0
    ∧ Controller.agent_targets st' !! 0
      = Some (Some (Controller.mkTarget (Some 7) (3, 3))).
Proof.
  destruct (seeking_agent_reserves_selected_shelf (planner_fuel 5 5)
              (Controller.initialize_and_verify (Worlds.busy_env Worlds.walker))
              (Worlds.busy_env Worlds.walker) Worlds.walker
              (Controller.initial_state (Worlds.busy_env Worlds.walker))
              (mkShelf 7 3 3 5))
    as (plan & st' & _ & Hp & Hr & _ & Ht & _).
  - apply le_n.
  - reflexivity.
  - reflexivity.
  - reflexivity.
  - reflexivity.
  - reflexivity.
  - discriminate.
  - exists plan, st'. split; [exact Hp|]. split; [exact Hr | exact Ht].
Defined.

(** ** Charging *)

(** X28.  An agent on the charger waits.  For an agent in the charging
    state whose charging flag is on, with an empty queue and a battery
    level above 0 and below the capacity, the A* controller emits NOOP and
    leaves the agent's state, target, queue and saved context, and the
    reservation ledger, as they were, however low the battery is. *)
Theorem charging_agent_waits
    (fuel : nat) (cfg : Controller.Config) (env : Env) (agent : Agent)
    (st : Controller.St) (pct : Num.t) :
  Controller.agent_states st !! agent_id agent = Some charging →
  is_charging agent = true →
  Controller.last_actions st !! agent_id agent = Some [] →
  battery_pct env agent = Ret pct →
  Num.le (battery_level agent) (Num.PyInt 0) = false →
  Num.ge (battery_level agent) (battery_capacity env) = false →
  ∃ st',
    Controller.process_agent fuel cfg env agent st = Ret (Action.NOOP, st')
    ∧ Controller.agent_states st' = Controller.agent_states st
    ∧ Controller.agent_targets st' = Controller.agent_targets st
    ∧ Controller.last_actions st' = Controller.last_actions st
    ∧ Controller.pre_charging_data st' = Controller.pre_charging_data st
    ∧ Controller.reserved_shelves st' = Controller.reserved_shelves st
    ∧ Controller.shelf_reservation_time st' = Controller.shelf_reservation_time st.
Proof.
  intros Hstate Hch Hqueue Hpct Hlevel Hfull.
  unfold Controller.process_agent.
  rewrite (no_task_block_passes _ _ _ _ _ charging) by (auto; left; set_solver).
  rewrite decide_False by done. unfold_bind.
  unfold Controller.check_battery_and_act, Controller.battery_block.
  rewrite Hpct. unfold_bind. rewrite Hlevel.
  unfold Controller.critical_block, Controller.low_block.
  rewrite (needs_charging_of_pct _ _ _ Hpct). unfold_bind.
  rewrite Hch, !andb_false_r. simpl.
  unfold Controller.monitor_and_act, Controller.stuck_monitor.
  assert (Hfwd : ∀ st0, Controller.last_actions st0 = Controller.last_actions st →
                        Controller.forward_is_next (agent_id agent) st0 = false).
  { intros st0 E. unfold Controller.forward_is_next. by rewrite E, Hqueue. }
  rewrite Hfwd by done. unfold_bind. simpl.
  rewrite lookup_insert_eq. simpl.
  destruct (bool_decide (Controller.in_recovery st !! agent_id agent = Some true))
    eqn:Hrec;
    simpl;
    rewrite Hfwd by done; rewrite andb_false_r;
    unfold Controller.drain_queue; simpl; rewrite Hqueue;
    unfold Controller.charging_block; simpl;
    unfold_bind; unfold getitem; simpl; rewrite Hstate; simpl;
    rewrite Hch, Hfull;
    (eexists; split; [reflexivity|]); done.
Qed.

Lemma charging_agent_waits_witness :
  ∃ st',
    Controller.process_agent 0
      (Controller.initialize_and_verify
         (Worlds.busy_env (mkAgent 0 0 0 Direction.DOWN (Num.PyFloat 5) 10 None true None)))
      (Worlds.busy_env (mkAgent 0 0 0 Direction.DOWN (Num.PyFloat 5) 10 None true None))
      (mkAgent 0 0 0 Direction.DOWN (Num.PyFloat 5) 10 None true None)
      (Controller.set_agent_states {[ 0 := charging ]}
         (Controller.initial_state
            (Worlds.busy_env (mkAgent 0 0 0 Direction.DOWN (Num.PyFloat 5) 10 None true None))))
    = Ret (Action.NOOP, st').
Proof.
  destruct (charging_agent_waits 0
              (Controller.initialize_and_verify
                 (Worlds.busy_env (mkAgent 0 0 0 Direction.DOWN (Num.PyFloat 5) 10 None true None)))
              (Worlds.busy_env (mkAgent 0 0 0 Direction.DOWN (Num.PyFloat 5) 10 None true None))
              (mkAgent 0 0 0 Direction.DOWN (Num.PyFloat 5) 10 None true None)
              (Controller.set_agent_states {[ 0 := charging ]}
                 (Controller.initial_state
                    (Worlds.busy_env
                       (mkAgent 0 0 0 Direction.DOWN (Num.PyFloat 5) 10 None true None))))
              (Num.PyFloat 5))
    as (st' & Hp & _); try reflexivity.
  exists st'. exact Hp.
Defined.

(** ** The baseline controller: shelves that are too heavy *)

Section BaselineSeeking.
Variable fuel : nat.
Variable cfg : Controller.Config.
Variable env : Env.
Variable agent : Agent.
Let id := agent_id agent.

Lemma baseline_select_spec (st : Baseline.St) (shelf : Shelf) :
  Baseline.select_shelf cfg env st agent = Some shelf →
  shelf ∈ request_queue env ∧ is_carried env shelf = false
  ∧ shelf_id shelf ∉ Baseline.unreachable st agent.
Proof.
  unfold Baseline.select_shelf.
  assert (H : ∀ l acc,
    (∀ s, acc.1 = Some s →
          s ∈ request_queue env ∧ is_carried env s = false
          ∧ shelf_id s ∉ Baseline.unreachable st agent) →
    (∀ s, s ∈ l → s ∈ request_queue env) →
    (foldl (Baseline.consider cfg env st agent) acc l).1 = Some shelf →
    shelf ∈ request_queue env ∧ is_carried env shelf = false
    ∧ shelf_id shelf ∉ Baseline.unreachable st agent).
  { induction l as [|x l IH]; intros acc Hacc Hl; simpl; [by apply Hacc|].
    apply IH; [|set_solver].
    unfold Baseline.consider.
    destruct (is_carried env x) eqn:E1; [done|]. simpl.
    case_bool_decide as E2; [done|]. cbn zeta.
    match goal with |- context [if ?b then _ else _] => destruct b end; [|done].
    simpl. intros s [= <-]. split; [apply Hl; left|done]. }
  apply H; [done|done].
Qed.

Lemma baseline_select_same (st st1 : Baseline.St) :
  Baseline.unreachable_shelves st1 = Baseline.unreachable_shelves st →
  Baseline.select_shelf cfg env st1 agent = Baseline.select_shelf cfg env st agent.
Proof.
  intros E. unfold Baseline.select_shelf. f_equal.
  generalize (None : option Shelf, None : option Z).
  induction (request_queue env) as [|x l IH]; intros acc; [done|].
  simpl. rewrite IH. f_equal.
  unfold Baseline.consider, Baseline.unreachable. by rewrite E.
Qed.

Lemma baseline_can_carry_same (st st1 : Baseline.St) :
  Baseline.unreachable_shelves st1 = Baseline.unreachable_shelves st →
  Baseline._can_carry_any_shelf env st1 agent = Baseline._can_carry_any_shelf env st agent.
Proof.
  intros E. unfold Baseline._can_carry_any_shelf, Baseline.unreachable. by rewrite E.
Qed.

Lemma baseline_plan_to_total (st : Baseline.St) (goal : Pos) :
  (planner_fuel (mover_rows (Controller.shelf_mover cfg))
                (mover_cols (Controller.shelf_mover cfg)) ≤ fuel)%nat →
  ∃ l, Baseline.plan_to fuel cfg env st agent goal = Ret l.
Proof. intros Hfuel. by apply bfs_plan_total. Qed.

(** A seeking agent of the baseline controller for which some shelf can
    be carried, with an empty queue, reaches the seek_shelf block. *)
Lemma baseline_runs_seek (st : Baseline.St) :
  Baseline.agent_states st !! id = Some seek_shelf →
  Baseline._can_carry_any_shelf env st agent = true →
  Baseline.last_actions st !! id = Some [] →
  ∃ st1, Baseline.process_agent fuel cfg env agent st
         = Baseline.seek_shelf_block fuel cfg env agent st1
    ∧ Baseline.agent_states st1 = Baseline.agent_states st
    ∧ Baseline.agent_targets st1 = Baseline.agent_targets st
    ∧ Baseline.last_actions st1 = Baseline.last_actions st
    ∧ Baseline.unreachable_shelves st1 = Baseline.unreachable_shelves st
    ∧ Metrics.overcapacity_attempts (Baseline.metrics st1)
      = Metrics.overcapacity_attempts (Baseline.metrics st).
Proof.
  intros Hstate Hcan Hqueue. unfold id in *.
  unfold Baseline.process_agent, Baseline.no_task_block, getitem.
  cbn [Baseline.agent_states Baseline.set_metrics]. rewrite Hstate.
  cbn [mbind outcome_mbind outcome_bind].
  rewrite (baseline_can_carry_same st
             (Baseline.set_metrics
                (Metrics.record_movement (agent_id agent) (Baseline.metrics st)) st)
             eq_refl).
  rewrite Hcan, andb_false_r. cbn [Baseline.agent_states Baseline.set_metrics].
  rewrite Hstate.
  cbn [mbind outcome_mbind outcome_bind]. rewrite decide_False by done.
  cbn [mbind outcome_mbind outcome_bind].
  unfold Baseline.stuck_monitor.
  assert (Hfwd : ∀ st0, Baseline.last_actions st0 = Baseline.last_actions st →
                        Baseline.forward_is_next (agent_id agent) st0 = false).
  { intros st0 E. unfold Baseline.forward_is_next. by rewrite E, Hqueue. }
  rewrite Hfwd by done. unfold_bind. simpl.
  rewrite lookup_insert_eq. simpl.
  destruct (bool_decide (Baseline.in_recovery st !! agent_id agent = Some true))
    eqn:Hrec;
    simpl;
    rewrite Hfwd by done; rewrite andb_false_r;
    unfold Baseline.drain_queue; simpl; rewrite Hqueue;
    unfold Baseline.task_block; unfold_bind; unfold getitem; simpl;
    rewrite Hstate;
    (eexists; split; [reflexivity|]); simpl;
    unfold Metrics.record_recovery_step; try destruct (default false _); done.
Qed.

(** The seek_shelf block of the baseline controller for an agent with an
    empty queue that stands on a selected shelf it cannot carry. *)
Lemma baseline_seek_overweight (st : Baseline.St) (shelf : Shelf) :
  (planner_fuel (mover_rows (Controller.shelf_mover cfg))
                (mover_cols (Controller.shelf_mover cfg)) ≤ fuel)%nat →
  Baseline.last_actions st !! id = Some [] →
  Baseline.select_shelf cfg env st agent = Some shelf →
  agent_pos agent = shelf_pos shelf →
  max_carry_weight agent < shelf_weight shelf →
  ∃ st', Baseline.seek_shelf_block fuel cfg env agent st = Ret (Action.NOOP, st')
    ∧ shelf_id shelf ∈ Baseline.unreachable st' agent
    ∧ Baseline.agent_targets st' !! id = Some None
    ∧ Baseline.agent_states st' = Baseline.agent_states st
    ∧ Metrics.overcapacity_attempts (Baseline.metrics st')
      = Metrics.overcapacity_attempts (Baseline.metrics st) + 1.
Proof.
  intros Hfuel Hqueue Hsel Hpos Hheavy. unfold id in *.
  unfold Baseline.seek_shelf_block. simpl. rewrite Hqueue. unfold_bind.
  change (Baseline.select_shelf cfg env st agent) with
    (Baseline.select_shelf cfg env st agent).
  rewrite Hsel.
  rewrite !(bool_decide_eq_true_2 (agent_pos agent = shelf_pos shelf)) by done.
  cbn [negb].
  match goal with |- context [Baseline.plan_to ?f ?c ?e ?s ?a ?g] =>
    destruct (baseline_plan_to_total s g Hfuel) as [l ->] end.
  assert (Hk : ∀ s0 : Baseline.St,
            Baseline.closest_shelf (Baseline.keep_tail (agent_id agent) l s0)
            = Baseline.closest_shelf s0
            ∧ Baseline.unreachable_shelves (Baseline.keep_tail (agent_id agent) l s0)
              = Baseline.unreachable_shelves s0
            ∧ Baseline.agent_states (Baseline.keep_tail (agent_id agent) l s0)
              = Baseline.agent_states s0
            ∧ Baseline.metrics (Baseline.keep_tail (agent_id agent) l s0)
              = Baseline.metrics s0)
    by (intros; by destruct l).
  match goal with |- context [Baseline.keep_tail (agent_id agent) l ?s0] =>
    destruct (Hk s0) as (E1 & E2 & E3 & E4) end.
  rewrite E1. simpl.
  rewrite !(bool_decide_eq_true_2 (agent_pos agent = shelf_pos shelf)) by done.
  assert (shelf_weight shelf <=? max_carry_weight agent = false) as ->
    by (apply Z.leb_gt; lia).
  eexists. split; [reflexivity|].
  unfold Baseline.unreachable at 1. simpl. rewrite E3, E4. simpl.
  rewrite !lookup_insert_eq. simpl. split; [set_solver|]. done.
Qed.

End BaselineSeeking.

(** *** The unreachable sets only grow

    The pickup takes the picked shelf off the agent's unreachable set, but
    the shelf was selected in the same iteration, so it was not in the
    set: no iteration of the agent loop makes an unreachable set
    smaller. *)

Lemma unreachable_kept_refl st : unreachable_kept st st.
Proof. by intros ??. Qed.

Lemma unreachable_kept_trans st1 st2 st3 :
  unreachable_kept st1 st2 → unreachable_kept st2 st3 → unreachable_kept st1 st3.
Proof. intros H1 H2 id sid H. by apply H2, H1. Qed.

Lemma unreachable_kept_eq st st' :
  Baseline.unreachable_shelves st' = Baseline.unreachable_shelves st →
  unreachable_kept st st'.
Proof. intros E id sid. by rewrite E. Qed.

Lemma baseline_keep_tail_unreachable id l st :
  Baseline.unreachable_shelves (Baseline.keep_tail id l st)
  = Baseline.unreachable_shelves st.
Proof. by destruct l. Qed.

Section BaselineFrames.
Variable fuel : nat.
Variable cfg : Controller.Config.
Variable env : Env.
Variable agent : Agent.

Lemma baseline_no_task_block_unreachable st r st' :
  Baseline.no_task_block env agent st = Ret (r, st') →
  Baseline.unreachable_shelves st' = Baseline.unreachable_shelves st.
Proof.
  unfold Baseline.no_task_block. intros H.
  apply bind_ret in H as (state & _ & H). cbv zeta in H.
  match type of H with context [if ?c then ?a else st] =>
    assert (H1 : Baseline.unreachable_shelves (if c then a else st)
                 = Baseline.unreachable_shelves st) by (by destruct c);
    generalize dependent (if c then a else st) end.
  intros st1 H H1.
  apply bind_ret in H as (state' & _ & H).
  repeat case_match; by simplify_eq.
Qed.

Lemma baseline_stuck_monitor_frame st st' :
  Baseline.stuck_monitor agent st = Ret st' →
  Baseline.unreachable_shelves st' = Baseline.unreachable_shelves st
  ∧ Baseline.last_actions st' = Baseline.last_actions st.
Proof.
  unfold Baseline.stuck_monitor. intros H.
  apply bind_ret in H as (st1 & E1 & H).
  assert (Baseline.unreachable_shelves st1 = Baseline.unreachable_shelves st
          ∧ Baseline.last_actions st1 = Baseline.last_actions st) as [F1 G1].
  { destruct (_ && _) in E1; [apply bind_ret in E1 as (? & _ & E1)|];
      by simplify_eq. }
  apply bind_ret in H as (st2 & E2 & H).
  assert (Baseline.unreachable_shelves st2 = Baseline.unreachable_shelves st1
          ∧ Baseline.last_actions st2 = Baseline.last_actions st1) as [F2 G2].
  { destruct (_ <? _) in E2;
      [apply bind_ret in E2 as (? & _ & E2); destruct (_ && _) in E2|];
      by simplify_eq. }
  simplify_eq. rewrite <- F1, <- F2, <- G1, <- G2.
  by repeat case_match.
Qed.

Lemma baseline_retarget_unreachable id pos st st' :
  Baseline.retarget id pos st = Ret st' →
  Baseline.unreachable_shelves st' = Baseline.unreachable_shelves st.
Proof. unfold Baseline.retarget. intros H. repeat case_match; by simplify_eq. Qed.

Lemma baseline_deliver_block_unreachable st a st' :
  Baseline.deliver_block fuel cfg env agent st = Ret (a, st') →
  Baseline.unreachable_shelves st' = Baseline.unreachable_shelves st.
Proof.
  unfold Baseline.deliver_block. intros H.
  apply bind_ret in H as (goal & _ & H).
  apply bind_ret in H as (st1 & E1%baseline_retarget_unreachable & H).
  apply bind_ret in H as (l & _ & H).
  pose proof (baseline_keep_tail_unreachable (agent_id agent) l st1) as E2.
  case_decide; simplify_eq; simpl; congruence.
Qed.

Lemma baseline_return_shelf_block_unreachable st a st' :
  Baseline.return_shelf_block fuel cfg env agent st = Ret (a, st') →
  Baseline.unreachable_shelves st' = Baseline.unreachable_shelves st.
Proof.
  unfold Baseline.return_shelf_block. intros H.
  destruct (carrying_shelf agent) as [sid|]; [|by simplify_eq].
  destruct (Controller.shelf_memory cfg !! sid) as [pos|]; [|by simplify_eq].
  apply bind_ret in H as (st1 & E1%baseline_retarget_unreachable & H).
  apply bind_ret in H as (l & _ & H).
  pose proof (baseline_keep_tail_unreachable (agent_id agent) l st1) as E2.
  case_decide; simplify_eq; simpl; congruence.
Qed.

(** With an empty queue the seek_shelf block selects anew, so the shelf
    it takes off the unreachable set on a pickup was not in the set. *)
Lemma baseline_seek_shelf_block_unreachable st a st' :
  (∀ x l, Baseline.last_actions st !! agent_id agent ≠ Some (x :: l)) →
  Baseline.seek_shelf_block fuel cfg env agent st = Ret (a, st') →
  unreachable_kept st st'.
Proof.
  intros Hqueue. unfold Baseline.seek_shelf_block. intros H. cbv zeta in H.
  destruct (Baseline.last_actions st !! agent_id agent) as [[|x l]|] eqn:Hq;
    [| by destruct (Hqueue x l) |]; unfold_bind.
  all: destruct (Baseline.select_shelf cfg env st agent) as [shelf|] eqn:Hsel;
    [|simpl in H; simplify_eq; by apply unreachable_kept_eq].
  all: apply baseline_select_spec in Hsel as (_ & _ & Hnu).
  all: apply bind_ret in H as ([action st1] & E1 & H).
  all: apply bind_ret in E1 as (l' & _ & E1); simplify_eq.
  all: match type of H with context [Baseline.keep_tail ?i ?l ?s] =>
         assert (Ek : Baseline.closest_shelf (Baseline.keep_tail i l s) = Some (Some shelf)
                      ∧ Baseline.unreachable_shelves (Baseline.keep_tail i l s)
                        = Baseline.unreachable_shelves st)
           by (destruct l; by destruct (negb _));
         generalize dependent (Baseline.keep_tail i l s) end.
  all: intros st1 H [Ec Eu]; rewrite Ec in H.
  all: case_bool_decide; [|simplify_eq; by apply unreachable_kept_eq].
  all: destruct (_ <=? _); simplify_eq; intros id sid Hin; simpl;
    (destruct (decide (id = agent_id agent)) as [->|Hne];
     [rewrite lookup_insert_eq; simpl; unfold Baseline.unreachable in *;
      rewrite Eu; set_solver
     |rewrite lookup_insert_ne by done; by rewrite Eu]).
Qed.

Lemma baseline_process_agent_unreachable st a st' :
  Baseline.process_agent fuel cfg env agent st = Ret (a, st') →
  unreachable_kept st st'.
Proof.
  unfold Baseline.process_agent. intros H.
  apply bind_ret in H as ([done st1] & E1%baseline_no_task_block_unreachable & H).
  simpl in E1.
  destruct done as [action|]; [simplify_eq; by apply unreachable_kept_eq|].
  apply bind_ret in H as (st2 & [E2 Q2]%baseline_stuck_monitor_frame & H).
  apply (unreachable_kept_trans st st2); [apply unreachable_kept_eq; congruence|].
  unfold Baseline.drain_queue in H.
  destruct (Baseline.last_actions st2 !! agent_id agent) as [[|x l]|] eqn:Hq;
    [| simplify_eq; by apply unreachable_kept_eq |].
  all: unfold Baseline.task_block in H;
    apply bind_ret in H as (state & _ & H);
    destruct state;
    [ eapply baseline_seek_shelf_block_unreachable; [|exact H]; intros ??; congruence
    | destruct (carrying_shelf agent);
      [apply baseline_deliver_block_unreachable in H; by apply unreachable_kept_eq
      |simplify_eq; apply unreachable_kept_refl]
    | apply baseline_return_shelf_block_unreachable in H; by apply unreachable_kept_eq
    | simplify_eq; apply unreachable_kept_refl
    | simplify_eq; apply unreachable_kept_refl ].
Qed.

End BaselineFrames.

Lemma baseline_later_unreachable fuel cfg st st' :
  baseline_later fuel cfg st st' → unreachable_kept st st'.
Proof.
  induction 1 as [st|st env agent a st1 st2 Hp _ IH|st st1 st2 E _ IH].
  - apply unreachable_kept_refl.
  - eapply unreachable_kept_trans; [|exact IH].
    by eapply baseline_process_agent_unreachable.
  - eapply unreachable_kept_trans; [|exact IH]. by apply unreachable_kept_eq.
Qed.

Lemma baseline_later_trans fuel cfg st1 st2 st3 :
  baseline_later fuel cfg st1 st2 → baseline_later fuel cfg st2 st3 →
  baseline_later fuel cfg st1 st3.
Proof.
  induction 1; intros H3; [done| |].
  - eapply later_iteration; eauto.
  - eapply later_write; eauto.
Qed.

Lemma baseline_agent_loop_later fuel cfg env todo st actions st' :
  Baseline.agent_loop fuel cfg env todo st = Ret (actions, st') →
  baseline_later fuel cfg st st'.
Proof.
  revert st actions st'. induction todo as [|agent todo IH]; intros st actions st' H.
  - simpl in H. simplify_eq. constructor.
  - cbn [Baseline.agent_loop] in H.
    apply bind_ret in H as ([a st1] & E1 & H).
    apply bind_ret in H as ([l st2] & E2%IH & H). simplify_eq.
    by eapply later_iteration.
Qed.

Lemma baseline_get_actions_later fuel cfg env st actions st' :
  Baseline.get_actions fuel cfg env st = Ret (actions, st') →
  baseline_later fuel cfg st st'.
Proof.
  unfold Baseline.get_actions. intros H.
  apply bind_ret in H as (moved & _ & H).
  apply baseline_agent_loop_later in H.
  eapply later_write; [|exact H]. done.
Qed.

(** X29.  The baseline controller learns which shelves are too heavy by
    trying.  For a seeking agent with an empty queue that stands on the
    shelf its selection returns, when that shelf weighs more than the
    agent can carry, the controller emits NOOP, records an over-capacity
    attempt, clears the agent's target and adds the shelf to the agent's
    unreachable set; the agent stays in seek_shelf.  From then on, in
    every later state of the run (after any number of iterations of the
    agent loop and of calls of [get_actions], on whatever worlds), the
    shelf is in the agent's unreachable set and the agent's selection
    never returns a shelf with that id. *)
Theorem baseline_overweight_shelf_is_given_up
    (fuel : nat) (cfg : Controller.Config) (env : Env) (agent : Agent)
    (st : Baseline.St) (shelf : Shelf) :
  (planner_fuel (mover_rows (Controller.shelf_mover cfg))
                (mover_cols (Controller.shelf_mover cfg)) ≤ fuel)%nat →
  Baseline.agent_states st !! agent_id agent = Some seek_shelf →
  Baseline.last_actions st !! agent_id agent = Some [] →
  Baseline.select_shelf cfg env st agent = Some shelf →
  agent_pos agent = shelf_pos shelf →
  max_carry_weight agent < shelf_weight shelf →
  ∃ st',
    Baseline.process_agent fuel cfg env agent st = Ret (Action.NOOP, st')
    ∧ Baseline.agent_targets st' !! agent_id agent = Some None
    ∧ Baseline.agent_states st' !! agent_id agent = Some seek_shelf
    ∧ Metrics.overcapacity_attempts (Baseline.metrics st')
      = Metrics.overcapacity_attempts (Baseline.metrics st) + 1
    ∧ (∀ st2 env2 agent2,
         baseline_later fuel cfg st' st2 →
         agent_id agent2 = agent_id agent →
         shelf_id shelf ∈ Baseline.unreachable st2 agent2
         ∧ ∀ s, Baseline.select_shelf cfg env2 st2 agent2 = Some s →
                shelf_id s ≠ shelf_id shelf)
    ∧ (∀ st2 env2 actions st3,
         baseline_later fuel cfg st' st2 →
         Baseline.get_actions fuel cfg env2 st2 = Ret (actions, st3) →
         baseline_later fuel cfg st' st3).
Proof.
  intros Hfuel Hstate Hqueue Hsel Hpos Hheavy.
  destruct (baseline_select_spec cfg env agent st shelf Hsel) as (Hin & Hnc & Hnu).
  assert (Hcan : Baseline._can_carry_any_shelf env st agent = true).
  { unfold Baseline._can_carry_any_shelf. apply existsb_exists. exists shelf.
    split; [by apply list_elem_of_In|]. rewrite Hnc. simpl.
    by apply bool_decide_eq_true_2. }
  destruct (baseline_runs_seek fuel cfg env agent st Hstate Hcan Hqueue)
    as (st1 & -> & Hs & Ht & Hq & Hu & Hm).
  destruct (baseline_seek_overweight fuel cfg env agent st1 shelf)
    as (st' & -> & Hun & Htg & Hst & Hov); try done.
  - by rewrite Hq.
  - by rewrite (baseline_select_same cfg env agent st).
  - exists st'. split; [done|]. split; [done|]. split; [by rewrite Hst, Hs|].
    split; [by rewrite Hov, Hm|]. split.
    + intros st2 env2 agent2 Hlater Hid.
      assert (Hin2 : shelf_id shelf ∈ Baseline.unreachable st2 agent2).
      { unfold Baseline.unreachable. rewrite Hid.
        by apply (baseline_later_unreachable _ _ _ _ Hlater). }
      split; [done|].
      intros s Hsl E. apply baseline_select_spec in Hsl as (_ & _ & Hsl).
      apply Hsl. by rewrite E.
    + intros st2 env2 actions st3 Hlater Hget.
      eapply baseline_later_trans; [exact Hlater|].
      by eapply baseline_get_actions_later.
Qed.

Lemma baseline_overweight_shelf_is_given_up_witness :
  ∃ st',
    Baseline.process_agent (planner_fuel 5 5)
      (Controller.initialize_and_verify Heavy.env) Heavy.env Heavy.weak
      (Baseline.initial_state Heavy.env) = Ret (Action.NOOP, st')
    ∧ 7 ∈ Baseline.unreachable st' Heavy.weak.
Proof.
  destruct (baseline_overweight_shelf_is_given_up (planner_fuel 5 5)
              (Controller.initialize_and_verify Heavy.env) Heavy.env Heavy.weak
              (Baseline.initial_state Heavy.env) (mkShelf 7 3 3 50))
    as (st' & Hp & _ & _ & _ & Hu & _).
  - apply le_n.
  - reflexivity.
  - reflexivity.
  - reflexivity.
  - reflexivity.
  - reflexivity.
  - exists st'. split; [exact Hp|].
    destruct (Hu st' Heavy.env Heavy.weak) as [H _];
      [apply later_now | reflexivity | exact H].
Defined.

(** ** The A* search: where a found path ends *)

Section AStarLinks.
Import Movement.
Variables rows cols : Z.
Variables (agent : Agent) (goal : Pos) (blocked : gset Pos).

Let start := agent_pos agent.

Lemma record_neighbor_links current n g s opened :
  astar_links agent s →
  start ∈ AStar.closed_set s →
  current = start ∨ is_Some (AStar.came_from s !! current) →
  n ∉ AStar.closed_set s →
  manhattan current n = 1 →
  (∀ p, p ∈ opened → p ∈ AStar.open_set s ∨ p = n) →
  astar_links agent (AStar.record_neighbor goal current n g s opened).
Proof.
  intros [Ha Hr Hs Ho Hc] Hstart Hcur Hn Hm Hopened.
  assert (Hne : n ≠ start) by (intros ->; done).
  assert (Hkeep : ∀ p, is_Some (AStar.came_from s !! p) →
                       is_Some (<[n := current]> (AStar.came_from s) !! p)).
  { intros p Hp. destruct (decide (p = n)) as [->|Hpn].
    - rewrite lookup_insert_eq. by eexists.
    - by rewrite lookup_insert_ne. }
  constructor; simpl.
  - intros c p Hcp. destruct (decide (c = n)) as [->|Hcn].
    + rewrite lookup_insert_eq in Hcp. by injection Hcp as <-.
    + rewrite lookup_insert_ne in Hcp by done. by apply Ha.
  - intros c p Hcp. destruct (decide (c = n)) as [->|Hcn].
    + rewrite lookup_insert_eq in Hcp. injection Hcp as <-.
      destruct Hcur as [?|?]; [by left | right; by apply Hkeep].
    + rewrite lookup_insert_ne in Hcp by done.
      destruct (Hr c p Hcp) as [?|?]; [by left | right; by apply Hkeep].
  - by rewrite lookup_insert_ne.
  - intros p Hp. destruct (Hopened p Hp) as [Hp'| ->].
    + destruct (Ho p Hp') as [?|?]; [by left | right; by apply Hkeep].
    + right. rewrite lookup_insert_eq. by eexists.
  - by left.
Qed.

Lemma relax_links current ns s s' :
  astar_links agent s →
  start ∈ AStar.closed_set s →
  current = start ∨ is_Some (AStar.came_from s !! current) →
  (∀ n, n ∈ ns → manhattan current n = 1) →
  AStar.relax goal current blocked ns s = Ret s' →
  astar_links agent s' ∧ AStar.closed_set s' = AStar.closed_set s.
Proof.
  revert s. induction ns as [|n ns IH]; intros s Hl Hstart Hcur Hns Hrun.
  - simpl in Hrun. by injection Hrun as <-.
  - assert (Hn : manhattan current n = 1) by (apply Hns; left).
    assert (Hns' : ∀ m, m ∈ ns → manhattan current m = 1)
      by (intros m Hm; apply Hns; by right).
    assert (Hstep : ∀ opened g,
              n ∉ AStar.closed_set s →
              (∀ p, p ∈ opened → p ∈ AStar.open_set s ∨ p = n) →
              AStar.relax goal current blocked ns
                (AStar.record_neighbor goal current n g s opened) = Ret s' →
              astar_links agent s' ∧ AStar.closed_set s' = AStar.closed_set s).
    { intros opened g Hnc Hop Hr.
      apply IH in Hr; [done| |done| |done].
      - by apply record_neighbor_links.
      - simpl. destruct Hcur as [?|Hc]; [by left|right].
        destruct (decide (current = n)) as [->|Hne].
        + rewrite lookup_insert_eq. by eexists.
        + by rewrite lookup_insert_ne. }
    cbn [AStar.relax] in Hrun.
    destruct (bool_decide (n ∈ AStar.closed_set s) || bool_decide (n ∈ blocked))
      eqn:Hskip; [by apply IH in Hrun|].
    apply orb_false_iff in Hskip as [Hnc%bool_decide_eq_false _].
    destruct (AStar.g_score s !! current) as [gc|]; [|discriminate].
    case_bool_decide as Hopen.
    + apply Hstep in Hrun; [done|done|].
      intros p [?| ->%list_elem_of_singleton]%elem_of_app; auto.
    + destruct (AStar.g_score s !! n) as [gn|].
      * destruct (gn <=? gc + 1); [by apply IH in Hrun|].
        apply Hstep in Hrun; auto.
      * apply Hstep in Hrun; auto.
Qed.

Lemma astar_reconstruct_chain (cf : gmap Pos Pos) fuel current path r :
  (∀ c p, cf !! c = Some p → manhattan p c = 1) →
  (∀ c p, cf !! c = Some p → p = start ∨ is_Some (cf !! p)) →
  AStar.reconstruct fuel cf current path = Ret r →
  ∃ chain, r = path ++ chain
    ∧ (chain = [] ∧ cf !! current = None
       ∨ ∃ rest, reverse chain = start :: rest ∧ stepwise start rest
                 ∧ cf !! current = Some (default start (last rest))).
Proof.
  intros Ha Hr. revert current path.
  induction fuel as [|fuel IH]; intros current path Hrun; simpl in Hrun.
  - destruct (cf !! current) eqn:E; [discriminate|]. injection Hrun as <-.
    exists []. rewrite app_nil_r. split; [done|]. by left.
  - destruct (cf !! current) as [prev|] eqn:E.
    + apply IH in Hrun as (chain & -> & Hchain).
      exists (prev :: chain). rewrite <- app_assoc. split; [done|]. right.
      destruct Hchain as [[-> Hnone]|(rest & Hrev & Hs & Hlink)].
      * exists []. destruct (Hr current prev E) as [->|[? ?]]; [done|congruence].
      * exists (rest ++ [prev]). rewrite reverse_cons, Hrev. split; [done|].
        split.
        -- apply stepwise_snoc; [done|]. by apply Ha.
        -- by rewrite last_snoc.
    + injection Hrun as <-. exists []. rewrite app_nil_r. split; [done|]. by left.
Qed.

Lemma astar_search_loop_near fuel rfuel s actions :
  astar_links agent s →
  AStar.search_loop rows cols fuel rfuel agent goal blocked s = Ret actions →
  actions ≠ [] →
  manhattan (replay_end start (agent_dir agent) actions).1 goal = 1.
Proof.
  revert s. induction fuel as [|fuel IH]; intros s Hl Hrun Hne.
  - simpl in Hrun. destruct (AStar.open_set s); [by injection Hrun as <-|discriminate].
  - cbn [AStar.search_loop] in Hrun.
    destruct (AStar.open_set s) as [|o os] eqn:Hopen; [by injection Hrun as <-|].
    set (current := min_by (λ pos, AStar.f_score s !! pos) o os) in *.
    assert (Hcin : current ∈ AStar.open_set s)
      by (rewrite Hopen; apply min_by_elem_of).
    pose proof (link_open _ _ Hl current Hcin) as Hcur.
    case_decide as Hgoal.
    + destruct (AStar.reconstruct rfuel (AStar.came_from s) current [])
        as [r| |] eqn:Hrec; try discriminate.
      cbn [mbind outcome_mbind outcome_bind] in Hrun.
      apply astar_reconstruct_chain in Hrec as (chain & -> & Hchain);
        [|apply (link_adjacent _ _ Hl)|apply (link_rooted _ _ Hl)].
      simpl in Hrun.
      destruct Hchain as [[-> _]|(rest & Hrev & Hs & Hlink)];
        [by injection Hrun as <-|].
      rewrite Hrev in Hrun. injection Hrun as <-.
      unfold _convert_path_to_actions. fold start. cbn [convert_from].
      assert (step_dir start start = None) as ->.
      { unfold step_dir. rewrite !Z.sub_diag. by repeat case_decide. }
      destruct (convert_from_replay (agent_dir agent) start rest Hs) as [_ ->].
      rewrite <- Hgoal. by apply (link_adjacent _ _ Hl).
    + destruct (AStar.relax goal current blocked (_get_neighbors rows cols current) _)
        as [s'| |] eqn:Hrelax; try discriminate.
      cbn [mbind outcome_mbind outcome_bind] in Hrun.
      apply relax_links in Hrelax as [Hl' _]; [by apply IH in Hrun| | | |].
      * destruct Hl as [Ha Hr Hs Ho Hc].
        constructor;
          cbn [AStar.open_set AStar.closed_set AStar.came_from]; auto.
        -- intros p Hp%remove_first_elem_of. apply Ho. by rewrite Hopen.
        -- destruct Hc as [?| ->]; [left; set_solver|by right].
      * cbn [AStar.closed_set].
        destruct (link_closed _ _ Hl) as [?|Hempty]; [set_solver|].
        destruct Hcur as [->|[? Hsome]]; [set_solver|].
        rewrite Hempty, lookup_empty in Hsome. discriminate.
      * done.
      * intros n Hn. by apply (neighbor_is_adjacent rows cols).
Qed.

Lemma astar_plan_near fuel actions :
  AStar.plan rows cols fuel agent goal blocked = Ret actions →
  actions ≠ [] →
  let direct :=
    AStar._is_direct_path_clear start goal blocked
    && _validate_action_sequence rows cols agent
         (AStar._direct_movement agent goal) blocked in
  (direct = true →
   actions = AStar._direct_movement agent goal
   ∧ (replay_end start (agent_dir agent) actions).1 = goal)
  ∧ (direct = false →
     manhattan (replay_end start (agent_dir agent) actions).1 goal = 1).
Proof.
  unfold AStar.plan. fold start. intros Hplan Hne.
  destruct (negb _); [by injection Hplan as <-|].
  case_bool_decide; [by injection Hplan as <-|].
  cbn zeta. destruct (_ && _).
  - injection Hplan as <-. split; [|done]. intros _. split; [done|].
    apply direct_movement_end.
  - split; [done|]. intros _.
    destruct (AStar._pathfind_movement rows cols fuel agent goal blocked)
      as [acts| |] eqn:Hpath; try discriminate.
    cbn [mbind outcome_mbind outcome_bind] in Hplan.
    assert (actions = acts) as ->.
    { destruct acts; [by injection Hplan as <-|].
      destruct (_validate_action_sequence _ _ _ _ _); by injection Hplan as <-. }
    unfold AStar._pathfind_movement in Hpath.
    apply astar_search_loop_near in Hpath; [done| |done].
    constructor; simpl; try done.
    + intros p ->%list_elem_of_singleton. by left.
    + by right.
Qed.

End AStarLinks.

(** X30.  Where a sequence of the A* strategy ends.  When
    [calculate_movement] returns a non-empty sequence: if the
    straight-line check and the validation of the direct sequence pass,
    it is the direct sequence and ends on the goal; if not, the sequence
    comes from the search, and replaying it ends on a cell at Manhattan
    distance 1 from the goal (the parent of the goal in [came_from]), not
    on the goal. *)
Theorem astar_sequence_end
    (fuel : nat) (m : Mover) (env : Env) (states : option (gmap Z AgentState))
    (agent : Agent) (goal : Pos) (actions : list Action.t) :
  AStar.calculate_movement fuel m env states agent goal = Ret actions →
  actions ≠ [] →
  let blocked :=
    ShelfHelper.get_blocked_positions (shelf_helper m) env states agent in
  let direct :=
    AStar._is_direct_path_clear (agent_pos agent) goal blocked
    && Movement._validate_action_sequence (mover_rows m) (mover_cols m) agent
         (AStar._direct_movement agent goal) blocked in
  let reached :=
    (Movement.replay_end (agent_pos agent) (agent_dir agent) actions).1 in
  (direct = true → actions = AStar._direct_movement agent goal ∧ reached = goal)
  ∧ (direct = false → manhattan reached goal = 1 ∧ reached ≠ goal).
Proof.
  intros Hplan Hne blocked direct reached.
  destruct (astar_plan_near _ _ _ _ _ _ _ Hplan Hne) as [Hd Hs].
  split; [exact Hd|]. intros Hno. specialize (Hs Hno). split; [exact Hs|].
  intros E. fold reached in Hs. rewrite E in Hs. unfold manhattan in Hs. lia.
Qed.

Lemma astar_sequence_end_witness :
  manhattan
    (Movement.replay_end (agent_pos Worlds.walker) (agent_dir Worlds.walker)
       [Action.RIGHT; Action.FORWARD; Action.LEFT; Action.FORWARD]).1 (2, 1) = 1.
Proof.
  destruct (astar_sequence_end (planner_fuel 3 3)
              (Mover_init Worlds.detour_env) Worlds.detour_env
              (Some Worlds.detour_states) Worlds.walker (2, 1)
              [Action.RIGHT; Action.FORWARD; Action.LEFT; Action.FORWARD])
    as [_ Hs].
  - vm_compute. reflexivity.
  - discriminate.
  - apply Hs. vm_compute. reflexivity.
Defined.
